(** * iac-gen-go: the orchestration core, embedded and verified

    A shallow embedding of the TypeScript sources

    - [core/executor.ts]  (class [CodeExecutor], the local Build Pipeline),
    - [ssh/mcp-server.ts] (class [MCPServer], the remote backend; in the
      source tree it follows the command line program in [src/index.ts]),
    - [core/generator.ts] (class [IaCGenerator], structural validation),
    - [core/agent.ts]     (class [IaCAgent], the outer cycle loop).

    Everything the code obtains from outside (child processes, the SSH
    session, the generation service, the file system, [JSON] and [path])
    is an oracle of a [World]; an [async] method becomes a computation in
    a state-and-trace monad over the world's state and the server's
    [connected] flag.  A method that can throw returns a [Completion].
    The [while] and [for] loops are fixpoints on a fuel that their bounds
    make sufficient.

    The file has three parts: the embedding, the predicates the theorems
    are stated with (together with a scripted world for concrete runs),
    and the proofs. *)

From Stdlib Require Import String Ascii List ZArith Lia Bool Arith.
From Stdlib Require Import DecimalString.
Import ListNotations.
Open Scope list_scope.
Open Scope string_scope.

(** ** JavaScript strings *)

Module Js.

(** [s.includes(sub)] *)
Fixpoint includes (s sub : string) : bool :=
  if String.prefix sub s then true
  else match s with
       | EmptyString => false
       | String _ rest => includes rest sub
       end.

(** [s.endsWith(suffix)] *)
Definition endsWith (s suffix : string) : bool :=
  let n := String.length s in
  let k := String.length suffix in
  if Nat.leb k n then String.eqb (String.substring (n - k) k s) suffix else false.

(** Truthiness of a string: only the empty string is falsy. *)
Definition truthy (s : string) : bool :=
  match s with EmptyString => false | _ => true end.

(** [a || b] on strings. *)
Definition orElse (a b : string) : string := if truthy a then a else b.

(** [a || b] where [a] may be [undefined]. *)
Definition optOrElse (a : option string) (b : string) : string :=
  match a with
  | Some s => orElse s b
  | None => b
  end.

(** [xs.join(sep)] *)
Fixpoint join (sep : string) (xs : list string) : string :=
  match xs with
  | [] => ""
  | [x] => x
  | x :: rest => x ++ sep ++ join sep rest
  end.

(** The line feed of a template literal. *)
Definition nl : string := String (ascii_of_nat 10) EmptyString.

(** Template interpolation of numbers. *)
Definition showZ (z : Z) : string := NilZero.string_of_int (Z.to_int z).
Definition showNat (n : nat) : string := NilZero.string_of_uint (Nat.to_uint n).

(** [${code}] for an exit code that is [null] when the child was killed. *)
Definition showCode (code : option Z) : string :=
  match code with
  | Some z => showZ z
  | None => "null"
  end.

(** A thrown value: an [Error] object with its message, or anything else
    with its string conversion. *)
Inductive Thrown : Type :=
| ErrorObject (message : string)
| OtherValue (shown : string).

(** [error instanceof Error ? error.message : 'Unknown error'] *)
Definition messageOf (e : Thrown) : string :=
  match e with
  | ErrorObject m => m
  | OtherValue _ => "Unknown error"
  end.

(** [${error}] *)
Definition showThrown (e : Thrown) : string :=
  match e with
  | ErrorObject m => "Error: " ++ m
  | OtherValue s => s
  end.

End Js.

(** ** Results of commands *)

(** [ExecutionResult] of executor.ts. *)
Record ExecutionResult : Type := mkExecutionResult {
  success : bool;
  output : string;
  error : option string;
  exitCode : Z
}.

(** How a spawned child process ends: the ['close'] event with the captured
    streams and the exit code, or the ['error'] event. *)
Inductive ProcOutcome : Type :=
| Closed (stdout stderr : string) (code : option Z)
| SpawnError (stdout : string) (message : string).

(** What [ssh.execCommand] resolves to. *)
Record SshResponse : Type := mkSshResponse {
  ssh_stdout : string;
  ssh_stderr : string;
  ssh_code : option Z
}.

(** What [executeRemoteCommand] returns: [{stdout, stderr, code}]. *)
Record RemoteResult : Type := mkRemoteResult {
  stdout : string;
  stderr : string;
  code : Z
}.

(** A normal or an abrupt completion of a method. *)
Inductive Completion (A : Type) : Type :=
| Normal (a : A)
| Throw (e : Js.Thrown).
Arguments Normal {A} a.
Arguments Throw {A} e.

(** A file set: [Record<string, string>], in insertion order. *)
Definition Files : Type := list (string * string).

(** [files[key]] *)
Fixpoint lookupFile (files : Files) (key : string) : option string :=
  match files with
  | [] => None
  | (k, v) :: rest => if String.eqb k key then Some v else lookupFile rest key
  end.

(** What [generateCDKTFGoCode] resolves to. *)
Record GenerationResult : Type := mkGenerationResult {
  gen_success : bool;
  gen_files : Files;
  gen_error : option string
}.

(** A value stored in the deployment outputs: the parse of a JSON text
    (kept as its text) or a raw string. *)
Inductive OutputValue : Type :=
| ParsedJson (text : string)
| RawText (text : string).

(** The deployment outputs: [Record<string, any>]. *)
Definition Outputs : Type := list (string * OutputValue).

(** ** The world *)

(** The external collaborators, over a state [W] of the outside world. *)
Record World (W : Type) : Type := mkWorld {
  (** [child_process.spawn] up to the end of the child *)
  spawnProcess : string -> list string -> W -> ProcOutcome * W;
  (** reading the private key and [ssh.connect] *)
  sshConnect : W -> option Js.Thrown * W;
  (** [ssh.execCommand] *)
  sshExecCommand : string -> W -> Completion SshResponse * W;
  (** [ssh.putFile(localFile, remoteFile)] *)
  sshPutFile : string -> string -> W -> option Js.Thrown * W;
  (** [fs.writeFile] of a temporary file *)
  fsWriteTemp : string -> string -> W -> option Js.Thrown * W;
  (** [fs.remove] *)
  fsRemove : string -> W -> option Js.Thrown * W;
  (** the generation service behind [generateCDKTFGoCode] *)
  generationService : string -> option string -> W -> GenerationResult * W;
  (** [fs.ensureDir] and [fs.writeFile] for one file *)
  fsWriteFile : string -> string -> W -> option Js.Thrown * W;
  (** whether [JSON.parse] accepts a text *)
  jsonParses : string -> bool;
  (** [JSON.stringify(outputs, null, 2)] *)
  jsonStringify : Outputs -> string;
  (** [path.join], [path.dirname] and [path.basename] *)
  pathJoin : string -> string -> string;
  pathDirname : string -> string;
  pathBasename : string -> string
}.
Arguments spawnProcess {W}.
Arguments sshConnect {W}.
Arguments sshExecCommand {W}.
Arguments sshPutFile {W}.
Arguments fsWriteTemp {W}.
Arguments fsRemove {W}.
Arguments generationService {W}.
Arguments fsWriteFile {W}.
Arguments jsonParses {W}.
Arguments jsonStringify {W}.
Arguments pathJoin {W}.
Arguments pathDirname {W}.
Arguments pathBasename {W}.

(** ** The trace *)

(** What a run does to the outside, in order: a child process with its
    result, the start of a pass, a command sent over the session with the
    answer of [ssh.execCommand], the connection and its release, a call of
    the generation service, a file written under the output path, a file
    transferred to the server, a temporary copy written and its removal,
    the start of a cycle. *)
Inductive Event : Type :=
| EvSpawn (command : string) (args : list string) (r : ExecutionResult)
| EvPass (attempt : nat)
| EvRemote (command : string) (answer : Completion SshResponse)
| EvConnect (failure : option Js.Thrown)
| EvDisconnect
| EvGenerate (prompt : string) (context : option string)
| EvWrite (path : string)
| EvUpload (path : string)
| EvTemp (path : string)
| EvRemove (path : string) (failure : option Js.Thrown)
| EvCycle (cycle : nat).

(** ** The monad *)

(** The state: the outside world and the [connected] field of [MCPServer]. *)
Record State (W : Type) : Type := mkState {
  world : W;
  connected : bool
}.
Arguments mkState {W}.
Arguments world {W}.
Arguments connected {W}.

(** A computation returns its value, the events it produced and the new
    state. *)
Definition M (W A : Type) : Type := State W -> A * list Event * State W.

Definition ret {W A} (a : A) : M W A := fun s => (a, [], s).

Definition bind {W A B} (m : M W A) (f : A -> M W B) : M W B :=
  fun s =>
    let '(a, e1, s1) := m s in
    let '(b, e2, s2) := f a s1 in
    (b, (e1 ++ e2)%list, s2).

Definition emit {W} (e : Event) : M W unit := fun s => (tt, [e], s).

(** Calling an oracle of the world. *)
Definition call {W A} (f : W -> A * W) : M W A :=
  fun s => let '(a, w) := f (world s) in (a, [], mkState w (connected s)).

Definition getConnected {W} : M W bool := fun s => (connected s, [], s).
Definition setConnected {W} (b : bool) : M W unit :=
  fun s => (tt, [], mkState (world s) b).

Declare Scope monad_scope.
Delimit Scope monad_scope with monad.
Notation "x <- m ;; k" := (bind m (fun x => k))
  (at level 61, m at next level, right associativity) : monad_scope.
Notation "m ;; k" := (bind m (fun _ => k))
  (at level 61, right associativity) : monad_scope.
Open Scope monad_scope.

(** [await m] inside a method that can throw: an abrupt completion of [m]
    is the completion of the whole. *)
Definition bindE {W A B} (m : M W (Completion A)) (f : A -> M W (Completion B))
  : M W (Completion B) :=
  x <- m ;;
  match x with
  | Normal a => f a
  | Throw e => ret (Throw e)
  end.
Notation "x <-! m ;; k" := (bindE m (fun x => k))
  (at level 61, m at next level, right associativity) : monad_scope.
Notation "m ;;! k" := (bindE m (fun _ => k))
  (at level 61, right associativity) : monad_scope.

(** The value, the events and the final state of a run. *)
Definition valueOf {W A} (r : A * list Event * State W) : A := fst (fst r).
Definition eventsOf {W A} (r : A * list Event * State W) : list Event := snd (fst r).
Definition stateOf {W A} (r : A * list Event * State W) : State W := snd r.

(** ** The four phases *)

Inductive Phase : Type := Build | Synth | Lint | Deploy.

(** The [results] object of a pipeline, [Record<string, A>] with the keys
    [build], [synth], [lint] and [deploy]. *)
Record PhaseResults (A : Type) : Type := mkPhaseResults {
  build : option A;
  synth : option A;
  lint : option A;
  deploy : option A
}.
Arguments mkPhaseResults {A}.
Arguments build {A}.
Arguments synth {A}.
Arguments lint {A}.
Arguments deploy {A}.

Definition noResults {A} : PhaseResults A := mkPhaseResults None None None None.

Definition setBuild {A} (r : PhaseResults A) (x : A) : PhaseResults A :=
  mkPhaseResults (Some x) (synth r) (lint r) (deploy r).
Definition setSynth {A} (r : PhaseResults A) (x : A) : PhaseResults A :=
  mkPhaseResults (build r) (Some x) (lint r) (deploy r).
Definition setLint {A} (r : PhaseResults A) (x : A) : PhaseResults A :=
  mkPhaseResults (build r) (synth r) (Some x) (deploy r).
Definition setDeploy {A} (r : PhaseResults A) (x : A) : PhaseResults A :=
  mkPhaseResults (build r) (synth r) (lint r) (Some x).

(** ** executor.ts: the local Build Pipeline *)

Module Executor.

(** The value [executeBuildCycle] resolves to. *)
Record BuildCycleResult : Type := mkBuildCycleResult {
  cycle_success : bool;
  cycle_results : PhaseResults ExecutionResult;
  finalError : option string
}.

(** How one iteration of the [while] loop ends: with [return] or with
    [continue] (and the [results] so far). *)
Inductive PassExit : Type :=
| Return (r : BuildCycleResult)
| Continue (results : PhaseResults ExecutionResult).

(** [{ success: false, output: 'No automatic fix available', exitCode: 1 }] *)
Definition noAutomaticFix : ExecutionResult :=
  mkExecutionResult false "No automatic fix available" None 1.

(** [xResult.output || xResult.error || ''] *)
Definition diagnosticText (r : ExecutionResult) : string :=
  Js.orElse (output r) (Js.optOrElse (error r) "").

Section WithWorld.
Context {W : Type} (wd : World W).

(** [executeCommand]: the promise resolves on ['close'] or on ['error']. *)
Definition executeCommand (command : string) (args : list string)
  : M W ExecutionResult :=
  o <- call (spawnProcess wd command args) ;;
  let r :=
    match o with
    | Closed out err code =>
        let ok := match code with Some 0%Z => true | _ => false end in
        mkExecutionResult ok (out ++ err)
          (if ok then None
           else Some (Js.orElse err ("Command exited with code " ++ Js.showCode code)))
          (match code with Some z => z | None => 0%Z end)
    | SpawnError out msg => mkExecutionResult false out (Some msg) 1
    end in
  emit (EvSpawn command args r) ;;
  ret r.

Definition attemptBuildFix (buildResult : ExecutionResult) : M W ExecutionResult :=
  let output := diagnosticText buildResult in
  if Js.includes output "Cannot find module" || Js.includes output "Module not found"
  then executeCommand "npm" ["install"]
  else if Js.includes output "go.mod" || Js.includes output "go.sum"
  then
    result1 <- executeCommand "go" ["mod"; "tidy"] ;;
    if success result1 then executeCommand "go" ["mod"; "download"]
    else ret result1
  else ret noAutomaticFix.

Definition attemptSynthFix (synthResult : ExecutionResult) : M W ExecutionResult :=
  let output := diagnosticText synthResult in
  if Js.includes output "cdktf get" || Js.includes output ".gen"
  then executeCommand "npx" ["cdktf"; "get"]
  else ret noAutomaticFix.

Definition attemptLintFix (lintResult : ExecutionResult) : M W ExecutionResult :=
  let output := diagnosticText lintResult in
  if Js.includes output "gofmt" || Js.includes output "format"
  then executeCommand "gofmt" ["-w"; "."]
  else ret noAutomaticFix.

Definition attemptDeployFix (deployResult : ExecutionResult) : M W ExecutionResult :=
  let output := diagnosticText deployResult in
  if Js.includes output "credentials" || Js.includes output "access denied"
  then ret (mkExecutionResult false "AWS credentials need to be configured" None 1)
  else if Js.includes output "already exists" || Js.includes output "conflict"
  then executeCommand "npm" ["run"; "destroy"]
  else ret noAutomaticFix.

(** The block every step of [executeBuildCycle] starts with: run the
    phase command; on failure ask the phase's fix; when the fix succeeded
    run the phase command once more.  The value is what the step leaves
    in its [results] entry. *)
Definition phaseWithFix (script : string)
    (attemptFix : ExecutionResult -> M W ExecutionResult) : M W ExecutionResult :=
  r <- executeCommand "npm" ["run"; script] ;;
  if success r then ret r
  else
    fixResult <- attemptFix r ;;
    if success fixResult then executeCommand "npm" ["run"; script]
    else ret r.

(** Step 4 and the [return] after it. *)
Definition deployStep (results : PhaseResults ExecutionResult) : M W BuildCycleResult :=
  d <- phaseWithFix "deploy" attemptDeployFix ;;
  let results := setDeploy results d in
  (* if (!results.deploy.success) only logs *)
  ret (mkBuildCycleResult true results None).

(** The body of the [while] loop, after [attempt++]. *)
Definition passBody (attempt maxAttempts : nat)
    (results : PhaseResults ExecutionResult) : M W PassExit :=
  b <- phaseWithFix "build" attemptBuildFix ;;
  let results := setBuild results b in
  if negb (success b) then
    if (attempt =? maxAttempts)%nat
    then ret (Return (mkBuildCycleResult false results
                        (Some "Build phase failed after all attempts")))
    else ret (Continue results)
  else
  s <- phaseWithFix "synth" attemptSynthFix ;;
  let results := setSynth results s in
  if negb (success s) then
    if (attempt =? maxAttempts)%nat
    then ret (Return (mkBuildCycleResult false results
                        (Some "Synth phase failed after all attempts")))
    else ret (Continue results)
  else
  l <- phaseWithFix "lint" attemptLintFix ;;
  let results := setLint results l in
  if negb (success l) then
    if (attempt =? maxAttempts)%nat
    then ret (Return (mkBuildCycleResult false results
                        (Some "Lint phase failed after all attempts")))
    else ret (Continue results)
  else
  r <- deployStep results ;;
  ret (Return r).

(** [while (attempt < maxAttempts) { attempt++; ... }] and the [return]
    after the loop; [fuel] bounds the number of iterations. *)
Fixpoint buildCycleLoop (fuel attempt maxAttempts : nat)
    (results : PhaseResults ExecutionResult) : M W BuildCycleResult :=
  match fuel with
  | O => ret (mkBuildCycleResult false results
                (Some "Build cycle failed after maximum attempts"))
  | S fuel' =>
      if (attempt <? maxAttempts)%nat then
        let attempt := S attempt in
        emit (EvPass attempt) ;;
        x <- passBody attempt maxAttempts results ;;
        match x with
        | Return r => ret r
        | Continue results' => buildCycleLoop fuel' attempt maxAttempts results'
        end
      else ret (mkBuildCycleResult false results
                  (Some "Build cycle failed after maximum attempts"))
  end.

(** [executeBuildCycle(maxAttempts = 3)]: the loop runs at most
    [maxAttempts] times, so that much fuel is enough. *)
Definition executeBuildCycle (maxAttempts : nat) : M W BuildCycleResult :=
  buildCycleLoop maxAttempts 0 maxAttempts noResults.

End WithWorld.
End Executor.

(** ** mcp-server.ts: the remote backend *)

Module MCPServer.

(** [MCPServerConfig], without the connection parameters. *)
Record MCPServerConfig : Type := mkMCPServerConfig {
  workingDirectory : string;
  githubRepoUrl : string;
  environmentVariables : option (list (string * string))
}.

(** The value [executeRemoteBuildCycle] resolves to. *)
Record RemoteBuildResult : Type := mkRemoteBuildResult {
  remote_success : bool;
  remote_results : PhaseResults RemoteResult;
  remote_error : option string
}.

(** The double quote of [export KEY="value"]. *)
Definition dq : string := String (ascii_of_nat 34) EmptyString.

(** The well-known output locations of [downloadDeploymentOutputs]. *)
Definition outputFiles : list string :=
  ["cfn-outputs/"; "cdk-stacks.json"; "terraform.tfstate"].

Section WithWorld.
Context {W : Type} (wd : World W) (config : MCPServerConfig).

Definition connect : M W (Completion unit) :=
  r <- call (sshConnect wd) ;;
  emit (EvConnect r) ;;
  match r with
  | None => setConnected true ;; ret (Normal tt)
  | Some e => ret (Throw e)
  end.

Definition disconnect : M W unit :=
  c <- getConnected ;;
  if c then emit EvDisconnect ;; setConnected false
  else ret tt.

(** [executeRemoteCommand(command, { cwd })] *)
Definition executeRemoteCommand (command : string) (cwd : option string)
  : M W (Completion RemoteResult) :=
  c <- getConnected ;;
  if negb c then ret (Throw (Js.ErrorObject "SSH not connected"))
  else
    let workingDir := Js.optOrElse cwd (workingDirectory config) in
    let fullCommand := "cd " ++ workingDir ++ " && " ++ command in
    r <- call (sshExecCommand wd fullCommand) ;;
    match r with
    | Normal result =>
        let res := mkRemoteResult (ssh_stdout result) (ssh_stderr result)
                     (match ssh_code result with Some z => z | None => 0%Z end) in
        emit (EvRemote command (Normal result)) ;;
        ret (Normal res)
    | Throw e =>
        emit (EvRemote command (Throw e)) ;;
        ret (Throw e)
    end.

Definition cloneRepository : M W (Completion unit) :=
  checkRepoResult <-! executeRemoteCommand
                        ("test -d " ++ workingDirectory config ++ "/.git") None ;;
  if (code checkRepoResult =? 0)%Z then
    executeRemoteCommand "git pull origin main" (Some (workingDirectory config)) ;;!
    ret (Normal tt)
  else
    let parentDir := pathDirname wd (workingDirectory config) in
    let repoName := pathBasename wd (workingDirectory config) in
    executeRemoteCommand ("mkdir -p " ++ parentDir) None ;;!
    executeRemoteCommand ("git clone " ++ githubRepoUrl config ++ " " ++ repoName)
      (Some parentDir) ;;!
    ret (Normal tt).

Definition installDependencies : M W (Completion unit) :=
  packageJsonExists <-! executeRemoteCommand "test -f package.json" None ;;
  (if (code packageJsonExists =? 0)%Z
   then executeRemoteCommand "npm install" None ;;! ret (Normal tt)
   else ret (Normal tt)) ;;!
  goModExists <-! executeRemoteCommand "test -f go.mod" None ;;
  if (code goModExists =? 0)%Z then
    executeRemoteCommand "go mod tidy" None ;;!
    executeRemoteCommand "go mod download" None ;;!
    ret (Normal tt)
  else ret (Normal tt).

Definition setupEnvironmentVariables : M W (Completion unit) :=
  match environmentVariables config with
  | None => ret (Normal tt)
  | Some vars =>
      let envVars :=
        Js.join Js.nl
          (map (fun kv => "export " ++ fst kv ++ "=" ++ dq ++ snd kv ++ dq) vars) in
      executeRemoteCommand ("echo '" ++ envVars ++ "' >> ~/.bashrc") None ;;!
      ret (Normal tt)
  end.

Definition setupRemoteEnvironment : M W (Completion unit) :=
  cloneRepository ;;!
  installDependencies ;;!
  setupEnvironmentVariables.

(** [fs.remove(tempFile)], the outcome recorded. *)
Definition removeTemp (tempFile : string) : M W (option Js.Thrown) :=
  r <- call (fsRemove wd tempFile) ;;
  emit (EvRemove tempFile r) ;;
  ret r.

(** [uploadGeneratedCode]: for each file the remote directory is
    created, the content is written to a temporary file, the file is
    transferred and the temporary file removed; the transfer and the
    removal are in a [try] whose [catch] removes the temporary file,
    ignoring a failure of that, and throws the error again. *)
Fixpoint uploadGeneratedCode (files : Files) : M W (Completion unit) :=
  match files with
  | [] => ret (Normal tt)
  | (filePath, content) :: rest =>
      let remotePath := pathJoin wd (workingDirectory config) filePath in
      let remoteDir := pathDirname wd remotePath in
      executeRemoteCommand ("mkdir -p " ++ remoteDir) None ;;!
      let tempFile := pathJoin wd "/tmp" (pathBasename wd filePath) in
      w <- call (fsWriteTemp wd tempFile content) ;;
      match w with
      | Some e => ret (Throw e)
      | None =>
          emit (EvTemp tempFile) ;;
          p <- call (sshPutFile wd tempFile remotePath) ;;
          match p with
          | Some e => removeTemp tempFile ;; ret (Throw e)
          | None =>
              emit (EvUpload filePath) ;;
              r <- removeTemp tempFile ;;
              match r with
              | Some e => removeTemp tempFile ;; ret (Throw e)
              | None => uploadGeneratedCode rest
              end
          end
      end
  end.

(** The [try] block of [executeRemoteBuildCycle]. *)
Definition remotePhases : M W (Completion RemoteBuildResult) :=
  let results := noResults in
  b <-! executeRemoteCommand "npm run build" None ;;
  let results := setBuild results b in
  if negb (code b =? 0)%Z
  then ret (Normal (mkRemoteBuildResult false results (Some "Remote build failed")))
  else
  s <-! executeRemoteCommand "npm run synth" None ;;
  let results := setSynth results s in
  if negb (code s =? 0)%Z
  then ret (Normal (mkRemoteBuildResult false results (Some "Remote synth failed")))
  else
  l <-! executeRemoteCommand "npm run lint" None ;;
  let results := setLint results l in
  if negb (code l =? 0)%Z
  then ret (Normal (mkRemoteBuildResult false results (Some "Remote lint failed")))
  else
  d <-! executeRemoteCommand "npm run deploy" None ;;
  let results := setDeploy results d in
  if negb (code d =? 0)%Z
  then ret (Normal (mkRemoteBuildResult false results (Some "Remote deploy failed")))
  else ret (Normal (mkRemoteBuildResult true results None)).

Definition executeRemoteBuildCycle : M W RemoteBuildResult :=
  x <- remotePhases ;;
  match x with
  | Normal r => ret r
  | Throw e => ret (mkRemoteBuildResult false noResults (Some (Js.messageOf e)))
  end.

(** The [for] loop of [downloadDeploymentOutputs]. *)
Fixpoint collectOutputs (files : list string) (outputs : Outputs)
  : M W (Completion Outputs) :=
  match files with
  | [] => ret (Normal outputs)
  | file :: rest =>
      let remotePath := pathJoin wd (workingDirectory config) file in
      checkResult <-! executeRemoteCommand ("test -e " ++ remotePath) None ;;
      if (code checkResult =? 0)%Z then
        if Js.endsWith file "/" then
          listResult <-! executeRemoteCommand ("ls -la " ++ remotePath) None ;;
          collectOutputs rest (outputs ++ [(file, RawText (stdout listResult))])%list
        else
          catResult <-! executeRemoteCommand ("cat " ++ remotePath) None ;;
          if (code catResult =? 0)%Z then
            let value := if jsonParses wd (stdout catResult)
                         then ParsedJson (stdout catResult)
                         else RawText (stdout catResult) in
            collectOutputs rest (outputs ++ [(file, value)])%list
          else collectOutputs rest outputs
      else collectOutputs rest outputs
  end.

Definition downloadDeploymentOutputs : M W Outputs :=
  x <- collectOutputs outputFiles [] ;;
  match x with
  | Normal outputs => ret outputs
  | Throw _ => ret []
  end.

End WithWorld.
End MCPServer.

(** ** generator.ts: generation and structural validation *)

Module IaCGenerator.

(** [GenerationRequest] *)
Record GenerationRequest : Type := mkGenerationRequest {
  prompt : string;
  context : option string
}.

Definition requiredFiles : list string := ["lib/tap_stack.go"; "bin/tap.go"; "cdk.json"].

(** [!files[file]]: the entry is absent or the empty string. *)
Definition missing (files : Files) (file : string) : bool :=
  match lookupFile files file with
  | Some content => negb (Js.truthy content)
  | None => true
  end.

Section WithWorld.
Context {W : Type} (wd : World W).

(** [generateCDKTFGoCode]: every failure of the service is caught inside
    and returned as a result. *)
Definition generateCDKTFGoCode (request : GenerationRequest) : M W GenerationResult :=
  emit (EvGenerate (prompt request) (context request)) ;;
  call (generationService wd (prompt request) (context request)).

(** [writeGeneratedFiles(files)] under the output path. *)
Fixpoint writeGeneratedFiles (outputPath : string) (files : Files) : M W (Completion unit) :=
  match files with
  | [] => ret (Normal tt)
  | (filePath, content) :: rest =>
      let fullPath := pathJoin wd outputPath filePath in
      r <- call (fsWriteFile wd fullPath content) ;;
      match r with
      | None => emit (EvWrite filePath) ;; writeGeneratedFiles outputPath rest
      | Some e => ret (Throw e)
      end
  end.

(** The three passes of [validateGeneratedCode], each pushing its
    errors. *)
Definition requiredFileErrors (files : Files) : list string :=
  flat_map (fun file => if missing files file
                        then ["Missing required file: " ++ file] else [])
           requiredFiles.

Definition goSyntaxErrors (files : Files) : list string :=
  flat_map (fun entry =>
              if Js.endsWith (fst entry) ".go" && negb (Js.includes (snd entry) "package ")
              then [fst entry ++ ": Missing package declaration"] else [])
           files.

Definition cdkJsonErrors (files : Files) : list string :=
  if missing files "cdk.json" then []
  else match lookupFile files "cdk.json" with
       | Some content => if jsonParses wd content then []
                         else ["cdk.json: Invalid JSON format"]
       | None => []
       end.

Definition validationErrors (files : Files) : list string :=
  (requiredFileErrors files ++ goSyntaxErrors files ++ cdkJsonErrors files)%list.

(** [validateGeneratedCode(files)]: [{ valid, errors }] *)
Definition validateGeneratedCode (files : Files) : bool * list string :=
  let errors := validationErrors files in
  (match errors with [] => true | _ => false end, errors).

End WithWorld.
End IaCGenerator.

(** ** agent.ts: the outer cycle loop *)

Module IaCAgent.

Import IaCGenerator.

Inductive ExecutionMode : Type := LocalMode | RemoteMode.

(** [AgentConfig]: the generator's output path, the cycle budget, the
    mode and the optional server configuration. *)
Record AgentConfig : Type := mkAgentConfig {
  outputPath : string;
  mcpServerConfig : option MCPServer.MCPServerConfig;
  maxCycles : nat;
  executionMode : ExecutionMode
}.

(** [this.mcpServer]: the constructor creates it only outside local mode
    and only when a server configuration is given. *)
Definition mcpServer (config : AgentConfig) : option MCPServer.MCPServerConfig :=
  match executionMode config with
  | LocalMode => None
  | RemoteMode => mcpServerConfig config
  end.

(** [this.config.executionMode === 'remote' && this.mcpServer] *)
Definition remoteServer (config : AgentConfig) : option MCPServer.MCPServerConfig :=
  match executionMode config with
  | RemoteMode => mcpServer config
  | LocalMode => None
  end.

(** [buildResult] is typed [any]: the local or the remote pipeline's
    value ([undefined] is [None] where it is used). *)
Inductive BuildResult : Type :=
| LocalBuild (r : Executor.BuildCycleResult)
| RemoteBuild (r : MCPServer.RemoteBuildResult).

(** One entry of [buildResult.results], typed [any]. *)
Inductive PhaseEntry : Type :=
| LocalEntry (r : ExecutionResult)
| RemoteEntry (r : RemoteResult).

(** [buildResult.success] *)
Definition buildSucceeded (b : BuildResult) : bool :=
  match b with
  | LocalBuild r => Executor.cycle_success r
  | RemoteBuild r => MCPServer.remote_success r
  end.

(** [buildResult.results.<phase>] *)
Definition phaseEntry (b : BuildResult) (p : Phase) : option PhaseEntry :=
  let pick {A} (rs : PhaseResults A) : option A :=
    match p with
    | Build => build rs
    | Synth => synth rs
    | Lint => lint rs
    | Deploy => deploy rs
    end in
  match b with
  | LocalBuild r => option_map LocalEntry (pick (Executor.cycle_results r))
  | RemoteBuild r => option_map RemoteEntry (pick (MCPServer.remote_results r))
  end.

(** [!entry.success]: an entry of the remote pipeline has no [success]
    property. *)
Definition entryFailed (e : PhaseEntry) : bool :=
  match e with
  | LocalEntry r => negb (success r)
  | RemoteEntry _ => true
  end.

(** [${entry.error || entry.output}]: an entry of the remote pipeline has
    neither property. *)
Definition entryText (e : PhaseEntry) : string :=
  match e with
  | LocalEntry r => Js.optOrElse (error r) (output r)
  | RemoteEntry _ => "undefined"
  end.

(** [buildResult?.finalError || buildResult?.error || 'Unknown error'] *)
Definition buildErrorText (b : option BuildResult) : string :=
  match b with
  | Some (LocalBuild r) => Js.optOrElse (Executor.finalError r) "Unknown error"
  | Some (RemoteBuild r) => Js.optOrElse (MCPServer.remote_error r) "Unknown error"
  | None => "Unknown error"
  end.

(** [CycleResult] *)
Record CycleResult : Type := mkCycleResult {
  cycle : nat;
  cr_success : bool;
  generationResult : option GenerationResult;
  buildResult : option BuildResult;
  deploymentOutputs : option Outputs;
  cr_error : option string
}.

Definition withError (c : CycleResult) (e : string) : CycleResult :=
  mkCycleResult (cycle c) (cr_success c) (generationResult c) (buildResult c)
    (deploymentOutputs c) (Some e).
Definition withGeneration (c : CycleResult) (g : GenerationResult) : CycleResult :=
  mkCycleResult (cycle c) (cr_success c) (Some g) (buildResult c)
    (deploymentOutputs c) (cr_error c).
Definition withBuild (c : CycleResult) (b : option BuildResult) : CycleResult :=
  mkCycleResult (cycle c) (cr_success c) (generationResult c) b
    (deploymentOutputs c) (cr_error c).
Definition withOutputs (c : CycleResult) (o : Outputs) : CycleResult :=
  mkCycleResult (cycle c) (cr_success c) (generationResult c) (buildResult c)
    (Some o) (cr_error c).
Definition withSuccess (c : CycleResult) : CycleResult :=
  mkCycleResult (cycle c) true (generationResult c) (buildResult c)
    (deploymentOutputs c) (cr_error c).

(** One line of [fixContext]. *)
Definition fixLine (label : string) (b : option BuildResult) (p : Phase) : string :=
  match b with
  | Some br =>
      match phaseEntry br p with
      | Some e => if entryFailed e
                  then label ++ " error: " ++ entryText e ++ Js.nl
                  else ""
      | None => ""
      end
  | None => ""
  end.

Definition fixContext (b : option BuildResult) : string :=
  fixLine "Build" b Build ++ fixLine "Synth" b Synth
    ++ fixLine "Lint" b Lint ++ fixLine "Deploy" b Deploy.

Definition generateFixPrompt (originalPrompt : string) (b : option BuildResult) : string :=
  originalPrompt ++ Js.nl ++ Js.nl
    ++ "IMPORTANT: The previous attempt failed with the following errors:" ++ Js.nl
    ++ fixContext b ++ Js.nl ++ Js.nl
    ++ "Please fix these issues and generate corrected code that will build, synth, lint, and deploy successfully.".

Definition generateErrorRecoveryPrompt (originalPrompt : string) (e : Js.Thrown) : string :=
  originalPrompt ++ Js.nl ++ Js.nl
    ++ "CRITICAL: The previous attempt failed with an unexpected error: "
    ++ Js.showThrown e ++ Js.nl ++ Js.nl
    ++ "Please generate robust code with proper error handling and validation.".

(** [key.includes('output') || key.includes('stack') || key.includes('cfn')] *)
Definition successIndicator (key : string) : bool :=
  Js.includes key "output" || Js.includes key "stack" || Js.includes key "cfn".

(** [checkDeploymentExpectations(originalPrompt, deploymentOutputs)] *)
Definition checkDeploymentExpectations (originalPrompt : string)
    (deploymentOutputs : Outputs) : bool :=
  match deploymentOutputs with
  | [] => false
  | _ => existsb successIndicator (map fst deploymentOutputs)
  end.

(** [`${generationResult.error}`] *)
Definition showOptional (s : option string) : string :=
  match s with
  | Some t => t
  | None => "undefined"
  end.

(** The context sent from the second cycle on. *)
Definition retryContext (cycle : nat) : string :=
  "This is cycle " ++ Js.showNat cycle
    ++ ". Previous attempts may have failed. Please address any issues and ensure the code works correctly.".

(** How the [try] block of one iteration ends. *)
Inductive TryExit : Type :=
| Continues (results : list CycleResult) (currentPrompt : string)
| Breaks (results : list CycleResult)
| Throws (e : Js.Thrown) (cycleResult : CycleResult).

(** How one iteration of the [for] loop ends. *)
Inductive CycleExit : Type :=
| NextCycle (results : list CycleResult) (currentPrompt : string)
| Break (results : list CycleResult).

Section WithWorld.
Context {W : Type} (wd : World W) (config : AgentConfig).

Definition generateImprovementPrompt (originalPrompt : string) (outputs : Outputs) : string :=
  originalPrompt ++ Js.nl ++ Js.nl
    ++ "The previous deployment was successful but may not fully meet all requirements. "
    ++ Js.nl
    ++ "Current deployment outputs: " ++ jsonStringify wd outputs ++ Js.nl ++ Js.nl
    ++ "Please review and improve the infrastructure to better meet the requirements.".

(** Writing the files locally or uploading them. *)
Definition deliverFiles (files : Files) : M W (Completion unit) :=
  match executionMode config with
  | LocalMode => writeGeneratedFiles wd (outputPath config) files
  | RemoteMode =>
      match mcpServer config with
      | Some server => MCPServer.uploadGeneratedCode wd server files
      | None => ret (Normal tt)
      end
  end.

(** Steps 2-5: the pipeline of the configured backend. *)
Definition runBuildCycle : M W (option BuildResult) :=
  match executionMode config with
  | LocalMode => r <- Executor.executeBuildCycle wd 3 ;; ret (Some (LocalBuild r))
  | RemoteMode =>
      match mcpServer config with
      | Some server =>
          r <- MCPServer.executeRemoteBuildCycle wd server ;; ret (Some (RemoteBuild r))
      | None => ret None
      end
  end.

(** The [try] block of the iteration [cycle]. *)
Definition tryBlock (request : GenerationRequest) (cycle : nat)
    (currentPrompt : string) (results : list CycleResult) : M W TryExit :=
  let cycleResult := mkCycleResult cycle false None None None None in
  generationResult <- generateCDKTFGoCode wd
    (mkGenerationRequest currentPrompt
       (if (1 <? cycle)%nat then Some (retryContext cycle) else context request)) ;;
  if negb (gen_success generationResult) then
    let cycleResult :=
      withError cycleResult
        ("Code generation failed: " ++ showOptional (gen_error generationResult)) in
    ret (Continues (results ++ [cycleResult])%list currentPrompt)
  else
  let cycleResult := withGeneration cycleResult generationResult in
  let validation := validateGeneratedCode wd (gen_files generationResult) in
  if negb (fst validation) then
    let cycleResult :=
      withError cycleResult
        ("Generated code validation failed: " ++ Js.join ", " (snd validation)) in
    ret (Continues (results ++ [cycleResult])%list currentPrompt)
  else
  delivered <- deliverFiles (gen_files generationResult) ;;
  match delivered with
  | Throw e => ret (Throws e cycleResult)
  | Normal _ =>
  buildResult <- runBuildCycle ;;
  let cycleResult := withBuild cycleResult buildResult in
  if match buildResult with
     | Some b => negb (buildSucceeded b)
     | None => true
     end
  then
    if (cycle <? maxCycles config)%nat then
      let currentPrompt := generateFixPrompt currentPrompt buildResult in
      ret (Continues (results ++ [cycleResult])%list currentPrompt)
    else
      let cycleResult :=
        withError cycleResult ("Build cycle failed: " ++ buildErrorText buildResult) in
      ret (Continues (results ++ [cycleResult])%list currentPrompt)
  else
  deploymentOutputs <-
    match remoteServer config with
    | Some server => MCPServer.downloadDeploymentOutputs wd server
    | None => ret []
    end ;;
  let cycleResult := withOutputs cycleResult deploymentOutputs in
  let cycleResult := withSuccess cycleResult in
  let results := (results ++ [cycleResult])%list in
  let expectationsMet := checkDeploymentExpectations (prompt request) deploymentOutputs in
  if expectationsMet then ret (Breaks results)
  else if (cycle <? maxCycles config)%nat
  then ret (Continues results (generateImprovementPrompt currentPrompt deploymentOutputs))
  else ret (Continues results currentPrompt)
  end.

(** One iteration: the [try] block and the [catch] clause. *)
Definition cycleBody (request : GenerationRequest) (cycle : nat)
    (currentPrompt : string) (results : list CycleResult) : M W CycleExit :=
  x <- tryBlock request cycle currentPrompt results ;;
  match x with
  | Continues results' prompt' => ret (NextCycle results' prompt')
  | Breaks results' => ret (Break results')
  | Throws e cycleResult =>
      let cycleResult := withError cycleResult (Js.messageOf e) in
      let results := (results ++ [cycleResult])%list in
      if (cycle <? maxCycles config)%nat
      then ret (NextCycle results (generateErrorRecoveryPrompt currentPrompt e))
      else ret (NextCycle results currentPrompt)
  end.

(** [for (let cycle = 1; cycle <= maxCycles; cycle++)], entered with the
    current [cycle]; [fuel] bounds the number of iterations. *)
Fixpoint agentLoop (fuel : nat) (request : GenerationRequest) (cycle : nat)
    (currentPrompt : string) (results : list CycleResult) : M W (list CycleResult) :=
  match fuel with
  | O => ret results
  | S fuel' =>
      if (cycle <=? maxCycles config)%nat then
        emit (EvCycle cycle) ;;
        x <- cycleBody request cycle currentPrompt results ;;
        match x with
        | Break results' => ret results'
        | NextCycle results' prompt' => agentLoop fuel' request (S cycle) prompt' results'
        end
      else ret results
  end.

(** [executeAgentCycle(request)]: the loop runs at most [maxCycles]
    times. *)
Definition executeAgentCycle (request : GenerationRequest)
  : M W (Completion (list CycleResult)) :=
  (match remoteServer config with
   | Some server =>
       MCPServer.connect wd ;;!
       MCPServer.setupRemoteEnvironment wd server
   | None => ret (Normal tt)
   end) ;;!
  results <- agentLoop (maxCycles config) request 1 (prompt request) [] ;;
  (match remoteServer config with
   | Some server => MCPServer.disconnect
   | None => ret tt
   end) ;;
  ret (Normal results).

End WithWorld.
End IaCAgent.

(** ** Observations on traces *)

Definition Phase_eqb (p q : Phase) : bool :=
  match p, q with
  | Build, Build | Synth, Synth | Lint, Lint | Deploy, Deploy => true
  | _, _ => false
  end.

(** The phase an [npm run <script>] belongs to. *)
Definition phaseOfScript (script : string) : option Phase :=
  if String.eqb script "build" then Some Build
  else if String.eqb script "synth" then Some Synth
  else if String.eqb script "lint" then Some Lint
  else if String.eqb script "deploy" then Some Deploy
  else None.

(** The phase a remote command line belongs to. *)
Definition phaseOfCommand (command : string) : option Phase :=
  if String.eqb command "npm run build" then Some Build
  else if String.eqb command "npm run synth" then Some Synth
  else if String.eqb command "npm run lint" then Some Lint
  else if String.eqb command "npm run deploy" then Some Deploy
  else None.

(** A remote command succeeded: it returned with exit code 0. *)
Definition exitedZero (answer : Completion SshResponse) : bool :=
  match answer with
  | Normal r => match ssh_code r with Some 0%Z => true | _ => false end
  | Throw _ => false
  end.

(** An event that executes a phase command, with the phase and whether
    the command succeeded; remedies and all other events are none. *)
Definition phaseRun (e : Event) : option (Phase * bool) :=
  match e with
  | EvSpawn command [run; script] r =>
      if String.eqb command "npm" && String.eqb run "run"
      then option_map (fun p => (p, success r)) (phaseOfScript script)
      else None
  | EvRemote command answer =>
      option_map (fun p => (p, exitedZero answer)) (phaseOfCommand command)
  | _ => None
  end.

Fixpoint phaseRuns (evs : list Event) : list (Phase * bool) :=
  match evs with
  | [] => []
  | e :: rest =>
      match phaseRun e with
      | Some x => x :: phaseRuns rest
      | None => phaseRuns rest
      end
  end.

(** The events before the first [EvPass] and the events of each pass. *)
Fixpoint splitPasses (evs : list Event) : list Event * list (list Event) :=
  match evs with
  | [] => ([], [])
  | EvPass _ :: rest => let '(h, ps) := splitPasses rest in ([], h :: ps)
  | e :: rest => let '(h, ps) := splitPasses rest in (e :: h, ps)
  end.

Definition passesOf (evs : list Event) : list (list Event) := snd (splitPasses evs).

(** The outcome of the last run of phase [p]. *)
Fixpoint lastRun (p : Phase) (runs : list (Phase * bool)) : option bool :=
  match runs with
  | [] => None
  | (q, ok) :: rest =>
      match lastRun p rest with
      | Some b => Some b
      | None => if Phase_eqb p q then Some ok else None
      end
  end.

Definition predPhase (q : Phase) : option Phase :=
  match q with
  | Build => None
  | Synth => Some Build
  | Lint => Some Synth
  | Deploy => Some Lint
  end.

Definition phaseIndex (p : Phase) : nat :=
  match p with Build => 0 | Synth => 1 | Lint => 2 | Deploy => 3 end.

(** The ordering invariant of one pass: a phase runs only when the latest
    run of the phase before it succeeded, and after a phase whose last run
    failed no later phase runs. *)
Definition staged (runs : list (Phase * bool)) : Prop :=
  (forall pre q ok post p,
      runs = (pre ++ (q, ok) :: post)%list ->
      predPhase q = Some p -> lastRun p pre = Some true)
  /\ (forall p q,
      phaseIndex p < phaseIndex q ->
      lastRun p runs = Some false -> ~ In q (map fst runs)).

(** The prompts sent to the generation service, in order. *)
Fixpoint promptsOf (evs : list Event) : list string :=
  match evs with
  | [] => []
  | EvGenerate p _ :: rest => p :: promptsOf rest
  | _ :: rest => promptsOf rest
  end.

(** The command lines sent over the session, in order. *)
Fixpoint remoteCommands (evs : list Event) : list string :=
  match evs with
  | [] => []
  | EvRemote c _ :: rest => c :: remoteCommands rest
  | _ :: rest => remoteCommands rest
  end.

(** The local commands spawned, in order. *)
Fixpoint spawned (evs : list Event) : list (string * list string) :=
  match evs with
  | [] => []
  | EvSpawn c a _ :: rest => (c, a) :: spawned rest
  | _ :: rest => spawned rest
  end.

(** An event of the execution backends: no generation, no cycle start. *)
Definition backendEvent (e : Event) : bool :=
  match e with
  | EvGenerate _ _ | EvCycle _ => false
  | _ => true
  end.

(** A record of a cycle after which the loop stops: the cycle succeeded
    and its outputs met the expectations. *)
Definition terminating (request : IaCGenerator.GenerationRequest)
    (r : IaCAgent.CycleResult) : bool :=
  IaCAgent.cr_success r &&
  match IaCAgent.deploymentOutputs r with
  | Some outputs =>
      IaCAgent.checkDeploymentExpectations (IaCGenerator.prompt request) outputs
  | None => false
  end.

(** ** A scripted world *)

(** A world that answers from a tape: the commands, local or remote, take
    their outcomes from [replies] in order (all succeed once the tape is
    used up; [Killed] is an end by a signal, without an exit code), the
    generation service answers from [generations]. *)
Module Script.

Inductive Reply : Type :=
| Exit (out err : string) (status : Z)
| Killed (out err : string)
| Fault (message : string).

Record Tape : Type := mkTape {
  replies : list Reply;
  generations : list GenerationResult
}.

Definition popReply (t : Tape) : Reply * Tape :=
  match replies t with
  | [] => (Exit "" "" 0, t)
  | r :: rest => (r, mkTape rest (generations t))
  end.

Definition popGeneration (t : Tape) : GenerationResult * Tape :=
  match generations t with
  | [] => (mkGenerationResult false [] (Some "service unavailable"), t)
  | g :: rest => (g, mkTape (replies t) rest)
  end.

Definition scripted : World Tape :=
  mkWorld Tape
    (fun _ _ t =>
       let '(r, t') := popReply t in
       (match r with
        | Exit o e c => Closed o e (Some c)
        | Killed o e => Closed o e None
        | Fault m => SpawnError "" m
        end, t'))
    (fun t => (None, t))
    (fun _ t =>
       let '(r, t') := popReply t in
       (match r with
        | Exit o e c => Normal (mkSshResponse o e (Some c))
        | Killed o e => Normal (mkSshResponse o e None)
        | Fault m => Throw (Js.ErrorObject m)
        end, t'))
    (fun _ _ t => (None, t))
    (fun _ _ t => (None, t))
    (fun _ t => (None, t))
    (fun _ _ t => popGeneration t)
    (fun _ _ t => (None, t))
    (fun s => String.prefix "{" s)
    (fun _ => "{}")
    (fun a b => a ++ "/" ++ b)
    (fun a => a)
    (fun a => a).

Definition start (rs : list Reply) (gs : list GenerationResult) : State Tape :=
  mkState (mkTape rs gs) false.

(** A minimal file set that passes validation. *)
Definition validFiles : Files :=
  [("lib/tap_stack.go", "package lib");
   ("bin/tap.go", "package main");
   ("cdk.json", "{}")].

Definition generated (files : Files) : GenerationResult :=
  mkGenerationResult true files None.

Definition server : MCPServer.MCPServerConfig :=
  MCPServer.mkMCPServerConfig "/home/ec2-user/iac-workspace"
    "https://github.com/botcheddevil/iac-gen-go.git" None.

Definition localConfig (maxCycles : nat) : IaCAgent.AgentConfig :=
  IaCAgent.mkAgentConfig "generated" None maxCycles IaCAgent.LocalMode.

Definition remoteConfig (maxCycles : nat) : IaCAgent.AgentConfig :=
  IaCAgent.mkAgentConfig "generated" (Some server) maxCycles IaCAgent.RemoteMode.

Definition request : IaCGenerator.GenerationRequest :=
  IaCGenerator.mkGenerationRequest "create a storage bucket" None.

End Script.

(** ** Specifications
    The predicates and relations the theorems are stated with. *)

(** Every event a computation produces satisfies [P], from any state. *)
Definition emitsOnly {W A} (P : Event -> Prop) (m : M W A) : Prop :=
  forall s, Forall P (eventsOf (m s)).

(** The events of a spawned command. *)
Definition isSpawn (e : Event) : Prop :=
  match e with EvSpawn _ _ _ => True | _ => False end.

Definition isRemote (e : Event) : Prop :=
  match e with EvRemote _ _ => True | _ => False end.

Definition isBackend (e : Event) : Prop := backendEvent e = true.

(** A remedy spawns commands, none of which is a phase command. *)
Definition remedyEvent (e : Event) : Prop := isSpawn e /\ phaseRun e = None.

(** What [executeRemoteCommand] makes of the answer of the server. *)
Definition reported (answer : Completion SshResponse) : Completion RemoteResult :=
  match answer with
  | Normal r =>
      Normal (mkRemoteResult (ssh_stdout r) (ssh_stderr r)
                (match ssh_code r with Some z => z | None => 0%Z end))
  | Throw e => Throw e
  end.

(** What the server answers to a command sent from state [s]. *)
Definition serverAnswer {W} (wd : World W) (config : MCPServer.MCPServerConfig)
    (command : string) (cwd : option string) (s : State W) : Completion SshResponse :=
  fst (sshExecCommand wd
         ("cd " ++ Js.optOrElse cwd (MCPServer.workingDirectory config) ++ " && " ++ command)
         (world s)).







(** The phase runs of one step: the command once, or a failed run and
    the re-run after a successful remedy; [ok] is the outcome the step
    records. *)
Definition block (p : Phase) (ok : bool) (runs : list (Phase * bool)) : Prop :=
  runs = [(p, ok)] \/ runs = [(p, false); (p, ok)].

(** How a step that could not be cleared leaves the loop body. *)
Definition failExit (attempt maxAttempts : nat)
    (results : PhaseResults ExecutionResult) (message : string) : Executor.PassExit :=
  if (attempt =? maxAttempts)%nat
  then Executor.Return (Executor.mkBuildCycleResult false results (Some message))
  else Executor.Continue results.

(** The four ways through one pass, with the exit and the phase runs. *)
Inductive PassRun (attempt maxAttempts : nat) (results : PhaseResults ExecutionResult)
  : Executor.PassExit -> list (Phase * bool) -> Prop :=
| BuildNotCleared (b : ExecutionResult) (rB : list (Phase * bool)) :
    block Build (success b) rB -> success b = false ->
    PassRun attempt maxAttempts results
      (failExit attempt maxAttempts (setBuild results b)
         "Build phase failed after all attempts") rB
| SynthNotCleared (b s : ExecutionResult) (rB rS : list (Phase * bool)) :
    block Build (success b) rB -> success b = true ->
    block Synth (success s) rS -> success s = false ->
    PassRun attempt maxAttempts results
      (failExit attempt maxAttempts (setSynth (setBuild results b) s)
         "Synth phase failed after all attempts") (rB ++ rS)
| LintNotCleared (b s l : ExecutionResult) (rB rS rL : list (Phase * bool)) :
    block Build (success b) rB -> success b = true ->
    block Synth (success s) rS -> success s = true ->
    block Lint (success l) rL -> success l = false ->
    PassRun attempt maxAttempts results
      (failExit attempt maxAttempts (setLint (setSynth (setBuild results b) s) l)
         "Lint phase failed after all attempts") (rB ++ rS ++ rL)
| DeployReached (b s l d : ExecutionResult) (rB rS rL rD : list (Phase * bool)) :
    block Build (success b) rB -> success b = true ->
    block Synth (success s) rS -> success s = true ->
    block Lint (success l) rL -> success l = true ->
    block Deploy (success d) rD ->
    PassRun attempt maxAttempts results
      (Executor.Return
         (Executor.mkBuildCycleResult true
            (setDeploy (setLint (setSynth (setBuild results b) s) l) d) None))
      (rB ++ rS ++ rL ++ rD).

(** The first half of [staged], run from a prefix. *)
Fixpoint stagedFrom (pre runs : list (Phase * bool)) : bool :=
  match runs with
  | [] => true
  | (q, ok) :: post =>
      match predPhase q with
      | Some p => match lastRun p pre with Some true => true | _ => false end
      | None => true
      end && stagedFrom (pre ++ [(q, ok)]) post
  end.

Definition laterPairs : list (Phase * Phase) :=
  [(Build, Synth); (Build, Lint); (Build, Deploy);
   (Synth, Lint); (Synth, Deploy); (Lint, Deploy)].

(** The second half of [staged]. *)
Definition haltsAfterFailure (runs : list (Phase * bool)) : bool :=
  forallb (fun pq =>
             match lastRun (fst pq) runs with
             | Some false => negb (existsb (Phase_eqb (snd pq)) (map fst runs))
             | _ => true
             end) laterPairs.

Definition stagedb (runs : list (Phase * bool)) : bool :=
  stagedFrom [] runs && haltsAfterFailure runs.





(** Outputs that were not collected or are empty. *)
Definition noOutputs (r : IaCAgent.CycleResult) : Prop :=
  IaCAgent.deploymentOutputs r = None \/ IaCAgent.deploymentOutputs r = Some [].

(** The iterations of the outer loop from [cycle] on, with the records
    they push and the prompts they send: the loop ends when the budget is
    used up or at a terminating record. *)
Inductive LoopRun (config : IaCAgent.AgentConfig) (request : IaCGenerator.GenerationRequest)
  : nat -> string -> list IaCAgent.CycleResult -> list string -> Prop :=
| LoopExhausted (cycle : nat) (currentPrompt : string) :
    IaCAgent.maxCycles config < cycle ->
    LoopRun config request cycle currentPrompt [] []
| LoopBreak (cycle : nat) (currentPrompt : string) (r : IaCAgent.CycleResult) :
    cycle <= IaCAgent.maxCycles config ->
    IaCAgent.cycle r = cycle ->
    terminating request r = true ->
    (IaCAgent.executionMode config = IaCAgent.LocalMode ->
     IaCAgent.deploymentOutputs r = None \/ IaCAgent.deploymentOutputs r = Some []) ->
    (forall b, IaCAgent.buildResult r = Some b -> IaCAgent.buildSucceeded b = true) ->
    LoopRun config request cycle currentPrompt [r] [currentPrompt]
| LoopNext (cycle : nat) (currentPrompt nextPrompt : string) (r : IaCAgent.CycleResult)
    (records : list IaCAgent.CycleResult) (prompts : list string) :
    cycle <= IaCAgent.maxCycles config ->
    IaCAgent.cycle r = cycle ->
    terminating request r = false ->
    (IaCAgent.executionMode config = IaCAgent.LocalMode ->
     IaCAgent.deploymentOutputs r = None \/ IaCAgent.deploymentOutputs r = Some []) ->
    (forall b, IaCAgent.buildResult r = Some b ->
               IaCAgent.buildSucceeded b = false ->
               cycle < IaCAgent.maxCycles config ->
               nextPrompt = IaCAgent.generateFixPrompt currentPrompt (Some b)) ->
    LoopRun config request (S cycle) nextPrompt records prompts ->
    LoopRun config request cycle currentPrompt (r :: records) (currentPrompt :: prompts).

(** The session setup before the first cycle. *)
Definition openSession {W : Type} (wd : World W) (config : IaCAgent.AgentConfig)
  : M W (Completion unit) :=
  match IaCAgent.remoteServer config with
  | Some server =>
      bindE (MCPServer.connect wd) (fun _ => MCPServer.setupRemoteEnvironment wd server)
  | None => ret (Normal tt)
  end.

(** The cleanup after the loop. *)
Definition closeSession {W : Type} (config : IaCAgent.AgentConfig) : M W unit :=
  match IaCAgent.remoteServer config with
  | Some server => MCPServer.disconnect
  | None => ret tt
  end.

(** The records of a completed run. *)
Definition recordsOf (c : Completion (list IaCAgent.CycleResult)) : list IaCAgent.CycleResult :=
  match c with
  | Normal records => records
  | Throw _ => []
  end.

(** The three ways a file set fails the validation. *)
Definition structurallyInvalid {W : Type} (wd : World W) (files : Files) : Prop :=
  (exists file, In file IaCGenerator.requiredFiles /\ lookupFile files file = None)
  \/ (exists path content,
        In (path, content) files /\ Js.endsWith path ".go" = true
        /\ Js.includes content "package " = false)
  \/ (exists content,
        lookupFile files "cdk.json" = Some content /\ jsonParses wd content = false).

(** A local run of three cycles: Build fails in all three passes of
    cycle 1, printing its diagnostic on standard output only, and in all
    three passes of cycle 2, printing on standard error; cycle 3 succeeds. *)
Definition twoFailuresStart : State Script.Tape :=
  Script.start
    [Script.Exit "unresolved module reference" "" 1;
     Script.Exit "unresolved module reference" "" 1;
     Script.Exit "unresolved module reference" "" 1;
     Script.Exit "" "type mismatch in stack.go" 1;
     Script.Exit "" "type mismatch in stack.go" 1;
     Script.Exit "" "type mismatch in stack.go" 1]
    [Script.generated Script.validFiles; Script.generated Script.validFiles;
     Script.generated Script.validFiles].

Definition twoFailuresRun :=
  IaCAgent.executeAgentCycle Script.scripted (Script.localConfig 3) Script.request
    twoFailuresStart.

(** ** Further specifications *)

(** [results.<phase>] *)
Definition resultOf {A} (p : Phase) (rs : PhaseResults A) : option A :=
  match p with
  | Build => build rs
  | Synth => synth rs
  | Lint => lint rs
  | Deploy => deploy rs
  end.

(** The [npm run] script of a phase. *)
Definition scriptOf (p : Phase) : string :=
  match p with
  | Build => "build"
  | Synth => "synth"
  | Lint => "lint"
  | Deploy => "deploy"
  end.

(** The classifier of a phase. *)
Definition classifier {W} (wd : World W) (p : Phase) : ExecutionResult -> M W ExecutionResult :=
  match p with
  | Build => Executor.attemptBuildFix wd
  | Synth => Executor.attemptSynthFix wd
  | Lint => Executor.attemptLintFix wd
  | Deploy => Executor.attemptDeployFix wd
  end.

(** Whether the diagnostic text of a failed phase matches a pattern for
    which the phase's classifier has a remedy. *)
Definition remedyOffered (p : Phase) (text : string) : bool :=
  match p with
  | Build =>
      Js.includes text "Cannot find module" || Js.includes text "Module not found"
      || Js.includes text "go.mod" || Js.includes text "go.sum"
  | Synth => Js.includes text "cdktf get" || Js.includes text ".gen"
  | Lint => Js.includes text "gofmt" || Js.includes text "format"
  | Deploy =>
      negb (Js.includes text "credentials" || Js.includes text "access denied")
      && (Js.includes text "already exists" || Js.includes text "conflict")
  end.

(** Every command line the local pipeline can spawn. *)
Definition pipelineCommands : list (string * list string) :=
  [("npm", ["run"; "build"]); ("npm", ["run"; "synth"]);
   ("npm", ["run"; "lint"]); ("npm", ["run"; "deploy"]);
   ("npm", ["install"]); ("go", ["mod"; "tidy"]); ("go", ["mod"; "download"]);
   ("npx", ["cdktf"; "get"]); ("gofmt", ["-w"; "."]); ("npm", ["run"; "destroy"])].

Definition pipelineEvent (e : Event) : Prop :=
  match e with
  | EvSpawn command args _ => In (command, args) pipelineCommands
  | EvPass _ => True
  | _ => False
  end.

(** A computation spawns at most [n] commands. *)
Definition spawnsAtMost {W A} (n : nat) (m : M W A) : Prop :=
  forall s, length (spawned (eventsOf (m s))) <= n.

(** A failed Deploy whose diagnostic text is classified as a conflict. *)
Definition conflictFailure (r : ExecutionResult) : Prop :=
  success r = false /\ remedyOffered Deploy (Executor.diagnosticText r) = true.

Definition isTeardown (e : Event) : Prop :=
  exists r, e = EvSpawn "npm" ["run"; "destroy"] r.

(** Every teardown of a trace directly follows a Deploy run that failed
    on a conflict. *)
Definition teardownGuarded (evs : list Event) : Prop :=
  forall pre rd post,
    evs = (pre ++ EvSpawn "npm" ["run"; "destroy"] rd :: post)%list ->
    exists pre' r,
      pre = (pre' ++ [EvSpawn "npm" ["run"; "deploy"] r])%list /\ conflictFailure r.

Definition emitsGuarded {W A} (m : M W A) : Prop :=
  forall s, teardownGuarded (eventsOf (m s)).

(** The [finalError] of a pipeline that could not clear phase [p]. *)
Definition failureMessage (p : Phase) : string :=
  match p with
  | Build => "Build phase failed after all attempts"
  | Synth => "Synth phase failed after all attempts"
  | Lint => "Lint phase failed after all attempts"
  | Deploy => "Deploy phase failed after all attempts"
  end.

Definition notTeardown (e : Event) : Prop := ~ isTeardown e.

(** The elements of [xs] a mask keeps, in order. *)
Fixpoint select {A} (mask : list bool) (xs : list A) : list A :=
  match mask, xs with
  | b :: mask', x :: xs' => ((if b then [x] else []) ++ select mask' xs')%list
  | _, _ => []
  end.

(** The paths written locally, in order. *)
Fixpoint writtenPaths (evs : list Event) : list string :=
  match evs with
  | [] => []
  | EvWrite path :: rest => path :: writtenPaths rest
  | _ :: rest => writtenPaths rest
  end.

(** The paths uploaded, in order. *)
Fixpoint uploadedPaths (evs : list Event) : list string :=
  match evs with
  | [] => []
  | EvUpload path :: rest => path :: uploadedPaths rest
  | _ :: rest => uploadedPaths rest
  end.

(** The removal of a temporary file threw [e]. *)
Definition cleanupFailed (e : Js.Thrown) (evs : list Event) : Prop :=
  exists path, In (EvRemove path (Some e)) evs.

(** The scripted world with a file system that refuses every removal. *)
Definition busyFiles : World Script.Tape :=
  mkWorld Script.Tape
    (spawnProcess Script.scripted) (sshConnect Script.scripted)
    (sshExecCommand Script.scripted) (sshPutFile Script.scripted)
    (fsWriteTemp Script.scripted)
    (fun _ t => (Some (Js.ErrorObject "EBUSY: resource busy or locked"), t))
    (generationService Script.scripted) (fsWriteFile Script.scripted)
    (jsonParses Script.scripted) (jsonStringify Script.scripted)
    (pathJoin Script.scripted) (pathDirname Script.scripted)
    (pathBasename Script.scripted).

(** The records an iteration leaves. *)
Definition exitResults (x : IaCAgent.CycleExit) : list IaCAgent.CycleResult :=
  match x with
  | IaCAgent.NextCycle results _ => results
  | IaCAgent.Break results => results
  end.

(** What the fields of a record say about each other: a successful
    record has a build result that a pipeline run returned as a success,
    collected outputs (possibly empty), a generation result and no error;
    a failed record has no outputs, and it has no error text only when
    the pipeline failed with cycle budget left. *)
Definition recordSound {W} (wd : World W) (config : IaCAgent.AgentConfig)
    (r : IaCAgent.CycleResult) : Prop :=
  (IaCAgent.cr_success r = true ->
   IaCAgent.cr_error r = None
   /\ IaCAgent.generationResult r <> None
   /\ (exists outputs, IaCAgent.deploymentOutputs r = Some outputs)
   /\ exists b s,
        IaCAgent.buildResult r = Some b
        /\ IaCAgent.buildSucceeded b = true
        /\ valueOf (IaCAgent.runBuildCycle wd config s) = Some b)
  /\ (IaCAgent.cr_success r = false ->
      IaCAgent.deploymentOutputs r = None
      /\ (IaCAgent.cr_error r = None ->
          IaCAgent.cycle r < IaCAgent.maxCycles config
          /\ IaCAgent.generationResult r <> None
          /\ forall b, IaCAgent.buildResult r = Some b ->
                       IaCAgent.buildSucceeded b = false)).

(** The events of a local run: nothing of the SSH session. *)
Definition localOnly (e : Event) : Prop :=
  match e with
  | EvRemote _ _ | EvConnect _ | EvDisconnect | EvUpload _
  | EvTemp _ | EvRemove _ _ => False
  | _ => True
  end.

(** The events of a remote run: no local process, no file under the
    output path. *)
Definition remoteOnly (e : Event) : Prop :=
  match e with
  | EvSpawn _ _ _ | EvPass _ | EvWrite _ => False
  | _ => True
  end.

(** The events of an iteration that reaches neither backend. *)
Definition generationOnly (e : Event) : Prop :=
  match e with
  | EvGenerate _ _ | EvCycle _ => True
  | _ => False
  end.

(** The lines of [fixContext] for the entries of a remote pipeline. *)
Definition undefinedLines : list string :=
  ["Build error: undefined" ++ Js.nl; "Synth error: undefined" ++ Js.nl;
   "Lint error: undefined" ++ Js.nl; "Deploy error: undefined" ++ Js.nl].

(** A remote command that returned, with whatever exit code. *)
Definition completed (e : Event) : Prop :=
  match e with
  | EvRemote _ (Throw _) => False
  | _ => True
  end.

(** On an open session the computation fails only by a remote command
    that throws, which then is its last event, and it leaves the session
    open. *)
Definition failsOnlyByThrow {W A} (m : M W (Completion A)) : Prop :=
  forall s, connected s = true ->
    connected (stateOf (m s)) = true
    /\ match valueOf (m s) with
       | Normal _ => Forall completed (eventsOf (m s))
       | Throw e => exists pre command,
                      eventsOf (m s) = (pre ++ [EvRemote command (Throw e)])%list
                      /\ Forall completed pre
       end.

(** The contexts sent to the generation service, in order. *)
Fixpoint contextsOf (evs : list Event) : list (option string) :=
  match evs with
  | [] => []
  | EvGenerate _ c :: rest => c :: contextsOf rest
  | _ :: rest => contextsOf rest
  end.

(** The context of the generation request of a cycle. *)
Definition cycleContext (request : IaCGenerator.GenerationRequest) (cycle : nat)
  : option string :=
  if (1 <? cycle)%nat then Some (IaCAgent.retryContext cycle)
  else IaCGenerator.context request.

(** An event that neither opens nor closes the session. *)
Definition insideSession (e : Event) : Prop :=
  match e with
  | EvConnect _ | EvDisconnect => False
  | _ => True
  end.

(** The computation leaves the session flag as it found it. *)
Definition keepsSession {W A} (m : M W A) : Prop :=
  forall s, connected (stateOf (m s)) = connected s.

(** * Sanity checks of the embedding *)

Example includes_middle : Js.includes "Error: Cannot find module 'x'" "Cannot find module" = true.
Proof. reflexivity. Qed.

Example includes_absent : Js.includes "bucketName" "stack" = false.
Proof. reflexivity. Qed.

Example endsWith_go : Js.endsWith "bin/tap.go" ".go" = true.
Proof. reflexivity. Qed.

Example endsWith_short : Js.endsWith "go" ".go" = false.
Proof. reflexivity. Qed.

Example showCode_one : Js.showCode (Some 1%Z) = "1".
Proof. reflexivity. Qed.

Example valid_files_pass :
  IaCGenerator.validateGeneratedCode Script.scripted Script.validFiles = (true, []).
Proof. reflexivity. Qed.

(** Build fails on a missing module, [npm install] repairs it, the rest
    of the pass succeeds. *)
Example local_recovery_trace :
  spawned (eventsOf (Executor.executeBuildCycle Script.scripted 3
     (Script.start [Script.Exit "" "Cannot find module 'x'" 1] [])))
  = [("npm", ["run"; "build"]); ("npm", ["install"]); ("npm", ["run"; "build"]);
     ("npm", ["run"; "synth"]); ("npm", ["run"; "lint"]); ("npm", ["run"; "deploy"])].
Proof. reflexivity. Qed.

(** * Reasoning about computations *)

Section MonadFacts.
Context {W : Type}.

Lemma eventsOf_bind {A B} (m : M W A) (f : A -> M W B) (s : State W) :
  eventsOf (bind m f s)
  = (eventsOf (m s) ++ eventsOf (f (valueOf (m s)) (stateOf (m s))))%list.
Proof.
  unfold bind, eventsOf, valueOf, stateOf.
  destruct (m s) as [[a e1] s1]; simpl.
  destruct (f a s1) as [[b e2] s2]; reflexivity.
Qed.

Lemma valueOf_bind {A B} (m : M W A) (f : A -> M W B) (s : State W) :
  valueOf (bind m f s) = valueOf (f (valueOf (m s)) (stateOf (m s))).
Proof.
  unfold bind, valueOf, stateOf.
  destruct (m s) as [[a e1] s1]; simpl.
  destruct (f a s1) as [[b e2] s2]; reflexivity.
Qed.

Lemma stateOf_bind {A B} (m : M W A) (f : A -> M W B) (s : State W) :
  stateOf (bind m f s) = stateOf (f (valueOf (m s)) (stateOf (m s))).
Proof.
  unfold bind, valueOf, stateOf.
  destruct (m s) as [[a e1] s1]; simpl.
  destruct (f a s1) as [[b e2] s2]; reflexivity.
Qed.

Lemma eventsOf_emit (e : Event) (s : State W) : eventsOf (emit e s) = [e].
Proof. reflexivity. Qed.

Lemma stateOf_emit (e : Event) (s : State W) : stateOf (emit e s) = s.
Proof. reflexivity. Qed.

Lemma eventsOf_ret {A} (a : A) (s : State W) : eventsOf (ret a s) = [].
Proof. reflexivity. Qed.

Lemma valueOf_ret {A} (a : A) (s : State W) : valueOf (ret a s) = a.
Proof. reflexivity. Qed.

Lemma stateOf_ret {A} (a : A) (s : State W) : stateOf (ret a s) = s.
Proof. reflexivity. Qed.

Lemma emitsOnly_ret {A} (P : Event -> Prop) (a : A) : emitsOnly P (ret (W := W) a).
Proof. intro s; constructor. Qed.

Lemma emitsOnly_bind {A B} (P : Event -> Prop) (m : M W A) (f : A -> M W B) :
  emitsOnly P m -> (forall a, emitsOnly P (f a)) -> emitsOnly P (bind m f).
Proof.
  intros Hm Hf s. rewrite eventsOf_bind. apply Forall_app; split.
  - apply Hm.
  - apply Hf.
Qed.

Lemma emitsOnly_bindE {A B} (P : Event -> Prop)
    (m : M W (Completion A)) (f : A -> M W (Completion B)) :
  emitsOnly P m -> (forall a, emitsOnly P (f a)) -> emitsOnly P (bindE m f).
Proof.
  intros Hm Hf. unfold bindE. apply emitsOnly_bind; [assumption|].
  intros [a|e]; [apply Hf | apply emitsOnly_ret].
Qed.

Lemma emitsOnly_emit (P : Event -> Prop) (e : Event) :
  P e -> emitsOnly P (emit (W := W) e).
Proof. intros H s. repeat constructor. exact H. Qed.

Lemma emitsOnly_call {A} (P : Event -> Prop) (f : W -> A * W) : emitsOnly P (call f).
Proof. intro s. unfold call, eventsOf. destruct (f (world s)); constructor. Qed.

Lemma emitsOnly_getConnected (P : Event -> Prop) : emitsOnly P (getConnected (W := W)).
Proof. intro s; constructor. Qed.

Lemma emitsOnly_setConnected (P : Event -> Prop) (b : bool) :
  emitsOnly P (setConnected (W := W) b).
Proof. intro s; constructor. Qed.

Lemma emitsOnly_weaken {A} (P Q : Event -> Prop) (m : M W A) :
  (forall e, P e -> Q e) -> emitsOnly P m -> emitsOnly Q m.
Proof. intros H Hm s. eapply Forall_impl; [exact H | apply Hm]. Qed.

End MonadFacts.

Create HintDb emits.
#[export] Hint Resolve emitsOnly_ret emitsOnly_emit emitsOnly_call
  emitsOnly_getConnected emitsOnly_setConnected : emits.

(** Decompose a goal [emitsOnly P m] along the structure of [m]. *)
Ltac emits_step :=
  match goal with
  | |- emitsOnly _ (bindE _ _) => apply emitsOnly_bindE; [|intro]
  | |- emitsOnly _ (bind _ _) => apply emitsOnly_bind; [|intro]
  | |- emitsOnly _ (if ?c then _ else _) => destruct c
  | |- emitsOnly _ (match ?x with _ => _ end) => destruct x
  | |- emitsOnly _ (let _ := _ in _) => cbv zeta
  | |- emitsOnly _ (emit _) => apply emitsOnly_emit; first [exact I | reflexivity]
  | |- emitsOnly _ _ => solve [auto with emits]
  end.

Ltac emits := repeat emits_step.

(** ** Facts on traces *)

Lemma phaseRuns_app (a b : list Event) :
  phaseRuns (a ++ b) = (phaseRuns a ++ phaseRuns b)%list.
Proof.
  induction a as [|e a IH]; simpl; [reflexivity|].
  destruct (phaseRun e); simpl; rewrite IH; reflexivity.
Qed.

Lemma phaseRuns_silent (evs : list Event) :
  Forall (fun e => phaseRun e = None) evs -> phaseRuns evs = [].
Proof.
  induction 1 as [|e evs He _ IH]; simpl; [reflexivity|].
  rewrite He; exact IH.
Qed.

Lemma promptsOf_app (a b : list Event) :
  promptsOf (a ++ b) = (promptsOf a ++ promptsOf b)%list.
Proof.
  induction a as [|e a IH]; simpl; [reflexivity|].
  destruct e; simpl; rewrite ?IH; reflexivity.
Qed.

Lemma promptsOf_backend (evs : list Event) :
  Forall (fun e => backendEvent e = true) evs -> promptsOf evs = [].
Proof.
  induction 1 as [|e evs He _ IH]; simpl; [reflexivity|].
  destruct e; simpl in *; try discriminate; exact IH.
Qed.

Lemma splitPasses_spawns (a rest : list Event) :
  Forall isSpawn a ->
  splitPasses (a ++ rest)
  = ((a ++ fst (splitPasses rest))%list, snd (splitPasses rest)).
Proof.
  induction 1 as [|e a He _ IH]; simpl.
  - destruct (splitPasses rest); reflexivity.
  - rewrite IH. destruct e; simpl in He; try contradiction. reflexivity.
Qed.

(** * The local Build Pipeline *)

Section ExecutorFacts.
Context {W : Type} (wd : World W).

Lemma executeCommand_events (command : string) (args : list string) (s : State W) :
  eventsOf (Executor.executeCommand wd command args s)
  = [EvSpawn command args (valueOf (Executor.executeCommand wd command args s))].
Proof.
  unfold Executor.executeCommand, bind, call, emit, ret, eventsOf, valueOf.
  destruct (spawnProcess wd command args (world s)) as [o w]; reflexivity.
Qed.

Lemma executeCommand_emits (P : Event -> Prop) (command : string) (args : list string) :
  (forall r, P (EvSpawn command args r)) ->
  emitsOnly P (Executor.executeCommand wd command args).
Proof.
  intros H s. rewrite executeCommand_events. repeat constructor. apply H.
Qed.

Ltac remedy_emits :=
  emits; try (apply executeCommand_emits; intro; split; [exact I | reflexivity]).

Lemma attemptBuildFix_emits (r : ExecutionResult) :
  emitsOnly remedyEvent (Executor.attemptBuildFix wd r).
Proof. unfold Executor.attemptBuildFix. remedy_emits. Qed.

Lemma attemptSynthFix_emits (r : ExecutionResult) :
  emitsOnly remedyEvent (Executor.attemptSynthFix wd r).
Proof. unfold Executor.attemptSynthFix. remedy_emits. Qed.

Lemma attemptLintFix_emits (r : ExecutionResult) :
  emitsOnly remedyEvent (Executor.attemptLintFix wd r).
Proof. unfold Executor.attemptLintFix. remedy_emits. Qed.

Lemma attemptDeployFix_emits (r : ExecutionResult) :
  emitsOnly remedyEvent (Executor.attemptDeployFix wd r).
Proof. unfold Executor.attemptDeployFix. remedy_emits. Qed.

Lemma phaseRun_npm_run (script : string) (p : Phase) (r : ExecutionResult) :
  phaseOfScript script = Some p ->
  phaseRun (EvSpawn "npm" ["run"; script] r) = Some (p, success r).
Proof. intro H. simpl. rewrite H. reflexivity. Qed.

Lemma phaseWithFix_block (script : string) (p : Phase)
    (fix_ : ExecutionResult -> M W ExecutionResult) (s : State W) :
  phaseOfScript script = Some p ->
  (forall r, emitsOnly remedyEvent (fix_ r)) ->
  block p (success (valueOf (Executor.phaseWithFix wd script fix_ s)))
    (phaseRuns (eventsOf (Executor.phaseWithFix wd script fix_ s))).
Proof.
  intros Hp Hfix. unfold Executor.phaseWithFix.
  rewrite valueOf_bind, eventsOf_bind, phaseRuns_app, executeCommand_events.
  set (r1 := valueOf (Executor.executeCommand wd "npm" ["run"; script] s)).
  set (s1 := stateOf (Executor.executeCommand wd "npm" ["run"; script] s)).
  cbn [phaseRuns]. rewrite (phaseRun_npm_run _ _ _ Hp).
  destruct (success r1) eqn:Hr1.
  - left. cbn. rewrite Hr1. reflexivity.
  - rewrite valueOf_bind, eventsOf_bind, phaseRuns_app.
    rewrite (phaseRuns_silent (eventsOf (fix_ r1 s1))).
    2:{ eapply Forall_impl; [|apply Hfix]. intros e [_ He]; exact He. }
    destruct (success (valueOf (fix_ r1 s1))).
    + right. rewrite executeCommand_events. cbn [phaseRuns app].
      rewrite (phaseRun_npm_run _ _ _ Hp). reflexivity.
    + left. cbn. rewrite Hr1. reflexivity.
Qed.

Lemma phaseWithFix_emits (script : string)
    (fix_ : ExecutionResult -> M W ExecutionResult) :
  (forall r, emitsOnly remedyEvent (fix_ r)) ->
  emitsOnly isSpawn (Executor.phaseWithFix wd script fix_).
Proof.
  intro Hfix. unfold Executor.phaseWithFix.
  emits; try (apply executeCommand_emits; intro; exact I).
  eapply emitsOnly_weaken; [|apply Hfix]. intros e [He _]; exact He.
Qed.

Lemma passBody_emits (attempt maxAttempts : nat) (results : PhaseResults ExecutionResult) :
  emitsOnly isSpawn (Executor.passBody wd attempt maxAttempts results).
Proof.
  unfold Executor.passBody, Executor.deployStep.
  emits; apply phaseWithFix_emits;
    auto using attemptBuildFix_emits, attemptSynthFix_emits,
               attemptLintFix_emits, attemptDeployFix_emits.
Qed.

Lemma failExit_run (attempt maxAttempts : nat) (results : PhaseResults ExecutionResult)
    (message : string) (s : State W) :
  (if (attempt =? maxAttempts)%nat
   then ret (Executor.Return (Executor.mkBuildCycleResult false results (Some message)))
   else ret (Executor.Continue results)) s
  = (failExit attempt maxAttempts results message, [], s).
Proof. unfold failExit. destruct (attempt =? maxAttempts)%nat; reflexivity. Qed.

Lemma passBody_run (attempt maxAttempts : nat)
    (results : PhaseResults ExecutionResult) (s : State W) :
  PassRun attempt maxAttempts results
    (valueOf (Executor.passBody wd attempt maxAttempts results s))
    (phaseRuns (eventsOf (Executor.passBody wd attempt maxAttempts results s))).
Proof.
  unfold Executor.passBody.
  rewrite valueOf_bind, eventsOf_bind, phaseRuns_app.
  pose proof (phaseWithFix_block "build" Build (Executor.attemptBuildFix wd) s
                eq_refl attemptBuildFix_emits) as HB.
  set (b := valueOf (Executor.phaseWithFix wd "build" (Executor.attemptBuildFix wd) s)) in *.
  set (s1 := stateOf (Executor.phaseWithFix wd "build" (Executor.attemptBuildFix wd) s)).
  destruct (success b) eqn:Hb; cbn [negb].
  2:{ rewrite failExit_run. cbn [valueOf eventsOf fst snd phaseRuns].
      rewrite app_nil_r. apply BuildNotCleared; [rewrite Hb|]; assumption. }
  rewrite valueOf_bind, eventsOf_bind, phaseRuns_app.
  pose proof (phaseWithFix_block "synth" Synth (Executor.attemptSynthFix wd) s1
                eq_refl attemptSynthFix_emits) as HS.
  set (sy := valueOf (Executor.phaseWithFix wd "synth" (Executor.attemptSynthFix wd) s1)) in *.
  set (s2 := stateOf (Executor.phaseWithFix wd "synth" (Executor.attemptSynthFix wd) s1)).
  destruct (success sy) eqn:Hs; cbn [negb].
  2:{ rewrite failExit_run. cbn [valueOf eventsOf fst snd phaseRuns].
      rewrite app_nil_r.
      apply SynthNotCleared; try assumption; [rewrite Hb | rewrite Hs]; assumption. }
  rewrite valueOf_bind, eventsOf_bind, phaseRuns_app.
  pose proof (phaseWithFix_block "lint" Lint (Executor.attemptLintFix wd) s2
                eq_refl attemptLintFix_emits) as HL.
  set (l := valueOf (Executor.phaseWithFix wd "lint" (Executor.attemptLintFix wd) s2)) in *.
  set (s3 := stateOf (Executor.phaseWithFix wd "lint" (Executor.attemptLintFix wd) s2)).
  destruct (success l) eqn:Hl; cbn [negb].
  2:{ rewrite failExit_run. cbn [valueOf eventsOf fst snd phaseRuns].
      rewrite app_nil_r.
      apply LintNotCleared; try assumption;
        [rewrite Hb | rewrite Hs | rewrite Hl]; assumption. }
  unfold Executor.deployStep.
  rewrite valueOf_bind, eventsOf_bind, phaseRuns_app.
  rewrite valueOf_bind, eventsOf_bind, phaseRuns_app.
  pose proof (phaseWithFix_block "deploy" Deploy (Executor.attemptDeployFix wd) s3
                eq_refl attemptDeployFix_emits) as HD.
  set (d := valueOf (Executor.phaseWithFix wd "deploy" (Executor.attemptDeployFix wd) s3)) in *.
  cbn [ret valueOf eventsOf fst snd phaseRuns]. rewrite !app_nil_r.
  apply DeployReached; try assumption;
    [rewrite Hb | rewrite Hs | rewrite Hl]; assumption.
Qed.

End ExecutorFacts.

(** ** Deciding the ordering invariant *)

Lemma stagedFrom_sound (runs : list (Phase * bool)) :
  forall pre0, stagedFrom pre0 runs = true ->
  forall pre q ok post p,
    runs = (pre ++ (q, ok) :: post)%list ->
    predPhase q = Some p -> lastRun p (pre0 ++ pre) = Some true.
Proof.
  induction runs as [|[q0 ok0] runs IH]; intros pre0 Hc pre q ok post p Heq Hp.
  - destruct pre; discriminate.
  - simpl in Hc. apply andb_prop in Hc. destruct Hc as [Hhead Htail].
    destruct pre as [|x pre].
    + simpl in Heq. injection Heq as Hq Hok Hpost. subst q0.
      rewrite Hp in Hhead. rewrite app_nil_r.
      destruct (lastRun p pre0) as [[|]|]; try discriminate. reflexivity.
    + simpl in Heq. injection Heq as Hx Hrest. subst x.
      specialize (IH _ Htail pre q ok post p Hrest Hp).
      rewrite <- app_assoc in IH. exact IH.
Qed.

Lemma existsb_Phase_eqb (q : Phase) (l : list Phase) :
  existsb (Phase_eqb q) l = false -> ~ In q l.
Proof.
  induction l as [|x l IH]; simpl; intros H Hin; [exact Hin|].
  apply orb_false_elim in H. destruct H as [Hx Hl].
  destruct Hin as [Hin|Hin].
  - subst x. destruct q; discriminate.
  - exact (IH Hl Hin).
Qed.

Lemma haltsAfterFailure_sound (runs : list (Phase * bool)) :
  haltsAfterFailure runs = true ->
  forall p q, phaseIndex p < phaseIndex q ->
    lastRun p runs = Some false -> ~ In q (map fst runs).
Proof.
  unfold haltsAfterFailure, laterPairs. cbn [forallb fst snd].
  intros H p q Hlt Hlast.
  repeat (apply andb_prop in H; destruct H as [?H H]).
  apply existsb_Phase_eqb.
  destruct p, q; cbn in Hlt; try lia;
    match goal with
    | Hc : match lastRun ?p runs with _ => _ end = true |- existsb (Phase_eqb ?q) _ = false =>
        rewrite Hlast in Hc; apply negb_true_iff in Hc; exact Hc
    end.
Qed.

Lemma stagedb_sound (runs : list (Phase * bool)) : stagedb runs = true -> staged runs.
Proof.
  unfold stagedb. intro H. apply andb_prop in H. destruct H as [Ha Hb]. split.
  - intros pre q ok post p Heq Hp.
    exact (stagedFrom_sound runs [] Ha pre q ok post p Heq Hp).
  - apply haltsAfterFailure_sound; exact Hb.
Qed.

Lemma block_cases (p : Phase) (ok : bool) (runs : list (Phase * bool)) (v : bool) :
  block p ok runs -> ok = v -> runs = [(p, v)] \/ runs = [(p, false); (p, v)].
Proof. intros H <-; exact H. Qed.

Lemma PassRun_staged (attempt maxAttempts : nat) (results : PhaseResults ExecutionResult)
    (x : Executor.PassExit) (runs : list (Phase * bool)) :
  PassRun attempt maxAttempts results x runs -> staged runs.
Proof.
  intro H. apply stagedb_sound.
  inversion H; subst;
    repeat match goal with
    | Hb : block _ (success ?r) _, Hr : success ?r = _ |- _ =>
        destruct (block_cases _ _ _ _ Hb Hr); subst; clear Hb
    | Hb : block _ _ _ |- _ => destruct Hb; subst
    end;
    try reflexivity;
    match goal with
    | |- context [success ?d] => destruct (success d); reflexivity
    end.
Qed.


Example stagedb_rejects_skipped_build : stagedb [(Synth, true)] = false.
Proof. reflexivity. Qed.

Example stagedb_rejects_stale_build :
  stagedb [(Build, false); (Synth, true)] = false.
Proof. reflexivity. Qed.

Example stagedb_accepts_retry :
  stagedb [(Build, false); (Build, true); (Synth, true); (Lint, false)] = true.
Proof. reflexivity. Qed.

Section PipelinePasses.
Context {W : Type} (wd : World W).

(** Every pass of the local loop starts at a marker and is staged. *)
Lemma buildCycleLoop_passes (fuel : nat) :
  forall attempt maxAttempts results (s : State W),
    let evs := eventsOf (Executor.buildCycleLoop wd fuel attempt maxAttempts results s) in
    fst (splitPasses evs) = []
    /\ Forall (fun pass => staged (phaseRuns pass)) (passesOf evs).
Proof.
  induction fuel as [|fuel IH]; intros attempt maxAttempts results s; cbn zeta.
  - split; [reflexivity | constructor].
  - cbn [Executor.buildCycleLoop].
    destruct (attempt <? maxAttempts)%nat; [|split; [reflexivity | constructor]].
    rewrite eventsOf_bind. cbn [emit eventsOf fst snd app valueOf stateOf].
    rewrite eventsOf_bind.
    set (body := Executor.passBody wd (S attempt) maxAttempts results s).
    assert (Hrest : let rest := eventsOf
                      (match valueOf body with
                       | Executor.Return r => ret r
                       | Executor.Continue results' =>
                           Executor.buildCycleLoop wd fuel (S attempt) maxAttempts results'
                       end (stateOf body)) in
                    fst (splitPasses rest) = []
                    /\ Forall (fun pass => staged (phaseRuns pass)) (passesOf rest)).
    { destruct (valueOf body); cbn zeta.
      - split; [reflexivity | constructor].
      - apply IH. }
    cbn zeta in Hrest. destruct Hrest as [Hfst Hall].
    unfold passesOf in *. cbn [splitPasses].
    rewrite splitPasses_spawns by apply passBody_emits.
    rewrite Hfst, app_nil_r. cbn [fst snd]. split; [reflexivity|].
    constructor; [|exact Hall].
    eapply PassRun_staged. apply passBody_run.
Qed.

End PipelinePasses.

(** * The remote Build Pipeline *)

Section RemoteFacts.
Context {W : Type} (wd : World W) (config : MCPServer.MCPServerConfig).

(** A remote command throws before reaching the session, or reaches it
    and leaves one event with its outcome. *)
Lemma executeRemoteCommand_run (command : string) (cwd : option string) (s : State W) :
  let r := MCPServer.executeRemoteCommand wd config command cwd s in
  (eventsOf r = [] /\ connected s = false
     /\ valueOf r = Throw (Js.ErrorObject "SSH not connected") /\ stateOf r = s)
  \/ (eventsOf r = [EvRemote command (serverAnswer wd config command cwd s)]
      /\ connected s = true /\ connected (stateOf r) = true).
Proof.
  cbn zeta. unfold MCPServer.executeRemoteCommand, serverAnswer, bind, getConnected, call,
    emit, ret, eventsOf, valueOf, stateOf.
  destruct (connected s) eqn:Hc; cbn.
  - right.
    destruct (sshExecCommand wd _ (world s)) as [[res|e] w]; cbn; auto.
  - left. auto.
Qed.

(** On an open session the value is the answer of the server as
    reported: a missing exit code becomes the code 0. *)
Lemma executeRemoteCommand_value (command : string) (cwd : option string) (s : State W) :
  connected s = true ->
  valueOf (MCPServer.executeRemoteCommand wd config command cwd s)
  = reported (serverAnswer wd config command cwd s).
Proof.
  intro Hc. unfold MCPServer.executeRemoteCommand, serverAnswer, reported, bind,
    getConnected, call, emit, ret, valueOf.
  rewrite Hc. cbn.
  destruct (sshExecCommand wd _ (world s)) as [[res|e] w]; reflexivity.
Qed.

Lemma executeRemoteCommand_emits (P : Event -> Prop) (command : string) (cwd : option string) :
  (forall v, P (EvRemote command v)) ->
  emitsOnly P (MCPServer.executeRemoteCommand wd config command cwd).
Proof.
  intros H s.
  destruct (executeRemoteCommand_run command cwd s) as [[-> _]|[-> _]];
    repeat constructor. apply H.
Qed.

Lemma removeTemp_emits (P : Event -> Prop) (tempFile : string) :
  (forall r, P (EvRemove tempFile r)) -> emitsOnly P (MCPServer.removeTemp wd tempFile).
Proof.
  intros H s. unfold MCPServer.removeTemp, bind, call, emit, ret, eventsOf.
  destruct (fsRemove wd tempFile (world s)) as [r w]. cbn.
  constructor; [apply H | constructor].
Qed.




Lemma remotePhases_emits : emitsOnly isRemote (MCPServer.remotePhases wd config).
Proof.
  unfold MCPServer.remotePhases.
  emits; apply executeRemoteCommand_emits; intro; exact I.
Qed.



End RemoteFacts.

(** * The claims on the Build Pipeline *)

Lemma lastRun_app (p : Phase) (a b : list (Phase * bool)) :
  lastRun p (a ++ b) = match lastRun p b with
                         | Some x => Some x
                         | None => lastRun p a
                         end.
Proof.
  induction a as [|[q ok] a IH]; cbn [app lastRun].
  - destruct (lastRun p b); reflexivity.
  - rewrite IH. destruct (lastRun p b); reflexivity.
Qed.

Lemma lastRun_absent (p : Phase) (runs : list (Phase * bool)) :
  ~ In p (map fst runs) -> lastRun p runs = None.
Proof.
  induction runs as [|[q ok] runs IH]; cbn [map fst In lastRun]; intro H; [reflexivity|].
  rewrite IH by tauto.
  destruct p, q; cbn; try reflexivity; exfalso; apply H; left; reflexivity.
Qed.

(** What one pass does about Deploy. *)
Lemma PassRun_deploy (attempt maxAttempts : nat) (results : PhaseResults ExecutionResult)
    (x : Executor.PassExit) (runs : list (Phase * bool)) :
  PassRun attempt maxAttempts results x runs ->
  deploy results = None ->
  match x with
  | Executor.Return r =>
      if Executor.cycle_success r
      then In Deploy (map fst runs)
           /\ exists d, deploy (Executor.cycle_results r) = Some d
                        /\ lastRun Deploy runs = Some (success d)
      else ~ In Deploy (map fst runs) /\ deploy (Executor.cycle_results r) = None
  | Executor.Continue results' =>
      ~ In Deploy (map fst runs) /\ deploy results' = None
  end.
Proof.
  intros H Hnone.
  inversion H; subst; unfold failExit;
    repeat match goal with
    | Hb : block _ _ _ |- _ => destruct Hb; subst
    end;
    try (destruct (attempt =? maxAttempts)%nat);
    cbn; (split; [|try (exists d; split; reflexivity); assumption]);
    try (intros F; repeat (destruct F as [F|F]; try discriminate F); exact F);
    tauto.
Qed.

Section BuildCycleFacts.
Context {W : Type} (wd : World W).

(** More fuel than the remaining attempts changes nothing. *)
Lemma buildCycleLoop_fuel (fuel : nat) :
  forall fuel' attempt maxAttempts results (s : State W),
    maxAttempts - attempt <= fuel -> maxAttempts - attempt <= fuel' ->
    Executor.buildCycleLoop wd fuel attempt maxAttempts results s
    = Executor.buildCycleLoop wd fuel' attempt maxAttempts results s.
Proof.
  induction fuel as [|fuel IH]; intros fuel' attempt maxAttempts results s H H'.
  - destruct fuel' as [|fuel']; [reflexivity|]. cbn [Executor.buildCycleLoop].
    destruct (Nat.ltb_spec attempt maxAttempts); [lia | reflexivity].
  - destruct fuel' as [|fuel']; cbn [Executor.buildCycleLoop].
    + destruct (Nat.ltb_spec attempt maxAttempts); [lia | reflexivity].
    + destruct (Nat.ltb_spec attempt maxAttempts); [|reflexivity].
      unfold bind. cbn [emit].
      destruct (Executor.passBody wd (S attempt) maxAttempts results s) as [[[r|results'] e] s'];
        [reflexivity|].
      rewrite (IH fuel') by lia. reflexivity.
Qed.

Lemma buildCycleLoop_deploy (fuel : nat) :
  forall attempt maxAttempts results (s : State W),
    deploy results = None ->
    let run := Executor.buildCycleLoop wd fuel attempt maxAttempts results s in
    let runs := phaseRuns (eventsOf run) in
    if Executor.cycle_success (valueOf run)
    then In Deploy (map fst runs)
         /\ exists d, deploy (Executor.cycle_results (valueOf run)) = Some d
                      /\ lastRun Deploy runs = Some (success d)
    else ~ In Deploy (map fst runs)
         /\ deploy (Executor.cycle_results (valueOf run)) = None.
Proof.
  induction fuel as [|fuel IH]; intros attempt maxAttempts results s Hnone; cbn zeta.
  - cbn. tauto.
  - cbn [Executor.buildCycleLoop].
    destruct (attempt <? maxAttempts)%nat; [|cbn; tauto].
    rewrite valueOf_bind, eventsOf_bind, valueOf_bind, eventsOf_bind.
    rewrite eventsOf_emit, stateOf_emit. cbn [app phaseRuns phaseRun].
    pose proof (PassRun_deploy _ _ _ _ _
                  (passBody_run wd (S attempt) maxAttempts results s) Hnone) as Hpass.
    set (body := Executor.passBody wd (S attempt) maxAttempts results s) in *.
    rewrite phaseRuns_app.
    destruct (valueOf body) as [r|results'] eqn:Hx.
    + rewrite valueOf_ret, eventsOf_ret. cbn [phaseRuns]. rewrite app_nil_r. exact Hpass.
    + destruct Hpass as [Hno Hnone'].
      specialize (IH (S attempt) maxAttempts results' (stateOf body) Hnone').
      cbn zeta in IH.
      set (rest := Executor.buildCycleLoop wd fuel (S attempt) maxAttempts results'
                     (stateOf body)) in *.
      destruct (Executor.cycle_success (valueOf rest)).
      * destruct IH as [Hin (d & Hd & Hlast)]. split.
        -- rewrite map_app. apply in_or_app. right. exact Hin.
        -- exists d. split; [exact Hd|]. rewrite lastRun_app, Hlast. reflexivity.
      * destruct IH as [Hnin Hd]. split; [|exact Hd].
        rewrite map_app. intro Hin. apply in_app_or in Hin. tauto.
Qed.

End BuildCycleFacts.

(** X26: in every pass of the local pipeline a phase command runs only
    when the latest run of the preceding phase in that pass succeeded
    (Synth after Build, Lint after Synth, Deploy after Lint), and once the
    last run of a phase has failed no later phase is run in that pass;
    every command of the pipeline belongs to a pass. *)
Theorem local_phases_run_in_order :
  forall (W : Type) (wd : World W) (maxAttempts : nat) (s : State W),
    let localEvents := eventsOf (Executor.executeBuildCycle wd maxAttempts s) in
    fst (splitPasses localEvents) = []
    /\ Forall (fun pass => staged (phaseRuns pass)) (passesOf localEvents).
Proof.
  intros W wd maxAttempts s. cbn zeta.
  exact (buildCycleLoop_passes wd maxAttempts 0 maxAttempts noResults s).
Qed.

(** C3, the code at the failing input: on an open session the server
    answers the Build command without an exit code (the command was
    killed by a signal) and every later command with exit code 0.  The
    local [executeCommand] takes such an end as a failure; the remote
    pipeline reports the code 0 for it, goes on with Synth, Lint and
    Deploy after the Build that did not succeed, and returns success. *)
Theorem killed_remote_build_is_followed_by_synth :
  let start := mkState (Script.mkTape [Script.Killed "" "Killed"] []) true in
  let run := MCPServer.executeRemoteBuildCycle Script.scripted Script.server start in
  serverAnswer Script.scripted Script.server "npm run build" None start
  = Normal (mkSshResponse "" "Killed" None)
  /\ success (valueOf (Executor.executeCommand Script.scripted "npm" ["run"; "build"] start))
     = false
  /\ phaseRuns (eventsOf run)
     = [(Build, false); (Synth, true); (Lint, true); (Deploy, true)]
  /\ ~ staged (phaseRuns (eventsOf run))
  /\ MCPServer.remote_success (valueOf run) = true.
Proof.
  cbn zeta. split; [reflexivity|]. split; [reflexivity|].
  assert (Hruns : phaseRuns
                    (eventsOf (MCPServer.executeRemoteBuildCycle Script.scripted Script.server
                                 (mkState (Script.mkTape [Script.Killed "" "Killed"] []) true)))
                  = [(Build, false); (Synth, true); (Lint, true); (Deploy, true)])
    by reflexivity.
  split; [exact Hruns|]. split; [|reflexivity].
  rewrite Hruns. intros [Hstaged _].
  specialize (Hstaged [(Build, false)] Synth true [(Lint, true); (Deploy, true)] Build
                eq_refl eq_refl).
  discriminate Hstaged.
Qed.

Section PassCount.
Context {W : Type} (wd : World W).

(** The local loop makes at most [maxAttempts - attempt] passes. *)
Lemma buildCycleLoop_pass_count (fuel : nat) :
  forall attempt maxAttempts results (s : State W),
    let evs := eventsOf (Executor.buildCycleLoop wd fuel attempt maxAttempts results s) in
    fst (splitPasses evs) = []
    /\ length (passesOf evs) <= maxAttempts - attempt.
Proof.
  induction fuel as [|fuel IH]; intros attempt maxAttempts results s; cbn zeta.
  - split; [reflexivity | cbn; lia].
  - cbn [Executor.buildCycleLoop].
    destruct (Nat.ltb_spec attempt maxAttempts); [|split; [reflexivity | cbn; lia]].
    rewrite eventsOf_bind, eventsOf_emit, stateOf_emit, eventsOf_bind.
    set (body := Executor.passBody wd (S attempt) maxAttempts results s).
    assert (Hrest : let rest := eventsOf
                      (match valueOf body with
                       | Executor.Return r => ret r
                       | Executor.Continue results' =>
                           Executor.buildCycleLoop wd fuel (S attempt) maxAttempts results'
                       end (stateOf body)) in
                    fst (splitPasses rest) = []
                    /\ length (passesOf rest) <= maxAttempts - S attempt).
    { destruct (valueOf body); cbn zeta.
      - split; [reflexivity | cbn; lia].
      - apply IH. }
    cbn zeta in Hrest. destruct Hrest as [Hfst Hlen].
    unfold passesOf in *. cbn [splitPasses app].
    rewrite splitPasses_spawns by apply passBody_emits.
    rewrite Hfst, app_nil_r. cbn [fst snd length]. split; [reflexivity | lia].
Qed.

End PassCount.

(** C1, as stated, fails: Build, Synth and Lint succeed, Deploy fails and
    no remedy applies; the last Deploy run failed and is recorded as
    failed, yet the pipeline returns [success: true]. *)
Lemma deploy_failure_returned_as_success :
  let run := Executor.executeBuildCycle Script.scripted 3
               (Script.start [Script.Exit "ok" "" 0; Script.Exit "ok" "" 0;
                              Script.Exit "ok" "" 0;
                              Script.Exit "" "Error: stack rollback" 1] []) in
  Executor.cycle_success (valueOf run) = true
  /\ lastRun Deploy (phaseRuns (eventsOf run)) = Some false
  /\ option_map success (deploy (Executor.cycle_results (valueOf run))) = Some false.
Proof. cbn zeta. repeat split; reflexivity. Qed.

(** C1 (amended): the success flag of [executeBuildCycle] is true exactly
    when some pass reached the Deploy phase, whatever the outcome of
    Deploy; the entry [results.deploy] then holds the outcome of the last
    Deploy run, and when the flag is false no Deploy was run and there is
    no such entry. *)
Theorem success_flag_means_deploy_reached :
  forall (W : Type) (wd : World W) (maxAttempts : nat) (s : State W),
    let run := Executor.executeBuildCycle wd maxAttempts s in
    let runs := phaseRuns (eventsOf run) in
    (Executor.cycle_success (valueOf run) = true <-> In Deploy (map fst runs))
    /\ (Executor.cycle_success (valueOf run) = true ->
        exists d, deploy (Executor.cycle_results (valueOf run)) = Some d
                  /\ lastRun Deploy runs = Some (success d))
    /\ (Executor.cycle_success (valueOf run) = false ->
        deploy (Executor.cycle_results (valueOf run)) = None).
Proof.
  intros W wd maxAttempts s. cbn zeta.
  pose proof (buildCycleLoop_deploy wd maxAttempts 0 maxAttempts noResults s eq_refl) as H.
  cbn zeta in H. unfold Executor.executeBuildCycle.
  destruct (Executor.cycle_success _).
  - destruct H as [Hin Hd]. split; [tauto | split; [auto | discriminate]].
  - destruct H as [Hnin Hd]. split; [|split; [discriminate | auto]].
    split; [discriminate | intro Hin; contradiction].
Qed.


(** ** The remote pipeline, command by command *)







Section RemoteRuns.
Context {W : Type} (wd : World W) (config : MCPServer.MCPServerConfig).



End RemoteRuns.



Lemma diagnosticText_output (r : ExecutionResult) (signal : string) :
  signal <> "" -> Js.includes (output r) signal = true ->
  Executor.diagnosticText r = output r.
Proof.
  intros Hsig H. unfold Executor.diagnosticText, Js.orElse.
  destruct (output r) as [|c rest]; [|reflexivity].
  exfalso. destruct signal; [congruence | discriminate H].
Qed.

(** C8, as stated, fails: a Deploy output with a conflict signal that also
    mentions credentials is classified as a credentials problem; no
    teardown is run and Deploy is not re-run. *)
Lemma conflict_with_credentials_is_not_torn_down :
  let failure := "Error: role app-credentials already exists" in
  let run := Executor.executeBuildCycle Script.scripted 3
               (Script.start [Script.Exit "ok" "" 0; Script.Exit "ok" "" 0;
                              Script.Exit "ok" "" 0; Script.Exit "" failure 1] []) in
  Js.includes failure "already exists" = true
  /\ spawned (eventsOf run)
     = [("npm", ["run"; "build"]); ("npm", ["run"; "synth"]);
        ("npm", ["run"; "lint"]); ("npm", ["run"; "deploy"])]
  /\ option_map output (deploy (Executor.cycle_results (valueOf run))) = Some failure.
Proof. cbn zeta. repeat split; reflexivity. Qed.

(** C8 (amended): when the Deploy command fails and its captured output
    contains "already exists" or "conflict" and neither "credentials" nor
    "access denied", the remedy is [npm run destroy]; when the teardown
    succeeds Deploy is run once more, the pipeline returns success and the
    outcome of the second run is what [results.deploy] holds; when the
    teardown fails Deploy is not run again and the failed outcome stays. *)
Theorem conflict_remedy_is_teardown :
  forall (W : Type) (wd : World W) (results : PhaseResults ExecutionResult) (s : State W),
    let first := Executor.executeCommand wd "npm" ["run"; "deploy"] s in
    let failed := valueOf first in
    let teardown := Executor.executeCommand wd "npm" ["run"; "destroy"] (stateOf first) in
    let second := Executor.executeCommand wd "npm" ["run"; "deploy"] (stateOf teardown) in
    let step := Executor.deployStep wd results s in
    success failed = false ->
    Js.includes (output failed) "already exists"
      || Js.includes (output failed) "conflict" = true ->
    Js.includes (output failed) "credentials"
      || Js.includes (output failed) "access denied" = false ->
    Executor.attemptDeployFix wd failed (stateOf first) = teardown
    /\ (success (valueOf teardown) = true ->
        spawned (eventsOf step)
        = [("npm", ["run"; "deploy"]); ("npm", ["run"; "destroy"]);
           ("npm", ["run"; "deploy"])]
        /\ valueOf step
           = Executor.mkBuildCycleResult true (setDeploy results (valueOf second)) None)
    /\ (success (valueOf teardown) = false ->
        spawned (eventsOf step) = [("npm", ["run"; "deploy"]); ("npm", ["run"; "destroy"])]
        /\ valueOf step = Executor.mkBuildCycleResult true (setDeploy results failed) None).
Proof.
  intros W wd results s first failed teardown second step Hfailed Hsignal Hcred.
  assert (Hfix : Executor.attemptDeployFix wd failed (stateOf first) = teardown).
  { unfold Executor.attemptDeployFix.
    assert (Htext : Executor.diagnosticText failed = output failed).
    { apply orb_prop in Hsignal. destruct Hsignal as [H|H];
        eapply diagnosticText_output; try exact H; discriminate. }
    rewrite Htext, Hcred, Hsignal. reflexivity. }
  split; [exact Hfix|].
  subst step. unfold Executor.deployStep, Executor.phaseWithFix.
  rewrite !valueOf_bind, !eventsOf_bind, !executeCommand_events.
  fold first. fold failed. rewrite Hfailed.
  rewrite !valueOf_bind, !eventsOf_bind.
  rewrite Hfix.
  split; intro Hdown; rewrite Hdown.
  - unfold teardown at 1. rewrite !executeCommand_events. fold teardown. fold second.
    split; reflexivity.
  - unfold teardown at 1. rewrite !executeCommand_events. fold teardown.
    split; reflexivity.
Qed.

(** The theorem on a Deploy that hits an existing bucket, is torn down
    and succeeds on the second run. *)
Lemma conflict_remedy_witness :
  let s := Script.start [Script.Exit "" "Error: bucket my-app-storage already exists" 1;
                         Script.Exit "destroyed" "" 0;
                         Script.Exit "deployed" "" 0] [] in
  success (valueOf (Executor.executeCommand Script.scripted "npm" ["run"; "deploy"] s)) = false
  /\ spawned (eventsOf (Executor.deployStep Script.scripted noResults s))
     = [("npm", ["run"; "deploy"]); ("npm", ["run"; "destroy"]); ("npm", ["run"; "deploy"])]
  /\ Executor.cycle_success (valueOf (Executor.deployStep Script.scripted noResults s)) = true
  /\ option_map output
       (deploy (Executor.cycle_results (valueOf (Executor.deployStep Script.scripted noResults s))))
     = Some "deployed".
Proof.
  cbn zeta.
  destruct (conflict_remedy_is_teardown Script.Tape Script.scripted noResults
              (Script.start [Script.Exit "" "Error: bucket my-app-storage already exists" 1;
                             Script.Exit "destroyed" "" 0;
                             Script.Exit "deployed" "" 0] [])
              eq_refl eq_refl eq_refl) as (_ & Hok & _).
  destruct (Hok eq_refl) as [Hev Hval].
  split; [reflexivity|]. split; [exact Hev|]. rewrite Hval. split; reflexivity.
Defined.

(** The same remedy seen from the whole pipeline: Build, Synth and Lint
    succeed, Deploy hits an existing bucket, the teardown succeeds and the
    second Deploy run is the one recorded. *)
Example teardown_then_redeploy :
  let run := Executor.executeBuildCycle Script.scripted 3
               (Script.start
                  [Script.Exit "ok" "" 0; Script.Exit "ok" "" 0; Script.Exit "ok" "" 0;
                   Script.Exit "" "Error: bucket my-app-storage already exists" 1;
                   Script.Exit "destroyed" "" 0; Script.Exit "deployed" "" 0] []) in
  Executor.cycle_success (valueOf run) = true
  /\ spawned (eventsOf run)
     = [("npm", ["run"; "build"]); ("npm", ["run"; "synth"]); ("npm", ["run"; "lint"]);
        ("npm", ["run"; "deploy"]); ("npm", ["run"; "destroy"]); ("npm", ["run"; "deploy"])]
  /\ option_map output (deploy (Executor.cycle_results (valueOf run))) = Some "deployed".
Proof. cbn zeta. repeat split; reflexivity. Qed.

(** * The Expectation Checker *)

(** C5, as stated, fails: no key of [{bucketName: "my-app-storage"}]
    contains one of the indicators, the check returns false. *)
Lemma bucket_name_output_is_not_enough :
  IaCAgent.checkDeploymentExpectations "create a storage bucket"
    [("bucketName", RawText "my-app-storage")] = false.
Proof. reflexivity. Qed.

(** C5 (amended): [checkDeploymentExpectations] returns false on empty
    outputs and returns true exactly when some output key contains
    "output", "stack" or "cfn"; on [{bucketName: "my-app-storage"}] it
    returns false. *)
Theorem expectation_check_is_key_heuristic :
  forall (originalPrompt : string) (outputs : Outputs),
    IaCAgent.checkDeploymentExpectations originalPrompt [] = false
    /\ (IaCAgent.checkDeploymentExpectations originalPrompt outputs = true
        <-> exists key, In key (map fst outputs)
                        /\ (Js.includes key "output" = true
                            \/ Js.includes key "stack" = true
                            \/ Js.includes key "cfn" = true))
    /\ IaCAgent.checkDeploymentExpectations originalPrompt
         [("bucketName", RawText "my-app-storage")] = false.
Proof.
  intros originalPrompt outputs. split; [reflexivity|]. split; [|reflexivity].
  assert (Hexists : IaCAgent.checkDeploymentExpectations originalPrompt outputs
                    = existsb IaCAgent.successIndicator (map fst outputs))
    by (destruct outputs; reflexivity).
  rewrite Hexists, existsb_exists. unfold IaCAgent.successIndicator.
  split; intros (key & Hin & Hkey); exists key; (split; [exact Hin|]).
  - apply orb_prop in Hkey. destruct Hkey as [Hkey|Hkey]; [|tauto].
    apply orb_prop in Hkey. tauto.
  - destruct Hkey as [ Hk | [ Hk | Hk ] ]; rewrite Hk, ?orb_true_r; reflexivity.
Qed.

(** * The outer loop *)

Section AgentFacts.
Context {W : Type} (wd : World W) (config : IaCAgent.AgentConfig).

Lemma buildCycleLoop_backend (fuel : nat) :
  forall attempt maxAttempts results,
    emitsOnly isBackend (Executor.buildCycleLoop wd fuel attempt maxAttempts results).
Proof.
  induction fuel as [|fuel IH]; intros attempt maxAttempts results;
    cbn [Executor.buildCycleLoop]; emits; try reflexivity; try apply IH.
  eapply emitsOnly_weaken; [|apply passBody_emits].
  intros [] He; try contradiction; reflexivity.
Qed.

Lemma executeRemoteCommand_backend (server : MCPServer.MCPServerConfig)
    (command : string) (cwd : option string) :
  emitsOnly isBackend (MCPServer.executeRemoteCommand wd server command cwd).
Proof. apply executeRemoteCommand_emits. intro; reflexivity. Qed.

Lemma uploadGeneratedCode_backend (server : MCPServer.MCPServerConfig) (files : Files) :
  emitsOnly isBackend (MCPServer.uploadGeneratedCode wd server files).
Proof.
  induction files as [|[filePath content] files IH]; cbn [MCPServer.uploadGeneratedCode];
    emits; try reflexivity; try apply executeRemoteCommand_backend;
    try (apply removeTemp_emits; reflexivity); exact IH.
Qed.

Lemma writeGeneratedFiles_backend (out : string) (files : Files) :
  emitsOnly isBackend (IaCGenerator.writeGeneratedFiles wd out files).
Proof.
  induction files as [|[filePath content] files IH]; cbn [IaCGenerator.writeGeneratedFiles];
    emits; try reflexivity; exact IH.
Qed.

Lemma collectOutputs_backend (server : MCPServer.MCPServerConfig) (files : list string) :
  forall outputs, emitsOnly isBackend (MCPServer.collectOutputs wd server files outputs).
Proof.
  induction files as [|file files IH]; intro outputs; cbn [MCPServer.collectOutputs];
    emits; try apply executeRemoteCommand_backend; apply IH.
Qed.

Lemma downloadDeploymentOutputs_backend (server : MCPServer.MCPServerConfig) :
  emitsOnly isBackend (MCPServer.downloadDeploymentOutputs wd server).
Proof.
  unfold MCPServer.downloadDeploymentOutputs. emits. apply collectOutputs_backend.
Qed.

Lemma deliverFiles_backend (files : Files) :
  emitsOnly isBackend (IaCAgent.deliverFiles wd config files).
Proof.
  unfold IaCAgent.deliverFiles. emits.
  - apply writeGeneratedFiles_backend.
  - apply uploadGeneratedCode_backend.
Qed.

Lemma runBuildCycle_backend : emitsOnly isBackend (IaCAgent.runBuildCycle wd config).
Proof.
  unfold IaCAgent.runBuildCycle. emits.
  - apply buildCycleLoop_backend.
  - unfold MCPServer.executeRemoteBuildCycle. emits.
    eapply emitsOnly_weaken; [|apply remotePhases_emits].
    intros [] He; try contradiction; reflexivity.
Qed.

Lemma backend_prompts {A} (m : M W A) (s : State W) (v : A) (e : list Event) (s' : State W) :
  emitsOnly isBackend m -> m s = (v, e, s') -> promptsOf e = [].
Proof.
  intros Hm Hrun. specialize (Hm s). rewrite Hrun in Hm.
  apply promptsOf_backend. exact Hm.
Qed.

End AgentFacts.

(** Close a path through the iteration: the record pushed is the witness. *)
Ltac cycle_done :=
  cbv beta iota; cbn [valueOf eventsOf fst snd ret];
  match goal with
  | |- context [(_ ++ [?x])%list] => exists x
  end;
  cbn [IaCAgent.cycle IaCAgent.withError IaCAgent.withGeneration IaCAgent.withBuild
       IaCAgent.withOutputs IaCAgent.withSuccess IaCAgent.deploymentOutputs
       IaCAgent.buildResult IaCAgent.cr_success terminating andb];
  rewrite ?promptsOf_app; cbn [promptsOf app];
  repeat match goal with
         | H : promptsOf _ = [] |- _ => rewrite H
         end;
  cbn [app];
  repeat split; auto; try discriminate.

Section CycleFacts.
Context {W : Type} (wd : World W) (config : IaCAgent.AgentConfig).

Lemma cycleBody_spec (request : IaCGenerator.GenerationRequest) (cycle : nat)
    (currentPrompt : string) (results : list IaCAgent.CycleResult) (s : State W) :
  let run := IaCAgent.cycleBody wd config request cycle currentPrompt results s in
  exists r,
    IaCAgent.cycle r = cycle
    /\ promptsOf (eventsOf run) = [currentPrompt]
    /\ (IaCAgent.executionMode config = IaCAgent.LocalMode ->
        IaCAgent.deploymentOutputs r = None \/ IaCAgent.deploymentOutputs r = Some [])
    /\ match valueOf run with
       | IaCAgent.Break results' =>
           results' = (results ++ [r])%list /\ terminating request r = true
           /\ (forall b, IaCAgent.buildResult r = Some b ->
                         IaCAgent.buildSucceeded b = true)
       | IaCAgent.NextCycle results' prompt' =>
           results' = (results ++ [r])%list /\ terminating request r = false
           /\ (forall b, IaCAgent.buildResult r = Some b ->
                         IaCAgent.buildSucceeded b = false ->
                         cycle < IaCAgent.maxCycles config ->
                         prompt' = IaCAgent.generateFixPrompt currentPrompt (Some b))
       end.
Proof.
  cbn zeta. unfold IaCAgent.cycleBody, IaCAgent.tryBlock, IaCGenerator.generateCDKTFGoCode.
  unfold bind, emit, call.
  destruct (generationService wd _ _ (world s)) as [gen w1].
  destruct (gen_success gen) eqn:Hgen; cbn [negb].
  2:{ cycle_done. }
  destruct (fst (IaCGenerator.validateGeneratedCode wd (gen_files gen))) eqn:Hval; cbn [negb].
  2:{ cycle_done. }
  destruct (IaCAgent.deliverFiles wd config (gen_files gen) _) as [[[u|e] ev1] s2] eqn:Hdel;
    pose proof (backend_prompts _ _ _ _ _ (deliverFiles_backend wd config _) Hdel) as Hp1.
  2:{ destruct (cycle <? IaCAgent.maxCycles config)%nat; cycle_done. }
  destruct (IaCAgent.runBuildCycle wd config s2) as [[br ev2] s3] eqn:Hbuild;
    pose proof (backend_prompts _ _ _ _ _ (runBuildCycle_backend wd config) Hbuild) as Hp2.
  destruct (match br with
            | Some b => negb (IaCAgent.buildSucceeded b)
            | None => true
            end) eqn:Hbr.
  { destruct (Nat.ltb_spec cycle (IaCAgent.maxCycles config)); cycle_done.
    - intros b Hb _ _. rewrite Hb. reflexivity.
    - intros; lia. }
  assert (Hok : forall b, br = Some b -> IaCAgent.buildSucceeded b = false -> False).
  { intros b -> Hb. cbn in Hbr. rewrite Hb in Hbr. discriminate. }
  assert (Hout : forall s0 a e1 s1,
             match IaCAgent.remoteServer config with
             | Some server => MCPServer.downloadDeploymentOutputs wd server
             | None => ret []
             end s0 = (a, e1, s1) ->
             promptsOf e1 = []
             /\ (IaCAgent.executionMode config = IaCAgent.LocalMode -> a = [])).
  { intros s0 a e1 s1. unfold IaCAgent.remoteServer.
    destruct (IaCAgent.executionMode config).
    - intro H. injection H as <- <- _. split; [reflexivity | reflexivity].
    - destruct (IaCAgent.mcpServer config) as [server|].
      + intro H. split; [|discriminate].
        exact (backend_prompts _ _ _ _ _ (downloadDeploymentOutputs_backend wd server) H).
      + intro H. injection H as <- <- _. split; [reflexivity | discriminate]. }
  destruct (match IaCAgent.remoteServer config with
            | Some server => MCPServer.downloadDeploymentOutputs wd server
            | None => ret []
            end s3) as [[outs ev3] s4] eqn:Hdown.
  destruct (Hout _ _ _ _ Hdown) as [Hp3 Hlocal].
  destruct (IaCAgent.checkDeploymentExpectations (IaCGenerator.prompt request) outs) eqn:Hmet.
  { cycle_done.
    - intro Hmode. right. rewrite (Hlocal Hmode). reflexivity.
    - intros b Hb. destruct (IaCAgent.buildSucceeded b) eqn:Hs; [reflexivity|].
      destruct (Hok b Hb Hs). }
  destruct (cycle <? IaCAgent.maxCycles config)%nat; cycle_done;
    try (intro Hmode; right; rewrite (Hlocal Hmode); reflexivity);
    intros b Hb Hfail _; destruct (Hok b Hb Hfail).
Qed.

End CycleFacts.

Section LoopFacts.
Context {W : Type} (wd : World W) (config : IaCAgent.AgentConfig)
        (request : IaCGenerator.GenerationRequest).

(** With enough fuel the model of the [for] loop is a [LoopRun]. *)
Lemma agentLoop_run (fuel : nat) :
  forall cycle currentPrompt results (s : State W),
    IaCAgent.maxCycles config + 1 - cycle <= fuel ->
    let run := IaCAgent.agentLoop wd config fuel request cycle currentPrompt results s in
    exists records,
      valueOf run = (results ++ records)%list
      /\ LoopRun config request cycle currentPrompt records (promptsOf (eventsOf run)).
Proof.
  induction fuel as [|fuel IH]; intros cycle currentPrompt results s Hfuel; cbn zeta.
  - exists []. rewrite app_nil_r. split; [reflexivity|].
    apply LoopExhausted. lia.
  - cbn [IaCAgent.agentLoop].
    destruct (Nat.leb_spec cycle (IaCAgent.maxCycles config)) as [Hle|Hgt].
    2:{ exists []. rewrite app_nil_r. split; [reflexivity|].
        apply LoopExhausted. lia. }
    rewrite valueOf_bind, eventsOf_bind, eventsOf_emit, stateOf_emit.
    rewrite valueOf_bind, eventsOf_bind.
    destruct (cycleBody_spec wd config request cycle currentPrompt results s)
      as (r & Hcycle & Hprompts & Hlocal & Hexit).
    cbn zeta in Hprompts, Hexit.
    set (body := IaCAgent.cycleBody wd config request cycle currentPrompt results s) in *.
    cbn [app promptsOf]. rewrite promptsOf_app, Hprompts.
    destruct (valueOf body) as [results' prompt'|results'].
    + destruct Hexit as (-> & Hterm & Hfix).
      destruct (IH (S cycle) prompt' (results ++ [r])%list (stateOf body)) as (records & Hv & Hrun);
        [lia|].
      cbn zeta in Hv, Hrun.
      exists (r :: records). rewrite Hv, <- app_assoc. split; [reflexivity|].
      cbn [app]. apply LoopNext with (nextPrompt := prompt'); assumption.
    + destruct Hexit as (-> & Hterm & Hbuilt).
      exists [r]. rewrite valueOf_ret, eventsOf_ret. split; [reflexivity|].
      cbn. apply LoopBreak; assumption.
Qed.

End LoopFacts.

Section LoopRunFacts.
Context (config : IaCAgent.AgentConfig) (request : IaCGenerator.GenerationRequest).

Lemma noOutputs_not_terminating (r : IaCAgent.CycleResult) :
  noOutputs r -> terminating request r = false.
Proof.
  unfold terminating. intros [H|H]; rewrite H; apply andb_false_r.
Qed.

Lemma LoopRun_lengths cycle currentPrompt records prompts :
  LoopRun config request cycle currentPrompt records prompts ->
  length records <= IaCAgent.maxCycles config + 1 - cycle
  /\ length prompts = length records.
Proof.
  induction 1 as [cycle p Hgt | cycle p r Hle Hc Ht Hl Hb
                 | cycle p p' r records prompts Hle Hc Ht Hl Hfix Hrun IH]; cbn [length].
  - split; [lia | reflexivity].
  - split; [lia | reflexivity].
  - destruct IH as [IH1 IH2]. split; [lia | congruence].
Qed.

Lemma LoopRun_started cycle currentPrompt records prompts :
  LoopRun config request cycle currentPrompt records prompts ->
  cycle <= IaCAgent.maxCycles config ->
  exists r records' prompts',
    records = r :: records' /\ prompts = currentPrompt :: prompts'.
Proof.
  destruct 1; intro Hle; [lia | eauto | eauto].
Qed.

Lemma LoopRun_indices cycle currentPrompt records prompts :
  LoopRun config request cycle currentPrompt records prompts ->
  map IaCAgent.cycle records = seq cycle (length records).
Proof.
  induction 1 as [cycle p Hgt | cycle p r Hle Hc Ht Hl Hb
                 | cycle p p' r records prompts Hle Hc Ht Hl Hfix Hrun IH]; cbn.
  - reflexivity.
  - rewrite Hc. reflexivity.
  - rewrite Hc, IH. reflexivity.
Qed.

(** A terminating record is the last one. *)
Lemma LoopRun_terminating_last cycle currentPrompt records prompts :
  LoopRun config request cycle currentPrompt records prompts ->
  forall k r, nth_error records k = Some r -> terminating request r = true ->
              length records = S k.
Proof.
  induction 1 as [cycle p Hgt | cycle p r0 Hle Hc Ht Hl Hb
                 | cycle p p' r0 records prompts Hle Hc Ht Hl Hfix Hrun IH];
    intros k r Hk Hr.
  - destruct k; discriminate.
  - destruct k as [|k]; [reflexivity|]. destruct k; discriminate.
  - destruct k as [|k]; cbn in Hk.
    + injection Hk as <-. congruence.
    + cbn [length]. f_equal. exact (IH k r Hk Hr).
Qed.

(** A loop that stops before its budget stops at a terminating record. *)
Lemma LoopRun_early_stop cycle currentPrompt records prompts :
  LoopRun config request cycle currentPrompt records prompts ->
  length records < IaCAgent.maxCycles config + 1 - cycle ->
  exists r, nth_error records (length records - 1) = Some r
            /\ terminating request r = true.
Proof.
  induction 1 as [cycle p Hgt | cycle p r0 Hle Hc Ht Hl Hb
                 | cycle p p' r0 records prompts Hle Hc Ht Hl Hfix Hrun IH];
    cbn [length]; intro Hlt.
  - lia.
  - exists r0. split; [reflexivity | assumption].
  - destruct IH as (r & Hn & Hr); [lia|].
    exists r. split; [|exact Hr].
    destruct (LoopRun_lengths _ _ _ _ Hrun) as [_ Hlen].
    destruct records as [|r1 records]; [cbn in Hlt; inversion Hrun; lia|].
    cbn [length] in *. replace (S (S (length records)) - 1) with (S (length records)) by lia.
    replace (S (length records) - 1) with (length records) in Hn by lia.
    exact Hn.
Qed.

(** In local mode the loop uses its whole budget. *)
Lemma LoopRun_local cycle currentPrompt records prompts :
  LoopRun config request cycle currentPrompt records prompts ->
  IaCAgent.executionMode config = IaCAgent.LocalMode ->
  length records = IaCAgent.maxCycles config + 1 - cycle
  /\ Forall noOutputs records.
Proof.
  induction 1 as [cycle p Hgt | cycle p r0 Hle Hc Ht Hl Hb
                 | cycle p p' r0 records prompts Hle Hc Ht Hl Hfix Hrun IH];
    intro Hmode; cbn [length].
  - split; [lia | constructor].
  - rewrite (noOutputs_not_terminating r0 (Hl Hmode)) in Ht. discriminate.
  - destruct (IH Hmode) as [IH1 IH2]. split; [lia|].
    constructor; [exact (Hl Hmode) | exact IH2].
Qed.

(** After a failed pipeline with budget left the next prompt is the fix
    prompt built on the prompt of the failed cycle. *)
Lemma LoopRun_fix_prompt cycle currentPrompt records prompts :
  LoopRun config request cycle currentPrompt records prompts ->
  forall i r p b,
    nth_error records i = Some r -> nth_error prompts i = Some p ->
    IaCAgent.buildResult r = Some b -> IaCAgent.buildSucceeded b = false ->
    IaCAgent.cycle r < IaCAgent.maxCycles config ->
    nth_error prompts (S i) = Some (IaCAgent.generateFixPrompt p (Some b)).
Proof.
  induction 1 as [cycle p0 Hgt | cycle p0 r0 Hle Hc Ht Hl Hb
                 | cycle p0 p' r0 records prompts Hle Hc Ht Hl Hfix Hrun IH];
    intros i r p b Hr Hp Hbuild Hfail Hlt.
  - destruct i; discriminate.
  - destruct i as [|i]; [|destruct i; discriminate].
    cbn in Hr. injection Hr as <-. rewrite (Hb b Hbuild) in Hfail. discriminate.
  - destruct i as [|i]; cbn in Hr, Hp.
    + injection Hr as <-. injection Hp as <-.
      rewrite Hc in Hlt.
      destruct (LoopRun_started _ _ _ _ Hrun) as (r1 & records' & prompts' & _ & ->); [lia|].
      cbn. rewrite (Hfix b Hbuild Hfail Hlt). reflexivity.
    + cbn. exact (IH i r p b Hr Hp Hbuild Hfail Hlt).
Qed.

End LoopRunFacts.

Section BindEFacts.
Context {W : Type}.

Lemma valueOf_bindE {A B} (m : M W (Completion A)) (f : A -> M W (Completion B))
    (s : State W) :
  valueOf (bindE m f s)
  = match valueOf (m s) with
    | Normal a => valueOf (f a (stateOf (m s)))
    | Throw e => Throw e
    end.
Proof.
  unfold bindE. rewrite valueOf_bind. destruct (valueOf (m s)); reflexivity.
Qed.

Lemma eventsOf_bindE {A B} (m : M W (Completion A)) (f : A -> M W (Completion B))
    (s : State W) :
  eventsOf (bindE m f s)
  = (eventsOf (m s) ++ match valueOf (m s) with
                       | Normal a => eventsOf (f a (stateOf (m s)))
                       | Throw e => []
                       end)%list.
Proof.
  unfold bindE. rewrite eventsOf_bind. destruct (valueOf (m s)); reflexivity.
Qed.

Lemma stateOf_bindE {A B} (m : M W (Completion A)) (f : A -> M W (Completion B))
    (s : State W) :
  stateOf (bindE m f s)
  = match valueOf (m s) with
    | Normal a => stateOf (f a (stateOf (m s)))
    | Throw e => stateOf (m s)
    end.
Proof.
  unfold bindE. rewrite stateOf_bind. destruct (valueOf (m s)); reflexivity.
Qed.

End BindEFacts.

Section RunFacts.
Context {W : Type} (wd : World W) (config : IaCAgent.AgentConfig)
        (request : IaCGenerator.GenerationRequest).

Lemma connect_backend : emitsOnly isBackend (MCPServer.connect wd).
Proof. unfold MCPServer.connect. emits. Qed.

Lemma disconnect_backend : emitsOnly isBackend (MCPServer.disconnect (W := W)).
Proof. unfold MCPServer.disconnect. emits. Qed.

Lemma setupRemoteEnvironment_backend (server : MCPServer.MCPServerConfig) :
  emitsOnly isBackend (MCPServer.setupRemoteEnvironment wd server).
Proof.
  unfold MCPServer.setupRemoteEnvironment, MCPServer.cloneRepository,
    MCPServer.installDependencies, MCPServer.setupEnvironmentVariables.
  emits; apply executeRemoteCommand_backend.
Qed.

Lemma openSession_backend : emitsOnly isBackend (openSession wd config).
Proof.
  unfold openSession. emits.
  - apply connect_backend.
  - apply setupRemoteEnvironment_backend.
Qed.

Lemma closeSession_backend : emitsOnly isBackend (closeSession (W := W) config).
Proof. unfold closeSession. emits. apply disconnect_backend. Qed.

Lemma openSession_throws (s : State W) (e : Js.Thrown) :
  valueOf (openSession wd config s) = Throw e -> IaCAgent.remoteServer config <> None.
Proof.
  unfold openSession. destruct (IaCAgent.remoteServer config); [discriminate|].
  cbn. discriminate.
Qed.

(** [executeAgentCycle] throws while the session is set up, or returns
    the records of a [LoopRun] from cycle 1 with the request's prompt. *)
Lemma executeAgentCycle_run (s : State W) :
  let run := IaCAgent.executeAgentCycle wd config request s in
  match valueOf run with
  | Normal records =>
      valueOf (openSession wd config s) = Normal tt
      /\ LoopRun config request 1 (IaCGenerator.prompt request) records
           (promptsOf (eventsOf run))
  | Throw e => valueOf (openSession wd config s) = Throw e
  end.
Proof.
  cbn zeta. unfold IaCAgent.executeAgentCycle.
  fold (openSession wd config). fold (closeSession (W := W) config).
  rewrite valueOf_bindE, eventsOf_bindE.
  pose proof (promptsOf_backend _ (openSession_backend s)) as Hopen.
  destruct (valueOf (openSession wd config s)) as [[]|e]; [|reflexivity].
  rewrite !valueOf_bind, !eventsOf_bind, valueOf_ret, eventsOf_ret.
  split; [reflexivity|].
  set (s0 := stateOf (openSession wd config s)).
  destruct (agentLoop_run wd config request (IaCAgent.maxCycles config) 1
              (IaCGenerator.prompt request) [] s0) as (records & Hv & Hrun); [lia|].
  cbn zeta in Hv, Hrun. cbn [app] in Hv.
  set (loop := IaCAgent.agentLoop wd config (IaCAgent.maxCycles config) request 1
                 (IaCGenerator.prompt request) [] s0) in *.
  rewrite Hv.
  rewrite !promptsOf_app, Hopen.
  rewrite (promptsOf_backend _ (closeSession_backend (stateOf loop))).
  cbn [promptsOf app]. rewrite app_nil_r. exact Hrun.
Qed.

End RunFacts.

(** * The claims on the outer loop *)

(** C4: when [maxCycles >= 1] and [executeAgentCycle] returns (it throws
    only while the remote session is set up, before the first cycle), the
    records number at least one and at most [maxCycles], they carry the
    cycle indices 1, 2, ... in order, a record of a successfully
    terminating cycle (pipeline succeeded and expectations met) is the
    last one, so that the length is its index, and a run that returns
    fewer than [maxCycles] records stopped at such a cycle. *)
Theorem cycle_records_bounded_and_indexed :
  forall (W : Type) (wd : World W) (config : IaCAgent.AgentConfig)
         (request : IaCGenerator.GenerationRequest) (s : State W),
    1 <= IaCAgent.maxCycles config ->
    match valueOf (IaCAgent.executeAgentCycle wd config request s) with
    | Normal records =>
        1 <= length records <= IaCAgent.maxCycles config
        /\ map IaCAgent.cycle records = seq 1 (length records)
        /\ (forall k r, nth_error records k = Some r ->
                        terminating request r = true -> length records = S k)
        /\ (length records < IaCAgent.maxCycles config ->
            exists r, nth_error records (length records - 1) = Some r
                      /\ terminating request r = true)
    | Throw _ => IaCAgent.remoteServer config <> None
    end.
Proof.
  intros W wd config request s Hmax.
  pose proof (executeAgentCycle_run wd config request s) as H. cbn zeta in H.
  destruct (valueOf (IaCAgent.executeAgentCycle wd config request s)) as [records|e].
  - destruct H as [_ Hrun].
    destruct (LoopRun_lengths _ _ _ _ _ _ Hrun) as [Hlen _].
    destruct (LoopRun_started _ _ _ _ _ _ Hrun Hmax) as (r0 & records' & prompts' & Hrec & _).
    split; [|split; [|split]].
    + rewrite Hrec in *. cbn [length] in *. lia.
    + exact (LoopRun_indices _ _ _ _ _ _ Hrun).
    + exact (LoopRun_terminating_last _ _ _ _ _ _ Hrun).
    + intro Hlt. apply (LoopRun_early_stop _ _ _ _ _ _ Hrun). lia.
  - exact (openSession_throws wd config s e H).
Qed.

(** The theorem on a remote run with a budget of three cycles whose first
    cycle deploys and finds the well-known output locations. *)
Lemma cycle_records_witness :
  1 <= 3
  /\ match valueOf (IaCAgent.executeAgentCycle Script.scripted (Script.remoteConfig 3)
                      Script.request
                      (Script.start [] [Script.generated Script.validFiles])) with
     | Normal records =>
         1 <= length records <= 3
         /\ map IaCAgent.cycle records = seq 1 (length records)
         /\ (forall k r, nth_error records k = Some r ->
                         terminating Script.request r = true -> length records = S k)
         /\ (length records < 3 ->
             exists r, nth_error records (length records - 1) = Some r
                       /\ terminating Script.request r = true)
     | Throw _ => IaCAgent.remoteServer (Script.remoteConfig 3) <> None
     end.
Proof.
  split; [lia|].
  apply (cycle_records_bounded_and_indexed Script.Tape Script.scripted
           (Script.remoteConfig 3) Script.request
           (Script.start [] [Script.generated Script.validFiles])).
  cbn. lia.
Defined.

Example remote_run_stops_after_first_cycle :
  match valueOf (IaCAgent.executeAgentCycle Script.scripted (Script.remoteConfig 3)
                   Script.request
                   (Script.start [] [Script.generated Script.validFiles])) with
  | Normal records => map IaCAgent.cr_success records = [true]
  | Throw _ => False
  end.
Proof. vm_compute. reflexivity. Qed.

(** C10: in local mode [executeAgentCycle] returns; no record carries
    collected outputs (they are absent in a failed cycle and empty in a
    successful one), no cycle meets the expectations, and the run makes
    exactly [maxCycles] cycles, numbered 1 to [maxCycles]. *)
Theorem local_mode_uses_whole_budget :
  forall (W : Type) (wd : World W) (config : IaCAgent.AgentConfig)
         (request : IaCGenerator.GenerationRequest) (s : State W),
    IaCAgent.executionMode config = IaCAgent.LocalMode ->
    exists records,
      valueOf (IaCAgent.executeAgentCycle wd config request s) = Normal records
      /\ length records = IaCAgent.maxCycles config
      /\ map IaCAgent.cycle records = seq 1 (IaCAgent.maxCycles config)
      /\ Forall noOutputs records
      /\ Forall (fun r => terminating request r = false) records.
Proof.
  intros W wd config request s Hmode.
  pose proof (executeAgentCycle_run wd config request s) as H. cbn zeta in H.
  destruct (valueOf (IaCAgent.executeAgentCycle wd config request s)) as [records|e].
  - destruct H as [_ Hrun]. exists records.
    destruct (LoopRun_local _ _ _ _ _ _ Hrun Hmode) as [Hlen Hout].
    assert (Hlen' : length records = IaCAgent.maxCycles config) by lia.
    split; [reflexivity|]. split; [exact Hlen'|]. split; [|split].
    + rewrite <- Hlen'. exact (LoopRun_indices _ _ _ _ _ _ Hrun).
    + exact Hout.
    + eapply Forall_impl; [|exact Hout].
      intros r Hr. exact (noOutputs_not_terminating request r Hr).
  - exfalso. apply (openSession_throws wd config s e H).
    unfold IaCAgent.remoteServer. rewrite Hmode. reflexivity.
Qed.

(** The theorem on a local run of two cycles in which every command
    succeeds: both cycles succeed and both are run. *)
Lemma local_mode_witness :
  let run := IaCAgent.executeAgentCycle Script.scripted (Script.localConfig 2)
               Script.request
               (Script.start [] [Script.generated Script.validFiles;
                                 Script.generated Script.validFiles]) in
  IaCAgent.executionMode (Script.localConfig 2) = IaCAgent.LocalMode
  /\ exists records,
       valueOf run = Normal records
       /\ length records = 2
       /\ map IaCAgent.cr_success records = [true; true].
Proof.
  cbn zeta. split; [reflexivity|].
  destruct (local_mode_uses_whole_budget Script.Tape Script.scripted (Script.localConfig 2)
              Script.request
              (Script.start [] [Script.generated Script.validFiles;
                                Script.generated Script.validFiles])
              eq_refl) as (records & Hv & Hlen & _).
  exists records. split; [exact Hv|]. split; [exact Hlen|].
  revert Hv. vm_compute. intro Hv. injection Hv as <-. reflexivity.
Defined.

(** ** Facts on [includes] *)

Lemma prefix_app (x b : string) : String.prefix x (x ++ b) = true.
Proof.
  induction x as [|c x IH]; cbn; [destruct b; reflexivity|].
  destruct (ascii_dec c c) as [_|Hne]; [exact IH | congruence].
Qed.

Lemma prefix_app_l (x a b : string) :
  String.prefix x a = true -> String.prefix x (a ++ b) = true.
Proof.
  revert a. induction x as [|c x IH]; intros a H; [destruct (a ++ b); reflexivity|].
  destruct a as [|d a]; cbn in *; [discriminate|].
  destruct (ascii_dec c d); [apply IH; exact H | discriminate].
Qed.

Lemma includes_prefix (s x : string) : String.prefix x s = true -> Js.includes s x = true.
Proof. intro H. destruct s; cbn [Js.includes]; rewrite H; reflexivity. Qed.

Lemma includes_here (x b : string) : Js.includes (x ++ b) x = true.
Proof. apply includes_prefix, prefix_app. Qed.

Lemma includes_app_r (a b x : string) :
  Js.includes b x = true -> Js.includes (a ++ b) x = true.
Proof.
  intro H. induction a as [|c a IH]; [exact H|].
  cbn [append Js.includes]. destruct (String.prefix x (String c (a ++ b))); [reflexivity | exact IH].
Qed.

Lemma includes_app_l (a b x : string) :
  Js.includes a x = true -> Js.includes (a ++ b) x = true.
Proof.
  induction a as [|c a IH]; cbn [Js.includes]; intro H.
  - destruct (String.prefix x "") eqn:Hp; [|discriminate].
    apply includes_prefix. apply (prefix_app_l x "" b Hp).
  - cbn [append Js.includes].
    destruct (String.prefix x (String c a)) eqn:Hp.
    + pose proof (prefix_app_l x (String c a) b Hp) as Hq. cbn [append] in Hq.
      rewrite Hq. reflexivity.
    + destruct (String.prefix x (String c (a ++ b))); [reflexivity | exact (IH H)].
Qed.

(** The line of a failed local entry carries its text. *)
Lemma fixLine_includes (label : string) (b : IaCAgent.BuildResult) (ph : Phase)
    (e : ExecutionResult) :
  IaCAgent.phaseEntry b ph = Some (IaCAgent.LocalEntry e) ->
  success e = false ->
  Js.includes (IaCAgent.fixLine label (Some b) ph) (Js.optOrElse (error e) (output e)) = true.
Proof.
  intros He Hfail. unfold IaCAgent.fixLine. rewrite He.
  cbn [IaCAgent.entryFailed IaCAgent.entryText]. rewrite Hfail. cbn [negb].
  apply includes_app_r, includes_app_r, includes_here.
Qed.

Lemma generateFixPrompt_includes (p : string) (b : IaCAgent.BuildResult) (ph : Phase)
    (e : ExecutionResult) :
  IaCAgent.phaseEntry b ph = Some (IaCAgent.LocalEntry e) ->
  success e = false ->
  Js.includes (IaCAgent.generateFixPrompt p (Some b)) (Js.optOrElse (error e) (output e)) = true.
Proof.
  intros He Hfail. unfold IaCAgent.generateFixPrompt.
  do 5 apply includes_app_r. apply includes_app_l.
  unfold IaCAgent.fixContext.
  destruct ph.
  - apply includes_app_l, fixLine_includes; assumption.
  - apply includes_app_r, includes_app_l, fixLine_includes; assumption.
  - do 2 apply includes_app_r. apply includes_app_l, fixLine_includes; assumption.
  - do 3 apply includes_app_r. apply fixLine_includes; assumption.
Qed.

(** C6, as stated, fails: the prompt of cycle 2 does not contain the
    captured output of the failed Build of cycle 1 (it carries the error
    field, here the exit-code message), and the prompt of cycle 3 is the
    fix prompt built on the prompt of cycle 2, not on the original
    prompt. *)
Lemma fix_prompt_is_not_original_plus_output :
  let prompts := promptsOf (eventsOf twoFailuresRun) in
  let records := recordsOf (valueOf twoFailuresRun) in
  let second := IaCAgent.buildResult (nth 1 records (IaCAgent.mkCycleResult 0 false None None None None)) in
  map IaCAgent.cr_success records = [false; false; true]
  /\ nth 0 prompts "" = "create a storage bucket"
  /\ Js.includes (nth 1 prompts "") "unresolved module reference" = false
  /\ Js.includes (nth 1 prompts "") "Build error: Command exited with code 1" = true
  /\ nth 2 prompts "" = IaCAgent.generateFixPrompt (nth 1 prompts "") second
  /\ nth 2 prompts "" <> IaCAgent.generateFixPrompt "create a storage bucket" second.
Proof.
  cbn zeta. repeat split; try (vm_compute; reflexivity).
  apply String.eqb_neq. vm_compute. reflexivity.
Qed.

(** C6 (amended): for every cycle whose Build Pipeline fails with cycle
    budget left, the next cycle's generation prompt is
    [generateFixPrompt] of the failed cycle's own prompt: that prompt
    (the original prompt in cycle 1, later the prompt as extended by the
    earlier cycles) comes first, and for every phase entry of the local
    pipeline recorded as failed the prompt contains the entry's error
    text, or its combined output when the error text is empty. *)
Theorem fix_prompt_extends_failing_prompt :
  forall (W : Type) (wd : World W) (config : IaCAgent.AgentConfig)
         (request : IaCGenerator.GenerationRequest) (s : State W)
         (records : list IaCAgent.CycleResult) (i : nat) (r : IaCAgent.CycleResult)
         (p : string) (b : IaCAgent.BuildResult),
    let run := IaCAgent.executeAgentCycle wd config request s in
    let next := IaCAgent.generateFixPrompt p (Some b) in
    valueOf run = Normal records ->
    nth_error records i = Some r ->
    nth_error (promptsOf (eventsOf run)) i = Some p ->
    IaCAgent.buildResult r = Some b ->
    IaCAgent.buildSucceeded b = false ->
    IaCAgent.cycle r < IaCAgent.maxCycles config ->
    nth_error (promptsOf (eventsOf run)) (S i) = Some next
    /\ (i = 0 -> p = IaCGenerator.prompt request)
    /\ String.prefix p next = true
    /\ (forall ph e,
          IaCAgent.phaseEntry b ph = Some (IaCAgent.LocalEntry e) ->
          success e = false ->
          Js.includes next (Js.optOrElse (error e) (output e)) = true).
Proof.
  intros W wd config request s records i r p b run next Hv Hr Hp Hb Hfail Hlt.
  pose proof (executeAgentCycle_run wd config request s) as H. cbn zeta in H.
  fold run in H. rewrite Hv in H. destruct H as [_ Hrun].
  split; [|split; [|split]].
  - exact (LoopRun_fix_prompt _ _ _ _ _ _ Hrun i r p b Hr Hp Hb Hfail Hlt).
  - intros ->.
    destruct (LoopRun_started _ _ _ _ _ _ Hrun) as (r0 & records' & prompts' & _ & Hprompts);
      [lia|].
    rewrite Hprompts in Hp. cbn in Hp. congruence.
  - apply prefix_app.
  - intros ph e He Hsuccess. apply generateFixPrompt_includes with (ph := ph); assumption.
Qed.

(** The theorem on the first cycle of [twoFailuresRun]: the second
    prompt starts with the original prompt and carries the exit-code
    message of the failed Build. *)
Lemma fix_prompt_witness :
  exists next,
    nth_error (promptsOf (eventsOf twoFailuresRun)) 1 = Some next
    /\ String.prefix "create a storage bucket" next = true
    /\ Js.includes next "Command exited with code 1" = true.
Proof.
  edestruct (fix_prompt_extends_failing_prompt Script.Tape Script.scripted
               (Script.localConfig 3) Script.request twoFailuresStart)
    as (H1 & H2 & H3 & H4).
  - vm_compute. reflexivity.
  - instantiate (2 := 0). vm_compute. reflexivity.
  - vm_compute. reflexivity.
  - vm_compute. reflexivity.
  - vm_compute. reflexivity.
  - vm_compute. lia.
  - eexists. split; [exact H1|]. split; [exact H3|].
    exact (H4 Build
             (mkExecutionResult false "unresolved module reference"
                (Some "Command exited with code 1") 1)
             eq_refl eq_refl).
Defined.

(** * Structural validation *)

Section ValidationFacts.
Context {W : Type} (wd : World W).

Lemma validation_fails_on_error (files : Files) (message : string) :
  In message (IaCGenerator.validationErrors wd files) ->
  fst (IaCGenerator.validateGeneratedCode wd files) = false.
Proof.
  unfold IaCGenerator.validateGeneratedCode. cbn [fst].
  destruct (IaCGenerator.validationErrors wd files); [contradiction | reflexivity].
Qed.

Lemma missing_file_is_reported (files : Files) (file : string) :
  In file IaCGenerator.requiredFiles -> IaCGenerator.missing files file = true ->
  In ("Missing required file: " ++ file) (IaCGenerator.validationErrors wd files).
Proof.
  intros Hin Hmissing. unfold IaCGenerator.validationErrors.
  apply in_or_app. left. unfold IaCGenerator.requiredFileErrors.
  apply in_flat_map. exists file. split; [exact Hin|].
  rewrite Hmissing. left. reflexivity.
Qed.

Lemma missing_package_is_reported (files : Files) (path content : string) :
  In (path, content) files -> Js.endsWith path ".go" = true ->
  Js.includes content "package " = false ->
  In (path ++ ": Missing package declaration") (IaCGenerator.validationErrors wd files).
Proof.
  intros Hin Hgo Hpkg. unfold IaCGenerator.validationErrors.
  apply in_or_app. right. apply in_or_app. left. unfold IaCGenerator.goSyntaxErrors.
  apply in_flat_map. exists (path, content). split; [exact Hin|].
  cbn [fst snd]. rewrite Hgo, Hpkg. left. reflexivity.
Qed.

Lemma invalid_json_is_reported (files : Files) (content : string) :
  lookupFile files "cdk.json" = Some content ->
  Js.truthy content = true -> jsonParses wd content = false ->
  In "cdk.json: Invalid JSON format" (IaCGenerator.validationErrors wd files).
Proof.
  intros Hlookup Htruthy Hparse. unfold IaCGenerator.validationErrors.
  apply in_or_app. right. apply in_or_app. right. unfold IaCGenerator.cdkJsonErrors.
  unfold IaCGenerator.missing. rewrite Hlookup, Htruthy, Hparse. left. reflexivity.
Qed.

Lemma structurallyInvalid_fails (files : Files) :
  structurallyInvalid wd files ->
  fst (IaCGenerator.validateGeneratedCode wd files) = false.
Proof.
  intros [(file & Hin & Hnone)|[(path & content & Hin & Hgo & Hpkg)|(content & Hlookup & Hparse)]].
  - eapply validation_fails_on_error, missing_file_is_reported; [exact Hin|].
    unfold IaCGenerator.missing. rewrite Hnone. reflexivity.
  - eapply validation_fails_on_error, missing_package_is_reported; eassumption.
  - destruct (Js.truthy content) eqn:Htruthy.
    + eapply validation_fails_on_error, invalid_json_is_reported; eassumption.
    + eapply validation_fails_on_error, (missing_file_is_reported files "cdk.json").
      * right. right. left. reflexivity.
      * unfold IaCGenerator.missing. rewrite Hlookup, Htruthy. reflexivity.
Qed.

End ValidationFacts.

(** C7: when the generation service returns a file set that misses a
    required file, or has a [.go] file without ["package "], or has a
    [cdk.json] that does not parse, validation fails; the iteration
    consists of the generation call alone (nothing is written or
    uploaded and no command of the Build Pipeline is run), it pushes a
    failed record with the validation errors and goes on with the same
    prompt; the loop then runs the next cycle. *)
Theorem invalid_files_end_the_cycle :
  forall (W : Type) (wd : World W) (config : IaCAgent.AgentConfig)
         (request : IaCGenerator.GenerationRequest) (cycle fuel : nat)
         (currentPrompt : string) (results : list IaCAgent.CycleResult) (s : State W),
    let context := if (1 <? cycle)%nat then Some (IaCAgent.retryContext cycle)
                   else IaCGenerator.context request in
    let answer := generationService wd currentPrompt context (world s) in
    let files := gen_files (fst answer) in
    let after := mkState (snd answer) (connected s) in
    let failed :=
      IaCAgent.mkCycleResult cycle false (Some (fst answer)) None None
        (Some ("Generated code validation failed: "
               ++ Js.join ", " (IaCGenerator.validationErrors wd files))) in
    gen_success (fst answer) = true ->
    structurallyInvalid wd files ->
    cycle <= IaCAgent.maxCycles config ->
    fst (IaCGenerator.validateGeneratedCode wd files) = false
    /\ IaCAgent.cycleBody wd config request cycle currentPrompt results s
       = (IaCAgent.NextCycle (results ++ [failed]) currentPrompt,
          [EvGenerate currentPrompt context], after)
    /\ IaCAgent.agentLoop wd config (S fuel) request cycle currentPrompt results s
       = (let '(records, events, final) :=
            IaCAgent.agentLoop wd config fuel request (S cycle) currentPrompt
              (results ++ [failed]) after in
          (records, EvCycle cycle :: EvGenerate currentPrompt context :: events, final)).
Proof.
  intros W wd config request cycle fuel currentPrompt results s
         context answer files after failed Hgen Hinvalid Hle.
  pose proof (structurallyInvalid_fails wd files Hinvalid) as Hval.
  assert (Hbody : IaCAgent.cycleBody wd config request cycle currentPrompt results s
                  = (IaCAgent.NextCycle (results ++ [failed]) currentPrompt,
                     [EvGenerate currentPrompt context], after)).
  { unfold IaCAgent.cycleBody, IaCAgent.tryBlock, IaCGenerator.generateCDKTFGoCode.
    unfold bind, emit, call. cbn [IaCGenerator.prompt IaCGenerator.context].
    fold context. fold answer.
    destruct answer as [gen w1] eqn:Hanswer. cbn [fst snd] in *.
    rewrite Hgen. cbn [negb]. fold files. rewrite Hval. cbn [negb].
    reflexivity. }
  split; [exact Hval|]. split; [exact Hbody|].
  cbn [IaCAgent.agentLoop].
  destruct (Nat.leb_spec cycle (IaCAgent.maxCycles config)); [|lia].
  unfold bind, emit. rewrite Hbody.
  destruct (IaCAgent.agentLoop wd config fuel request (S cycle) currentPrompt
              (results ++ [failed]) after) as [[records events] final].
  reflexivity.
Qed.

(** The theorem on a file set without the entry point [bin/tap.go], in a
    local run with a budget of two cycles. *)
Lemma invalid_files_witness :
  let files := [("lib/tap_stack.go", "package lib"); ("cdk.json", "{}")] in
  let s := Script.start [] [Script.generated files; Script.generated Script.validFiles] in
  lookupFile files "bin/tap.go" = None
  /\ eventsOf (IaCAgent.cycleBody Script.scripted (Script.localConfig 2) Script.request 1
                 "create a storage bucket" [] s)
     = [EvGenerate "create a storage bucket" None]
  /\ map IaCAgent.cr_success
       (recordsOf (valueOf (IaCAgent.executeAgentCycle Script.scripted (Script.localConfig 2)
                              Script.request s)))
     = [false; true].
Proof.
  cbn zeta. split; [reflexivity|].
  destruct (invalid_files_end_the_cycle Script.Tape Script.scripted (Script.localConfig 2)
              Script.request 1 1 "create a storage bucket" []
              (Script.start [] [Script.generated [("lib/tap_stack.go", "package lib");
                                                  ("cdk.json", "{}")];
                                Script.generated Script.validFiles]))
    as (_ & Hbody & _).
  - reflexivity.
  - left. exists "bin/tap.go". split; [cbn; tauto | reflexivity].
  - cbn. lia.
  - split; [rewrite Hbody; reflexivity | vm_compute; reflexivity].
Defined.

(** * The remote session *)

Section SessionFacts.
Context {W : Type} (wd : World W) (config : IaCAgent.AgentConfig)
        (request : IaCGenerator.GenerationRequest).

Lemma disconnect_closes (s : State W) :
  connected (stateOf (MCPServer.disconnect s)) = false.
Proof.
  unfold MCPServer.disconnect, bind, getConnected, emit, setConnected, ret, stateOf.
  destruct (connected s) eqn:Hc; cbn; [reflexivity | exact Hc].
Qed.

(** Once the session is set up, nothing in the loop escapes the [catch]
    clause and the cleanup after the loop closes the session. *)
Lemma session_closed_on_return (s : State W) (records : list IaCAgent.CycleResult) :
  IaCAgent.remoteServer config <> None ->
  valueOf (IaCAgent.executeAgentCycle wd config request s) = Normal records ->
  connected (stateOf (IaCAgent.executeAgentCycle wd config request s)) = false.
Proof.
  intros Hremote. unfold IaCAgent.executeAgentCycle.
  rewrite valueOf_bindE, stateOf_bindE.
  destruct (valueOf _) as [[]|e]; [|discriminate].
  intros _. rewrite !stateOf_bind, stateOf_ret.
  destruct (IaCAgent.remoteServer config) as [server|]; [|congruence].
  apply disconnect_closes.
Qed.

End SessionFacts.

(** An exception during the upload of the files is caught by the cycle:
    the run returns a failed record and the session is closed. *)
Example upload_failure_is_caught :
  let run := IaCAgent.executeAgentCycle Script.scripted (Script.remoteConfig 1)
               Script.request
               (Script.start
                  [Script.Exit "" "" 0; Script.Exit "" "" 0; Script.Exit "" "" 0;
                   Script.Exit "" "" 0; Script.Exit "" "" 0; Script.Exit "" "" 0;
                   Script.Exit "" "" 0; Script.Fault "read ECONNRESET"]
                  [Script.generated Script.validFiles]) in
  map IaCAgent.cr_error (recordsOf (valueOf run)) = [Some "read ECONNRESET"]
  /\ connected (stateOf run) = false
  /\ In EvDisconnect (eventsOf run).
Proof. cbn zeta. repeat split; vm_compute; tauto. Qed.

(** C9, the code at the failing input: the connection is established,
    the first command of the remote bootstrap loses the transport;
    [executeAgentCycle] throws, no disconnect happens and the session is
    left open. *)
Lemma session_left_open_when_bootstrap_throws :
  let run := IaCAgent.executeAgentCycle Script.scripted (Script.remoteConfig 3)
               Script.request
               (Script.start [Script.Fault "read ECONNRESET"]
                  [Script.generated Script.validFiles]) in
  valueOf run = Throw (Js.ErrorObject "read ECONNRESET")
  /\ eventsOf run
     = [EvConnect None;
        EvRemote "test -d /home/ec2-user/iac-workspace/.git"
          (Throw (Js.ErrorObject "read ECONNRESET"))]
  /\ connected (stateOf run) = true.
Proof. cbn zeta. repeat split; reflexivity. Qed.

(** * Further properties of the local pipeline *)

(** X1: when the child process closes, [executeCommand] returns the two
    streams concatenated, succeeds exactly on exit code 0, carries no
    error on success, and on failure carries a non-empty error text (the
    standard error when it is non-empty), so that [error || output] is
    that error text and never the captured output. *)
Theorem executeCommand_result_shape :
  forall (W : Type) (wd : World W) (command : string) (args : list string) (s : State W)
         (out err : string) (exit : option Z),
    fst (spawnProcess wd command args (world s)) = Closed out err exit ->
    let r := valueOf (Executor.executeCommand wd command args s) in
    output r = out ++ err
    /\ (success r = true <-> exit = Some 0%Z)
    /\ (success r = true -> error r = None /\ exitCode r = 0%Z)
    /\ (success r = false ->
        exists e, error r = Some e /\ Js.truthy e = true
                  /\ (Js.truthy err = true -> e = err)
                  /\ Js.optOrElse (error r) (output r) = e).
Proof.
  intros W wd command args s out err exit Hspawn. cbn zeta.
  unfold Executor.executeCommand, bind, call, emit, ret, valueOf.
  destruct (spawnProcess wd command args (world s)) as [o w]. cbn [fst] in Hspawn. subst o.
  cbn [fst output success error exitCode].
  split; [reflexivity|].
  destruct exit as [[|z|z]|]; cbn; (split; [split; congruence|]);
    (split; [intro; try discriminate; split; reflexivity|]);
    intro; try discriminate;
    (destruct err as [|c err]; cbn;
     [eexists; repeat split; try reflexivity; discriminate
     |eexists; repeat split; reflexivity]).
Qed.

(** The theorem on a command that prints on standard output only and
    exits with code 2. *)
Lemma executeCommand_result_witness :
  let r := valueOf (Executor.executeCommand Script.scripted "npm" ["run"; "build"]
                      (Script.start [Script.Exit "lib/tap_stack.go:3: syntax error" "" 2] [])) in
  output r = "lib/tap_stack.go:3: syntax error"
  /\ error r = Some "Command exited with code 2"
  /\ exitCode r = 2%Z.
Proof.
  cbn zeta.
  destruct (executeCommand_result_shape Script.Tape Script.scripted "npm" ["run"; "build"]
              (Script.start [Script.Exit "lib/tap_stack.go:3: syntax error" "" 2] [])
              "lib/tap_stack.go:3: syntax error" "" (Some 2%Z) eq_refl)
    as (Hout & _ & _ & _).
  split; [exact Hout|]. split; reflexivity.
Defined.

Section ExecutorExtras.
Context {W : Type} (wd : World W).

Lemma spawned_app (a b : list Event) : spawned (a ++ b) = (spawned a ++ spawned b)%list.
Proof.
  induction a as [|e a IH]; cbn [app spawned]; [reflexivity|].
  destruct e; cbn [app]; rewrite ?IH; reflexivity.
Qed.

Lemma spawned_executeCommand (command : string) (args : list string) (s : State W) :
  spawned (eventsOf (Executor.executeCommand wd command args s)) = [(command, args)].
Proof. rewrite executeCommand_events. reflexivity. Qed.

Lemma executeCommand_run (command : string) (args : list string) (s : State W) :
  Executor.executeCommand wd command args s
  = (valueOf (Executor.executeCommand wd command args s),
     [EvSpawn command args (valueOf (Executor.executeCommand wd command args s))],
     stateOf (Executor.executeCommand wd command args s)).
Proof.
  rewrite <- executeCommand_events.
  destruct (Executor.executeCommand wd command args s) as [[r e] s']. reflexivity.
Qed.

(** What a classifier does when no remedy is offered. *)
Lemma classifier_idle (p : Phase) (r : ExecutionResult) (s : State W) :
  remedyOffered p (Executor.diagnosticText r) = false ->
  exists fixResult,
    classifier wd p r s = (fixResult, [], s) /\ success fixResult = false.
Proof.
  destruct p; cbn [classifier remedyOffered]; intro H.
  - unfold Executor.attemptBuildFix.
    apply orb_false_elim in H. destruct H as [H H4].
    apply orb_false_elim in H. destruct H as [H12 H3].
    rewrite H12, H3, H4. eexists; split; reflexivity.
  - unfold Executor.attemptSynthFix. rewrite H. eexists; split; reflexivity.
  - unfold Executor.attemptLintFix. rewrite H. eexists; split; reflexivity.
  - unfold Executor.attemptDeployFix.
    destruct (Js.includes _ "credentials" || Js.includes _ "access denied");
      [eexists; split; reflexivity|].
    cbn in H. rewrite H. eexists; split; reflexivity.
Qed.

End ExecutorExtras.

(** X2: a classifier spawns a command exactly when one of its patterns
    matches the diagnostic text of the failed phase (for Deploy: a
    conflict pattern and no credentials pattern); otherwise it returns a
    failed result and leaves the world as it is. *)
Theorem classifier_spawns_iff_remedy :
  forall (W : Type) (wd : World W) (p : Phase) (r : ExecutionResult) (s : State W),
    let run := classifier wd p r s in
    (remedyOffered p (Executor.diagnosticText r) = true <-> spawned (eventsOf run) <> [])
    /\ (remedyOffered p (Executor.diagnosticText r) = false ->
        eventsOf run = [] /\ stateOf run = s /\ success (valueOf run) = false).
Proof.
  intros W wd p r s. cbn zeta. split.
  - split.
    + destruct p; cbn [classifier remedyOffered]; intro H.
      * unfold Executor.attemptBuildFix.
        destruct (Js.includes _ "Cannot find module" || Js.includes _ "Module not found").
        -- rewrite spawned_executeCommand. discriminate.
        -- cbn [orb] in H. rewrite H, eventsOf_bind, spawned_app, spawned_executeCommand.
           discriminate.
      * unfold Executor.attemptSynthFix. rewrite H, spawned_executeCommand. discriminate.
      * unfold Executor.attemptLintFix. rewrite H, spawned_executeCommand. discriminate.
      * unfold Executor.attemptDeployFix.
        destruct (Js.includes _ "credentials" || Js.includes _ "access denied");
          [discriminate|].
        cbn in H. rewrite H, spawned_executeCommand. discriminate.
    + intro Hspawn. destruct (remedyOffered p (Executor.diagnosticText r)) eqn:H; [reflexivity|].
      destruct (classifier_idle wd p r s H) as (fixResult & Hrun & _).
      rewrite Hrun in Hspawn. exfalso. apply Hspawn. reflexivity.
  - intro H. destruct (classifier_idle wd p r s H) as (fixResult & Hrun & Hfail).
    rewrite Hrun. repeat split. exact Hfail.
Qed.

(** X3: a phase whose command failed and for which no remedy is offered
    is not run again in that pass: the step consists of the one failed
    command and records its result. *)
Theorem unmatched_failure_is_not_retried :
  forall (W : Type) (wd : World W) (p : Phase) (s : State W),
    let first := Executor.executeCommand wd "npm" ["run"; scriptOf p] s in
    let r := valueOf first in
    success r = false ->
    remedyOffered p (Executor.diagnosticText r) = false ->
    Executor.phaseWithFix wd (scriptOf p) (classifier wd p) s
    = (r, [EvSpawn "npm" ["run"; scriptOf p] r], stateOf first).
Proof.
  intros W wd p s first r Hfail Hnone.
  unfold Executor.phaseWithFix, bind.
  rewrite (executeCommand_run wd "npm" ["run"; scriptOf p] s).
  fold first. fold r. rewrite Hfail.
  destruct (classifier_idle wd p r (stateOf first) Hnone) as (fixResult & Hrun & Hfix).
  rewrite Hrun, Hfix. reflexivity.
Qed.

(** The theorem on a Deploy that is denied access: the one Deploy
    command, no teardown, no second run. *)
Lemma unmatched_failure_witness :
  let s := Script.start [Script.Exit "" "AccessDenied: access denied for role deployer" 1] [] in
  success (valueOf (Executor.executeCommand Script.scripted "npm" ["run"; "deploy"] s)) = false
  /\ spawned (eventsOf (Executor.phaseWithFix Script.scripted "deploy"
                          (Executor.attemptDeployFix Script.scripted) s))
     = [("npm", ["run"; "deploy"])].
Proof.
  cbn zeta. split; [reflexivity|].
  pose proof (unmatched_failure_is_not_retried Script.Tape Script.scripted Deploy
                (Script.start
                   [Script.Exit "" "AccessDenied: access denied for role deployer" 1] [])
                eq_refl eq_refl) as H.
  cbn [scriptOf classifier] in H. rewrite H. reflexivity.
Defined.

Ltac in_commands := cbn; repeat (first [left; reflexivity | right]).

Section PipelineCommands.
Context {W : Type} (wd : World W).

Lemma executeCommand_pipelineEvent (command : string) (args : list string) :
  In (command, args) pipelineCommands ->
  emitsOnly pipelineEvent (Executor.executeCommand wd command args).
Proof. intro H. apply executeCommand_emits. intro r. exact H. Qed.

Lemma passBody_pipelineEvent (attempt maxAttempts : nat)
    (results : PhaseResults ExecutionResult) :
  emitsOnly pipelineEvent (Executor.passBody wd attempt maxAttempts results).
Proof.
  unfold Executor.passBody, Executor.deployStep, Executor.phaseWithFix,
    Executor.attemptBuildFix, Executor.attemptSynthFix, Executor.attemptLintFix,
    Executor.attemptDeployFix.
  emits; apply executeCommand_pipelineEvent; in_commands.
Qed.

Lemma buildCycleLoop_pipelineEvent (fuel : nat) :
  forall attempt maxAttempts results,
    emitsOnly pipelineEvent (Executor.buildCycleLoop wd fuel attempt maxAttempts results).
Proof.
  induction fuel as [|fuel IH]; intros attempt maxAttempts results;
    cbn [Executor.buildCycleLoop]; emits; try apply IH.
  apply passBody_pipelineEvent.
Qed.

Lemma spawned_pipelineEvent (evs : list Event) :
  Forall pipelineEvent evs -> Forall (fun c => In c pipelineCommands) (spawned evs).
Proof.
  induction 1 as [|e evs He _ IH]; cbn [spawned]; [constructor|].
  destruct e; try exact IH. constructor; [exact He | exact IH].
Qed.

(** ** Counting commands *)

Lemma spawnsAtMost_ret {A} (n : nat) (a : A) : spawnsAtMost n (ret (W := W) a).
Proof. intro s. cbn. lia. Qed.

Lemma spawnsAtMost_bind {A B} (n1 n2 : nat) (m : M W A) (f : A -> M W B) :
  spawnsAtMost n1 m -> (forall a, spawnsAtMost n2 (f a)) -> spawnsAtMost (n1 + n2) (bind m f).
Proof.
  intros Hm Hf s. rewrite eventsOf_bind, spawned_app, length_app.
  specialize (Hm s). specialize (Hf (valueOf (m s)) (stateOf (m s))). lia.
Qed.

Lemma spawnsAtMost_weaken {A} (n n' : nat) (m : M W A) :
  n <= n' -> spawnsAtMost n m -> spawnsAtMost n' m.
Proof. intros Hle Hm s. specialize (Hm s). lia. Qed.

Lemma spawnsAtMost_executeCommand (command : string) (args : list string) :
  spawnsAtMost 1 (Executor.executeCommand wd command args).
Proof. intro s. rewrite spawned_executeCommand. cbn. lia. Qed.

Lemma spawnsAtMost_classifier (p : Phase) (r : ExecutionResult) :
  spawnsAtMost 2 (classifier wd p r).
Proof.
  destruct p; cbn [classifier].
  - unfold Executor.attemptBuildFix.
    destruct (_ || _); [|destruct (_ || _)].
    + apply (spawnsAtMost_weaken 1); [lia | apply spawnsAtMost_executeCommand].
    + apply (spawnsAtMost_bind 1 1); [apply spawnsAtMost_executeCommand|].
      intro r1. destruct (success r1);
        [apply spawnsAtMost_executeCommand | apply spawnsAtMost_ret].
    + apply spawnsAtMost_ret.
  - unfold Executor.attemptSynthFix. destruct (_ || _); [|apply spawnsAtMost_ret].
    apply (spawnsAtMost_weaken 1); [lia | apply spawnsAtMost_executeCommand].
  - unfold Executor.attemptLintFix. destruct (_ || _); [|apply spawnsAtMost_ret].
    apply (spawnsAtMost_weaken 1); [lia | apply spawnsAtMost_executeCommand].
  - unfold Executor.attemptDeployFix.
    destruct (_ || _); [apply spawnsAtMost_ret|].
    destruct (_ || _); [|apply spawnsAtMost_ret].
    apply (spawnsAtMost_weaken 1); [lia | apply spawnsAtMost_executeCommand].
Qed.

Lemma spawnsAtMost_phaseWithFix (script : string) (k : nat)
    (fix_ : ExecutionResult -> M W ExecutionResult) :
  (forall r, spawnsAtMost k (fix_ r)) ->
  spawnsAtMost (2 + k) (Executor.phaseWithFix wd script fix_).
Proof.
  intro Hfix. unfold Executor.phaseWithFix.
  apply (spawnsAtMost_weaken (1 + (k + 1))); [lia|].
  apply spawnsAtMost_bind; [apply spawnsAtMost_executeCommand|].
  intro r. destruct (success r); [apply spawnsAtMost_ret|].
  apply spawnsAtMost_bind; [apply Hfix|].
  intro fixResult. destruct (success fixResult);
    [apply spawnsAtMost_executeCommand | apply spawnsAtMost_ret].
Qed.

Lemma spawnsAtMost_step (p : Phase) :
  spawnsAtMost 4 (Executor.phaseWithFix wd (scriptOf p) (classifier wd p)).
Proof. apply (spawnsAtMost_phaseWithFix _ 2). apply spawnsAtMost_classifier. Qed.

Lemma spawnsAtMost_light_step (p : Phase) :
  p <> Build ->
  spawnsAtMost 3 (Executor.phaseWithFix wd (scriptOf p) (classifier wd p)).
Proof.
  intro Hp. apply (spawnsAtMost_phaseWithFix _ 1). intro r.
  destruct p; [congruence| | |]; cbn [classifier].
  - unfold Executor.attemptSynthFix.
    destruct (_ || _); [apply spawnsAtMost_executeCommand | apply spawnsAtMost_ret].
  - unfold Executor.attemptLintFix.
    destruct (_ || _); [apply spawnsAtMost_executeCommand | apply spawnsAtMost_ret].
  - unfold Executor.attemptDeployFix.
    destruct (_ || _); [apply spawnsAtMost_ret|].
    destruct (_ || _); [apply spawnsAtMost_executeCommand | apply spawnsAtMost_ret].
Qed.

Lemma spawnsAtMost_failExit (attempt maxAttempts : nat) (n : nat)
    (results : PhaseResults ExecutionResult) (message : string) :
  spawnsAtMost n
    (if (attempt =? maxAttempts)%nat
     then ret (Executor.Return (Executor.mkBuildCycleResult false results (Some message)))
     else ret (W := W) (Executor.Continue results)).
Proof. destruct (attempt =? maxAttempts)%nat; apply spawnsAtMost_ret. Qed.

Lemma spawnsAtMost_passBody (attempt maxAttempts : nat)
    (results : PhaseResults ExecutionResult) :
  spawnsAtMost 13 (Executor.passBody wd attempt maxAttempts results).
Proof.
  unfold Executor.passBody, Executor.deployStep.
  apply (spawnsAtMost_bind 4 9); [apply (spawnsAtMost_step Build)|].
  intro b. destruct (negb (success b)); [apply spawnsAtMost_failExit|].
  apply (spawnsAtMost_bind 3 6); [apply (spawnsAtMost_light_step Synth); discriminate|].
  intro sy. destruct (negb (success sy)); [apply spawnsAtMost_failExit|].
  apply (spawnsAtMost_bind 3 3); [apply (spawnsAtMost_light_step Lint); discriminate|].
  intro l. destruct (negb (success l)); [apply spawnsAtMost_failExit|].
  apply (spawnsAtMost_bind 3 0).
  - apply (spawnsAtMost_bind 3 0);
      [apply (spawnsAtMost_light_step Deploy); discriminate | intro; apply spawnsAtMost_ret].
  - intro; apply spawnsAtMost_ret.
Qed.

Lemma spawnsAtMost_buildCycleLoop (fuel : nat) :
  forall attempt maxAttempts results,
    spawnsAtMost (13 * (maxAttempts - attempt))
      (Executor.buildCycleLoop wd fuel attempt maxAttempts results).
Proof.
  induction fuel as [|fuel IH]; intros attempt maxAttempts results;
    cbn [Executor.buildCycleLoop]; [apply spawnsAtMost_ret|].
  destruct (Nat.ltb_spec attempt maxAttempts); [|apply spawnsAtMost_ret].
  apply (spawnsAtMost_weaken (0 + (13 + 13 * (maxAttempts - S attempt)))); [lia|].
  apply spawnsAtMost_bind; [intro s; cbn; lia|].
  intros _. apply spawnsAtMost_bind; [apply spawnsAtMost_passBody|].
  intros [r|results']; [apply spawnsAtMost_ret | apply IH].
Qed.

End PipelineCommands.

(** X4: the local pipeline spawns no command outside a fixed list of
    ten: the four phase scripts, [npm install], [go mod tidy],
    [go mod download], [npx cdktf get], [gofmt -w .] and
    [npm run destroy]. *)
Theorem pipeline_spawns_known_commands_only :
  forall (W : Type) (wd : World W) (maxAttempts : nat) (s : State W),
    Forall (fun c => In c pipelineCommands)
      (spawned (eventsOf (Executor.executeBuildCycle wd maxAttempts s))).
Proof.
  intros W wd maxAttempts s. apply spawned_pipelineEvent.
  apply buildCycleLoop_pipelineEvent.
Qed.

(** X5: the local pipeline spawns at most 13 commands per pass, hence at
    most [13 * maxAttempts] commands in all. *)
Theorem pipeline_command_bound :
  forall (W : Type) (wd : World W) (maxAttempts : nat) (s : State W),
    length (spawned (eventsOf (Executor.executeBuildCycle wd maxAttempts s)))
    <= 13 * maxAttempts.
Proof.
  intros W wd maxAttempts s.
  pose proof (spawnsAtMost_buildCycleLoop wd maxAttempts 0 maxAttempts noResults s) as H.
  unfold Executor.executeBuildCycle. rewrite Nat.sub_0_r in H. exact H.
Qed.

(** The bound is reached: a pass in which every phase fails first and is
    repaired by its remedy. *)
Example thirteen_commands_in_one_pass :
  length (spawned (eventsOf (Executor.executeBuildCycle Script.scripted 1
     (Script.start
        [Script.Exit "" "go.mod: missing requirement" 1; Script.Exit "" "" 0;
         Script.Exit "" "" 0; Script.Exit "" "" 0;
         Script.Exit "" "run cdktf get first" 1; Script.Exit "" "" 0; Script.Exit "" "" 0;
         Script.Exit "" "gofmt: needs formatting" 1; Script.Exit "" "" 0; Script.Exit "" "" 0;
         Script.Exit "" "bucket already exists" 1; Script.Exit "" "" 0; Script.Exit "" "" 0]
        [])))) = 13.
Proof. reflexivity. Qed.

(** ** The teardown *)

Lemma teardownGuarded_app (a b : list Event) :
  teardownGuarded a -> teardownGuarded b -> teardownGuarded (a ++ b).
Proof.
  intros Ha Hb pre rd post Heq.
  apply app_eq_app in Heq. destruct Heq as (l & [[H1 H2]|[H1 H2]]).
  - destruct l as [|x l].
    + cbn in H2. rewrite app_nil_r in H1. subst a.
      destruct (Hb [] rd post (eq_sym H2)) as (pre' & r & Hpre & _).
      destruct pre'; discriminate.
    + cbn in H2. injection H2 as Hx Hpost. subst x.
      exact (Ha pre rd l H1).
  - destruct (Hb l rd post H2) as (pre' & r & Hl & Hr).
    exists (a ++ pre')%list, r. split; [|exact Hr].
    rewrite H1, Hl, app_assoc. reflexivity.
Qed.

Lemma teardownGuarded_silent (evs : list Event) :
  Forall notTeardown evs -> teardownGuarded evs.
Proof.
  intros Hall pre rd post Heq. exfalso.
  rewrite Heq in Hall. apply Forall_app in Hall. destruct Hall as [_ Hall].
  inversion Hall as [|x l Hx _]; subst. apply Hx. exists rd. reflexivity.
Qed.

Section TeardownFacts.
Context {W : Type} (wd : World W).

Lemma emitsGuarded_ret {A} (a : A) : emitsGuarded (ret (W := W) a).
Proof. intro s. apply teardownGuarded_silent. constructor. Qed.

Lemma emitsGuarded_bind {A B} (m : M W A) (f : A -> M W B) :
  emitsGuarded m -> (forall a, emitsGuarded (f a)) -> emitsGuarded (bind m f).
Proof.
  intros Hm Hf s. rewrite eventsOf_bind. apply teardownGuarded_app; [apply Hm | apply Hf].
Qed.

Lemma emitsGuarded_silent {A} (m : M W A) : emitsOnly notTeardown m -> emitsGuarded m.
Proof. intros Hm s. apply teardownGuarded_silent, Hm. Qed.

Lemma executeCommand_notTeardown (command : string) (args : list string) :
  (command, args) <> ("npm", ["run"; "destroy"]) ->
  emitsOnly notTeardown (Executor.executeCommand wd command args).
Proof.
  intro Hne. apply executeCommand_emits. intros r [rd Heq]. apply Hne.
  injection Heq as -> -> _. reflexivity.
Qed.

(** The steps before Deploy never tear down. *)
Lemma early_step_notTeardown (p : Phase) :
  p <> Deploy ->
  emitsOnly notTeardown (Executor.phaseWithFix wd (scriptOf p) (classifier wd p)).
Proof.
  intro Hp. unfold Executor.phaseWithFix.
  destruct p; [| | |congruence]; cbn [classifier scriptOf];
    unfold Executor.attemptBuildFix, Executor.attemptSynthFix, Executor.attemptLintFix;
    emits; apply executeCommand_notTeardown; discriminate.
Qed.

(** The Deploy step tears down only after a Deploy run that failed on a
    conflict. *)
Lemma deploy_step_guarded :
  emitsGuarded (Executor.phaseWithFix wd "deploy" (Executor.attemptDeployFix wd)).
Proof.
  intro s. unfold Executor.phaseWithFix.
  rewrite eventsOf_bind, executeCommand_events.
  set (r := valueOf (Executor.executeCommand wd "npm" ["run"; "deploy"] s)).
  set (s1 := stateOf (Executor.executeCommand wd "npm" ["run"; "deploy"] s)).
  destruct (success r) eqn:Hr.
  { apply teardownGuarded_silent. repeat constructor. intros [rd H]. discriminate H. }
  rewrite eventsOf_bind.
  destruct (remedyOffered Deploy (Executor.diagnosticText r)) eqn:Hoffer.
  - assert (Hfix : Executor.attemptDeployFix wd r s1
                   = Executor.executeCommand wd "npm" ["run"; "destroy"] s1).
    { unfold Executor.attemptDeployFix. cbn [remedyOffered] in Hoffer.
      apply andb_prop in Hoffer. destruct Hoffer as [Hcred Hconf].
      apply negb_true_iff in Hcred. rewrite Hcred, Hconf. reflexivity. }
    rewrite Hfix, executeCommand_events.
    set (rd := valueOf (Executor.executeCommand wd "npm" ["run"; "destroy"] s1)).
    assert (Hshape : forall tail, Forall notTeardown tail ->
               teardownGuarded
                 ([EvSpawn "npm" ["run"; "deploy"] r]
                    ++ [EvSpawn "npm" ["run"; "destroy"] rd] ++ tail)).
    { intros tail Htail pre rd' post Heq.
      destruct pre as [|x pre]; [discriminate Heq|].
      cbn in Heq. injection Heq as Hx Heq. subst x.
      destruct pre as [|y pre].
      - exists [], r. split; [reflexivity | split; assumption].
      - exfalso. cbn in Heq. injection Heq as _ Heq. rewrite Heq in Htail.
        apply Forall_app in Htail. destruct Htail as [_ Htail].
        inversion Htail as [|z l Hz _]; subst. apply Hz. exists rd'. reflexivity. }
    destruct (success rd).
    + rewrite executeCommand_events. apply Hshape. repeat constructor.
      intros [rd' H]. discriminate H.
    + apply Hshape. constructor.
  - destruct (classifier_idle wd Deploy r s1 Hoffer) as (fixResult & Hrun & Hfail).
    cbn [classifier] in Hrun. rewrite Hrun. cbn [valueOf eventsOf stateOf fst snd].
    rewrite Hfail. cbn. apply teardownGuarded_silent. repeat constructor.
    intros [rd H]. discriminate H.
Qed.

Lemma failExit_guarded (attempt maxAttempts : nat)
    (results : PhaseResults ExecutionResult) (message : string) :
  emitsGuarded
    (if (attempt =? maxAttempts)%nat
     then ret (Executor.Return (Executor.mkBuildCycleResult false results (Some message)))
     else ret (W := W) (Executor.Continue results)).
Proof. destruct (attempt =? maxAttempts)%nat; apply emitsGuarded_ret. Qed.

Lemma passBody_guarded (attempt maxAttempts : nat) (results : PhaseResults ExecutionResult) :
  emitsGuarded (Executor.passBody wd attempt maxAttempts results).
Proof.
  unfold Executor.passBody, Executor.deployStep.
  apply emitsGuarded_bind;
    [apply emitsGuarded_silent, (early_step_notTeardown Build); discriminate|].
  intro b. destruct (negb (success b)); [apply failExit_guarded|].
  apply emitsGuarded_bind;
    [apply emitsGuarded_silent, (early_step_notTeardown Synth); discriminate|].
  intro sy. destruct (negb (success sy)); [apply failExit_guarded|].
  apply emitsGuarded_bind;
    [apply emitsGuarded_silent, (early_step_notTeardown Lint); discriminate|].
  intro l. destruct (negb (success l)); [apply failExit_guarded|].
  apply emitsGuarded_bind; [|intro; apply emitsGuarded_ret].
  apply emitsGuarded_bind; [apply deploy_step_guarded | intro; apply emitsGuarded_ret].
Qed.

Lemma buildCycleLoop_guarded (fuel : nat) :
  forall attempt maxAttempts results,
    emitsGuarded (Executor.buildCycleLoop wd fuel attempt maxAttempts results).
Proof.
  induction fuel as [|fuel IH]; intros attempt maxAttempts results;
    cbn [Executor.buildCycleLoop]; [apply emitsGuarded_ret|].
  destruct (attempt <? maxAttempts)%nat; [|apply emitsGuarded_ret].
  apply emitsGuarded_bind.
  - intro s. apply teardownGuarded_silent. repeat constructor. intros [rd H]. discriminate H.
  - intros _. apply emitsGuarded_bind; [apply passBody_guarded|].
    intros [r|results']; [apply emitsGuarded_ret | apply IH].
Qed.

End TeardownFacts.

(** X6: the local pipeline runs the teardown [npm run destroy] only
    directly after a Deploy command that failed with a diagnostic text
    containing "already exists" or "conflict" and neither "credentials"
    nor "access denied"; no failure of Build, Synth or Lint ever tears
    anything down. *)
Theorem teardown_only_after_conflicting_deploy :
  forall (W : Type) (wd : World W) (maxAttempts : nat) (s : State W)
         (pre post : list Event) (rd : ExecutionResult),
    eventsOf (Executor.executeBuildCycle wd maxAttempts s)
    = (pre ++ EvSpawn "npm" ["run"; "destroy"] rd :: post)%list ->
    exists pre' r,
      pre = (pre' ++ [EvSpawn "npm" ["run"; "deploy"] r])%list
      /\ success r = false
      /\ (Js.includes (Executor.diagnosticText r) "already exists"
          || Js.includes (Executor.diagnosticText r) "conflict") = true
      /\ (Js.includes (Executor.diagnosticText r) "credentials"
          || Js.includes (Executor.diagnosticText r) "access denied") = false.
Proof.
  intros W wd maxAttempts s pre post rd Heq.
  destruct (buildCycleLoop_guarded wd maxAttempts 0 maxAttempts noResults s pre rd post Heq)
    as (pre' & r & Hpre & Hfail & Hoffer).
  exists pre', r. split; [exact Hpre|]. split; [exact Hfail|].
  cbn [remedyOffered] in Hoffer. apply andb_prop in Hoffer. destruct Hoffer as [Hcred Hconf].
  apply negb_true_iff in Hcred. split; assumption.
Qed.

(** The theorem on the run that tears down an existing bucket. *)
Lemma teardown_witness :
  let run := Executor.executeBuildCycle Script.scripted 3
               (Script.start
                  [Script.Exit "ok" "" 0; Script.Exit "ok" "" 0; Script.Exit "ok" "" 0;
                   Script.Exit "" "Error: bucket my-app-storage already exists" 1;
                   Script.Exit "destroyed" "" 0; Script.Exit "deployed" "" 0] []) in
  exists pre r post,
    eventsOf run
    = (pre ++ [EvSpawn "npm" ["run"; "deploy"] r]
           ++ EvSpawn "npm" ["run"; "destroy"]
                (mkExecutionResult true "destroyed" None 0) :: post)%list
    /\ success r = false.
Proof.
  cbn zeta.
  edestruct (teardown_only_after_conflicting_deploy Script.Tape Script.scripted 3
               (Script.start
                  [Script.Exit "ok" "" 0; Script.Exit "ok" "" 0; Script.Exit "ok" "" 0;
                   Script.Exit "" "Error: bucket my-app-storage already exists" 1;
                   Script.Exit "destroyed" "" 0; Script.Exit "deployed" "" 0] [])
               [EvPass 1;
                EvSpawn "npm" ["run"; "build"] (mkExecutionResult true "ok" None 0);
                EvSpawn "npm" ["run"; "synth"] (mkExecutionResult true "ok" None 0);
                EvSpawn "npm" ["run"; "lint"] (mkExecutionResult true "ok" None 0);
                EvSpawn "npm" ["run"; "deploy"]
                  (mkExecutionResult false "Error: bucket my-app-storage already exists"
                     (Some "Error: bucket my-app-storage already exists") 1)]
               [EvSpawn "npm" ["run"; "deploy"] (mkExecutionResult true "deployed" None 0)]
               (mkExecutionResult true "destroyed" None 0))
    as (pre' & r & Hpre & Hfail & _).
  - reflexivity.
  - exists pre', r, [EvSpawn "npm" ["run"; "deploy"] (mkExecutionResult true "deployed" None 0)].
    split; [|exact Hfail].
    rewrite app_assoc, <- Hpre. reflexivity.
Defined.

(** ** The outcome of the pipeline *)

Section OutcomeFacts.
Context {W : Type} (wd : World W).

(** What the pipeline returns from a pass it is allowed to make. *)
Lemma buildCycleLoop_outcome (fuel : nat) :
  forall attempt maxAttempts results (s : State W),
    attempt < maxAttempts -> maxAttempts - attempt <= fuel ->
    let run := Executor.buildCycleLoop wd fuel attempt maxAttempts results s in
    let r := valueOf run in
    if Executor.cycle_success r
    then Executor.finalError r = None
         /\ exists b sy l d,
              Executor.cycle_results r = mkPhaseResults (Some b) (Some sy) (Some l) (Some d)
              /\ success b = true /\ success sy = true /\ success l = true
    else length (passesOf (eventsOf run)) = maxAttempts - attempt
         /\ exists p e,
              p <> Deploy
              /\ Executor.finalError r = Some (failureMessage p)
              /\ resultOf p (Executor.cycle_results r) = Some e
              /\ success e = false.
Proof.
  induction fuel as [|fuel IH]; intros attempt maxAttempts results s Hlt Hfuel; [lia|].
  cbn zeta. cbn [Executor.buildCycleLoop].
  destruct (Nat.ltb_spec attempt maxAttempts) as [_|Hge]; [|lia].
  rewrite valueOf_bind, eventsOf_bind, eventsOf_emit, stateOf_emit.
  rewrite valueOf_bind, eventsOf_bind.
  pose proof (passBody_run wd (S attempt) maxAttempts results s) as Hpass.
  pose proof (passBody_emits wd (S attempt) maxAttempts results s) as Hspawn.
  set (body := Executor.passBody wd (S attempt) maxAttempts results s) in *.
  assert (Hsplit : forall rest,
             fst (splitPasses rest) = [] ->
             length (passesOf ([EvPass (S attempt)] ++ eventsOf body ++ rest))
             = S (length (passesOf rest))).
  { intros rest Hrest. unfold passesOf. cbn [app splitPasses].
    rewrite splitPasses_spawns by exact Hspawn. cbn [fst snd length]. reflexivity. }
  assert (Hcontinue : forall results',
             S attempt <> maxAttempts ->
             let run := Executor.buildCycleLoop wd fuel (S attempt) maxAttempts results'
                          (stateOf body) in
             if Executor.cycle_success (valueOf run)
             then Executor.finalError (valueOf run) = None
                  /\ exists b sy l d,
                       Executor.cycle_results (valueOf run)
                       = mkPhaseResults (Some b) (Some sy) (Some l) (Some d)
                       /\ success b = true /\ success sy = true /\ success l = true
             else length (passesOf ([EvPass (S attempt)] ++ eventsOf body ++ eventsOf run))
                  = maxAttempts - attempt
                  /\ exists p e,
                       p <> Deploy
                       /\ Executor.finalError (valueOf run) = Some (failureMessage p)
                       /\ resultOf p (Executor.cycle_results (valueOf run)) = Some e
                       /\ success e = false).
  { intros results' Hne. cbn zeta.
    specialize (IH (S attempt) maxAttempts results' (stateOf body)).
    cbn zeta in IH.
    destruct (buildCycleLoop_pass_count wd fuel (S attempt) maxAttempts results' (stateOf body))
      as [Hfst _].
    destruct (Executor.cycle_success _); [apply IH; lia|].
    destruct IH as [Hlen Hphase]; [lia | lia|].
    split; [|exact Hphase]. rewrite Hsplit by exact Hfst. lia. }
  assert (Hfailed : forall results' p e,
             p <> Deploy -> resultOf p results' = Some e -> success e = false ->
             let run := match failExit (S attempt) maxAttempts results' (failureMessage p) with
                        | Executor.Return r => ret r
                        | Executor.Continue results'' =>
                            Executor.buildCycleLoop wd fuel (S attempt) maxAttempts results''
                        end (stateOf body) in
             if Executor.cycle_success (valueOf run)
             then Executor.finalError (valueOf run) = None
                  /\ exists b sy l d,
                       Executor.cycle_results (valueOf run)
                       = mkPhaseResults (Some b) (Some sy) (Some l) (Some d)
                       /\ success b = true /\ success sy = true /\ success l = true
             else length (passesOf ([EvPass (S attempt)] ++ eventsOf body ++ eventsOf run))
                  = maxAttempts - attempt
                  /\ exists p e,
                       p <> Deploy
                       /\ Executor.finalError (valueOf run) = Some (failureMessage p)
                       /\ resultOf p (Executor.cycle_results (valueOf run)) = Some e
                       /\ success e = false).
  { intros results' p e Hp He Hfail. cbn zeta. unfold failExit.
    destruct (Nat.eqb_spec (S attempt) maxAttempts) as [Heq|Hne].
    - rewrite valueOf_ret, eventsOf_ret.
      cbn [Executor.cycle_success Executor.finalError Executor.cycle_results].
      split.
      + rewrite Hsplit by reflexivity. cbn. lia.
      + exists p, e. repeat split; assumption.
    - apply (Hcontinue results' Hne). }
  inversion Hpass as [b rB HB Hb Hx Hruns
                     | b sy rB rS HB Hb HS Hs Hx Hruns
                     | b sy l rB rS rL HB Hb HS Hs HL Hl Hx Hruns
                     | b sy l d rB rS rL rD HB Hb HS Hs HL Hl HD Hx Hruns].
  - apply (Hfailed _ Build b); [discriminate | reflexivity | exact Hb].
  - apply (Hfailed _ Synth sy); [discriminate | reflexivity | exact Hs].
  - apply (Hfailed _ Lint l); [discriminate | reflexivity | exact Hl].
  - rewrite valueOf_ret. cbn [Executor.cycle_success Executor.finalError Executor.cycle_results].
    split; [reflexivity|]. exists b, sy, l, d. repeat split; assumption.
Qed.

End OutcomeFacts.

(** X7: when the local pipeline, allowed at least one attempt, reports
    failure, it has made exactly [maxAttempts] passes, [finalError] names
    Build, Synth or Lint, and the entry of that phase in [results] is a
    failed result; the message "Build cycle failed after maximum attempts"
    is never returned. *)
Theorem pipeline_failure_names_phase :
  forall (W : Type) (wd : World W) (maxAttempts : nat) (s : State W),
    let run := Executor.executeBuildCycle wd maxAttempts s in
    1 <= maxAttempts ->
    Executor.cycle_success (valueOf run) = false ->
    length (passesOf (eventsOf run)) = maxAttempts
    /\ exists p e,
         p <> Deploy
         /\ Executor.finalError (valueOf run) = Some (failureMessage p)
         /\ resultOf p (Executor.cycle_results (valueOf run)) = Some e
         /\ success e = false.
Proof.
  intros W wd maxAttempts s run Hmax Hfail.
  pose proof (buildCycleLoop_outcome wd maxAttempts 0 maxAttempts noResults s) as H.
  cbn zeta in H. unfold run, Executor.executeBuildCycle in *.
  rewrite Hfail in H. rewrite Nat.sub_0_r in H. apply H; lia.
Qed.

(** The theorem on a Lint that fails in each of two passes. *)
Lemma pipeline_failure_witness :
  let run := Executor.executeBuildCycle Script.scripted 2
               (Script.start
                  [Script.Exit "" "" 0; Script.Exit "" "" 0; Script.Exit "" "unused variable" 1;
                   Script.Exit "" "" 0; Script.Exit "" "" 0; Script.Exit "" "unused variable" 1]
                  []) in
  1 <= 2
  /\ Executor.cycle_success (valueOf run) = false
  /\ length (passesOf (eventsOf run)) = 2
  /\ Executor.finalError (valueOf run) = Some "Lint phase failed after all attempts".
Proof.
  cbn zeta. split; [lia|]. split; [reflexivity|].
  destruct (pipeline_failure_names_phase Script.Tape Script.scripted 2
              (Script.start
                 [Script.Exit "" "" 0; Script.Exit "" "" 0; Script.Exit "" "unused variable" 1;
                  Script.Exit "" "" 0; Script.Exit "" "" 0; Script.Exit "" "unused variable" 1]
                 []))
    as (Hlen & _).
  - lia.
  - reflexivity.
  - split; [exact Hlen | reflexivity].
Defined.

(** X8: when the local pipeline reports success, [results] has all four
    entries, the entries of Build, Synth and Lint are successful results
    (the Deploy entry may be a failure) and there is no [finalError]. *)
Theorem pipeline_success_entries :
  forall (W : Type) (wd : World W) (maxAttempts : nat) (s : State W),
    let r := valueOf (Executor.executeBuildCycle wd maxAttempts s) in
    Executor.cycle_success r = true ->
    Executor.finalError r = None
    /\ exists b sy l d,
         Executor.cycle_results r = mkPhaseResults (Some b) (Some sy) (Some l) (Some d)
         /\ success b = true /\ success sy = true /\ success l = true.
Proof.
  intros W wd maxAttempts s r Hok.
  destruct maxAttempts as [|n]; [discriminate Hok|].
  pose proof (buildCycleLoop_outcome wd (S n) 0 (S n) noResults s) as H.
  cbn zeta in H. unfold r, Executor.executeBuildCycle in *.
  rewrite Hok in H. apply H; lia.
Qed.

(** The theorem on the run whose Build is repaired by [npm install]. *)
Lemma pipeline_success_witness :
  let r := valueOf (Executor.executeBuildCycle Script.scripted 3
                      (Script.start [Script.Exit "" "Cannot find module 'x'" 1] [])) in
  Executor.cycle_success r = true
  /\ option_map success (build (Executor.cycle_results r)) = Some true.
Proof.
  cbn zeta. split; [reflexivity|].
  destruct (pipeline_success_entries Script.Tape Script.scripted 3
              (Script.start [Script.Exit "" "Cannot find module 'x'" 1] []) eq_refl)
    as (_ & b & sy & l & d & Hres & Hb & _).
  rewrite Hres. cbn. rewrite Hb. reflexivity.
Defined.

(** * Further properties of the remote backend *)

Section RemoteExtras.
Context {W : Type} (wd : World W) (config : MCPServer.MCPServerConfig).

Lemma executeRemoteCommand_disconnected (command : string) (cwd : option string)
    (s : State W) :
  connected s = false ->
  MCPServer.executeRemoteCommand wd config command cwd s
  = (Throw (Js.ErrorObject "SSH not connected"), [], s).
Proof.
  intro Hc. unfold MCPServer.executeRemoteCommand, bind, getConnected.
  rewrite Hc. reflexivity.
Qed.

Lemma collectOutputs_keys (files : list string) :
  forall (outputs : Outputs) (s : State W),
    match valueOf (MCPServer.collectOutputs wd config files outputs s) with
    | Normal outputs' =>
        exists mask, map fst outputs' = (map fst outputs ++ select mask files)%list
    | Throw _ => True
    end.
Proof.
  induction files as [|file files IH]; intros outputs s.
  - cbn. exists []. rewrite app_nil_r. reflexivity.
  - cbn [MCPServer.collectOutputs]. rewrite valueOf_bindE.
    destruct (valueOf (MCPServer.executeRemoteCommand wd config _ None s))
      as [checkResult|e]; [|exact I].
    set (s1 := stateOf _).
    assert (Hskip : match valueOf (MCPServer.collectOutputs wd config files outputs s1) with
                    | Normal outputs' =>
                        exists mask,
                          map fst outputs' = (map fst outputs ++ select mask (file :: files))%list
                    | Throw _ => True
                    end).
    { intros. specialize (IH outputs s1).
      destruct (valueOf (MCPServer.collectOutputs wd config files outputs s1)); [|exact I].
      destruct IH as [mask Hmask]. exists (false :: mask). exact Hmask. }
    assert (Hkeep : forall value s2,
               match valueOf (MCPServer.collectOutputs wd config files
                                (outputs ++ [(file, value)])%list s2) with
               | Normal outputs' =>
                   exists mask,
                     map fst outputs' = (map fst outputs ++ select mask (file :: files))%list
               | Throw _ => True
               end).
    { intros value s2. specialize (IH (outputs ++ [(file, value)])%list s2).
      destruct (valueOf (MCPServer.collectOutputs wd config files _ s2)); [|exact I].
      destruct IH as [mask Hmask]. exists (true :: mask).
      rewrite Hmask, map_app, <- app_assoc. reflexivity. }
    destruct (code checkResult =? 0)%Z; [|exact Hskip].
    destruct (Js.endsWith file "/").
    + rewrite valueOf_bindE.
      destruct (valueOf (MCPServer.executeRemoteCommand wd config _ None s1)); [|exact I].
      apply Hkeep.
    + rewrite valueOf_bindE.
      destruct (valueOf (MCPServer.executeRemoteCommand wd config _ None s1))
        as [catResult|e]; [|exact I].
      destruct (code catResult =? 0)%Z; [apply Hkeep|].
      set (s2 := stateOf _).
      specialize (IH outputs s2).
      destruct (valueOf (MCPServer.collectOutputs wd config files outputs s2)); [|exact I].
      destruct IH as [mask Hmask]. exists (false :: mask). exact Hmask.
Qed.

End RemoteExtras.

(** X9: without an open session the remote operations do nothing: the
    remote pipeline returns a failure with the error "SSH not connected"
    and empty results, the collection of outputs returns the empty
    mapping, and the upload of a non-empty file set and the environment
    bootstrap throw that error; none of them reaches the server or
    changes the state. *)
Theorem remote_operations_need_connection :
  forall (W : Type) (wd : World W) (config : MCPServer.MCPServerConfig) (s : State W)
         (path content : string) (files : Files),
    connected s = false ->
    MCPServer.executeRemoteBuildCycle wd config s
    = (MCPServer.mkRemoteBuildResult false noResults (Some "SSH not connected"), [], s)
    /\ MCPServer.downloadDeploymentOutputs wd config s = ([], [], s)
    /\ MCPServer.uploadGeneratedCode wd config ((path, content) :: files) s
       = (Throw (Js.ErrorObject "SSH not connected"), [], s)
    /\ MCPServer.setupRemoteEnvironment wd config s
       = (Throw (Js.ErrorObject "SSH not connected"), [], s).
Proof.
  intros W wd config s path content files Hc.
  repeat split.
  - unfold MCPServer.executeRemoteBuildCycle, MCPServer.remotePhases, bindE, bind.
    rewrite executeRemoteCommand_disconnected by exact Hc. reflexivity.
  - unfold MCPServer.downloadDeploymentOutputs, MCPServer.outputFiles.
    cbn [MCPServer.collectOutputs]. unfold bindE, bind.
    rewrite executeRemoteCommand_disconnected by exact Hc. reflexivity.
  - cbn [MCPServer.uploadGeneratedCode]. unfold bindE, bind.
    rewrite executeRemoteCommand_disconnected by exact Hc. reflexivity.
  - unfold MCPServer.setupRemoteEnvironment, MCPServer.cloneRepository, bindE, bind.
    rewrite executeRemoteCommand_disconnected by exact Hc. reflexivity.
Qed.

(** The theorem on a server that was never connected. *)
Lemma remote_operations_witness :
  connected (Script.start [] []) = false
  /\ MCPServer.remote_error
       (valueOf (MCPServer.executeRemoteBuildCycle Script.scripted Script.server
                   (Script.start [] [])))
     = Some "SSH not connected".
Proof.
  split; [reflexivity|].
  destruct (remote_operations_need_connection Script.Tape Script.scripted Script.server
              (Script.start [] []) "cdk.json" "{}" [] eq_refl) as (H & _).
  rewrite H. reflexivity.
Defined.

(** X10: the keys of the mapping [downloadDeploymentOutputs] returns are
    some of "cfn-outputs/", "cdk-stacks.json" and "terraform.tfstate",
    each at most once and in this order. *)
Theorem downloaded_keys_are_the_known_locations :
  forall (W : Type) (wd : World W) (config : MCPServer.MCPServerConfig) (s : State W),
    exists mask,
      map fst (valueOf (MCPServer.downloadDeploymentOutputs wd config s))
      = select mask MCPServer.outputFiles.
Proof.
  intros W wd config s. unfold MCPServer.downloadDeploymentOutputs.
  rewrite valueOf_bind.
  pose proof (collectOutputs_keys wd config MCPServer.outputFiles [] s) as H.
  destruct (valueOf (MCPServer.collectOutputs wd config MCPServer.outputFiles [] s)).
  - exact H.
  - exists []. reflexivity.
Qed.

(** X11: the outputs collected from the server meet the expectations
    exactly when they have an entry for the directory "cfn-outputs/" or
    for the file "cdk-stacks.json"; an entry for "terraform.tfstate"
    alone never meets them. *)
Theorem downloaded_outputs_meet_expectations_iff :
  forall (W : Type) (wd : World W) (config : MCPServer.MCPServerConfig) (s : State W)
         (originalPrompt : string),
    let outputs := valueOf (MCPServer.downloadDeploymentOutputs wd config s) in
    IaCAgent.checkDeploymentExpectations originalPrompt outputs = true
    <-> (In "cfn-outputs/" (map fst outputs) \/ In "cdk-stacks.json" (map fst outputs)).
Proof.
  intros W wd config s originalPrompt outputs.
  assert (Hkeys : exists mask, map fst outputs = select mask MCPServer.outputFiles).
  { unfold outputs, MCPServer.downloadDeploymentOutputs. rewrite valueOf_bind.
    pose proof (collectOutputs_keys wd config MCPServer.outputFiles [] s) as H.
    destruct (valueOf (MCPServer.collectOutputs wd config MCPServer.outputFiles [] s));
      [exact H | exists []; reflexivity]. }
  destruct Hkeys as [mask Hmask].
  assert (Hcheck : IaCAgent.checkDeploymentExpectations originalPrompt outputs
                   = existsb IaCAgent.successIndicator (map fst outputs))
    by (destruct outputs; reflexivity).
  rewrite Hcheck, Hmask. unfold MCPServer.outputFiles.
  assert (Hnil : forall m : list bool, select m (@nil string) = [])
    by (intros [|b m]; reflexivity).
  destruct mask as [|[|] [|[|] [|[|] mask]]]; cbn; rewrite ?Hnil; cbn;
    (split; intro H;
     [ try discriminate H;
       solve [ left; repeat (first [left; reflexivity | right])
             | right; repeat (first [left; reflexivity | right]) ]
     | try reflexivity;
       exfalso; destruct H as [H|H];
       repeat (destruct H as [H|H]; try discriminate H); exact H ]).
Qed.

Ltac remote_call :=
  match goal with
  | |- context [MCPServer.executeRemoteCommand ?wd ?cfg ?c ?cwd ?s] =>
      let r := fresh "r" in
      let e := fresh "e" in
      let ev := fresh "ev" in
      let s' := fresh "s" in
      let Hc := fresh "Hcode" in
      destruct (MCPServer.executeRemoteCommand wd cfg c cwd s) as [[[r|e] ev] s'];
      cbv beta iota;
      [destruct (code r =? 0)%Z eqn:Hc; cbn [negb]|]
  end.

(** X12: in the value of the remote pipeline the recorded entries form a
    prefix of Build, Synth, Lint, Deploy: an entry is present only when
    the entry of the phase before it is present with exit code 0; the
    pipeline reports success exactly when the Deploy entry is present
    with exit code 0, and it carries an error text exactly when it
    reports failure. *)
Theorem remote_results_form_a_prefix :
  forall (W : Type) (wd : World W) (config : MCPServer.MCPServerConfig) (s : State W),
    let r := valueOf (MCPServer.executeRemoteBuildCycle wd config s) in
    (forall p q e, predPhase q = Some p ->
                   resultOf q (MCPServer.remote_results r) = Some e ->
                   exists e', resultOf p (MCPServer.remote_results r) = Some e'
                              /\ code e' = 0%Z)
    /\ (MCPServer.remote_success r = true
        <-> exists d, deploy (MCPServer.remote_results r) = Some d /\ code d = 0%Z)
    /\ (MCPServer.remote_success r = true <-> MCPServer.remote_error r = None).
Proof.
  intros W wd config s. cbn zeta.
  unfold MCPServer.executeRemoteBuildCycle, MCPServer.remotePhases, bindE, bind.
  repeat remote_call; cbn [valueOf fst snd ret];
    cbn [MCPServer.remote_results MCPServer.remote_success MCPServer.remote_error
         noResults setBuild setSynth setLint setDeploy build synth lint deploy];
    (split; [|split]).
  all: try (intros p q x Hpred Hq; destruct q; cbn in Hpred; try discriminate Hpred;
            injection Hpred as <-; cbn in Hq |- *; try discriminate Hq;
            eexists; (split; [reflexivity | apply Z.eqb_eq; assumption])).
  all: try (split; [intros _; eexists; (split; [reflexivity | apply Z.eqb_eq; assumption])
                   | reflexivity]).
  all: try (split; [discriminate |]; intros (d & Hd & Hzero); try discriminate Hd;
            injection Hd as <-; apply Z.eqb_eq in Hzero; congruence).
  all: try (split; reflexivity).
  all: try (split; discriminate).
Qed.

Section DeliveryFacts.
Context {W : Type} (wd : World W).

Lemma writtenPaths_app (a b : list Event) :
  writtenPaths (a ++ b) = (writtenPaths a ++ writtenPaths b)%list.
Proof.
  induction a as [|e a IH]; cbn [app writtenPaths]; [reflexivity|].
  destruct e; cbn [app]; rewrite ?IH; reflexivity.
Qed.

Lemma uploadedPaths_app (a b : list Event) :
  uploadedPaths (a ++ b) = (uploadedPaths a ++ uploadedPaths b)%list.
Proof.
  induction a as [|e a IH]; cbn [app uploadedPaths]; [reflexivity|].
  destruct e; cbn [app]; rewrite ?IH; reflexivity.
Qed.

Lemma uploadedPaths_remote (server : MCPServer.MCPServerConfig) (command : string)
    (cwd : option string) (s : State W) :
  uploadedPaths (eventsOf (MCPServer.executeRemoteCommand wd server command cwd s)) = [].
Proof.
  destruct (executeRemoteCommand_run wd server command cwd s) as [(-> & _)|(-> & _)];
    reflexivity.
Qed.

End DeliveryFacts.

(** X13: [writeGeneratedFiles] writes the files in the order of the file
    set and stops at the first write that fails: what has been written is
    an initial segment of the file set, the whole set exactly when the
    method completes, and a proper part, left on disk, when it throws. *)
Theorem written_files_are_an_initial_segment :
  forall (W : Type) (wd : World W) (outputPath : string) (files : Files) (s : State W),
    let run := IaCGenerator.writeGeneratedFiles wd outputPath files s in
    exists k,
      writtenPaths (eventsOf run) = firstn k (map fst files)
      /\ match valueOf run with
         | Normal _ => k = length files
         | Throw _ => k < length files
         end.
Proof.
  intros W wd outputPath files. induction files as [|[filePath content] files IH]; intro s.
  - exists 0. split; reflexivity.
  - cbn zeta. cbn [IaCGenerator.writeGeneratedFiles].
    rewrite valueOf_bind, eventsOf_bind.
    set (w := call (fsWriteFile wd (pathJoin wd outputPath filePath) content) s).
    assert (Hw : eventsOf w = []).
    { unfold w, call, eventsOf. destruct (fsWriteFile wd _ _ (world s)); reflexivity. }
    rewrite Hw. cbn [app].
    destruct (valueOf w) as [e|].
    + exists 0. split; [reflexivity | cbn; lia].
    + rewrite valueOf_bind, eventsOf_bind, eventsOf_emit, stateOf_emit.
      destruct (IH (stateOf w)) as (k & Hk & Hv). cbn zeta in Hk, Hv.
      exists (S k). cbn [app writtenPaths map fst firstn length]. rewrite Hk.
      split; [reflexivity|].
      destruct (valueOf (IaCGenerator.writeGeneratedFiles wd outputPath files (stateOf w)));
        lia.
Qed.

Section UploadFacts.
Context {W : Type} (wd : World W).

Lemma eventsOf_call {A} (f : W -> A * W) (s : State W) : eventsOf (call f s) = [].
Proof. unfold call, eventsOf. destruct (f (world s)). reflexivity. Qed.

Lemma removeTemp_events (tempFile : string) (s : State W) :
  eventsOf (MCPServer.removeTemp wd tempFile s)
  = [EvRemove tempFile (valueOf (MCPServer.removeTemp wd tempFile s))].
Proof.
  unfold MCPServer.removeTemp, bind, call, emit, ret, eventsOf, valueOf.
  destruct (fsRemove wd tempFile (world s)). reflexivity.
Qed.

End UploadFacts.

(** X14: [uploadGeneratedCode] uploads the files in the order of the file
    set: what has been uploaded is an initial segment of the file set, the
    whole set when the method completes.  When it throws, a proper part
    has been uploaded and is left on the server, unless the error is that
    of a removal of a temporary file: the method also throws when the
    file was transferred and its temporary copy could not be removed. *)
Theorem uploaded_files_are_an_initial_segment :
  forall (W : Type) (wd : World W) (config : MCPServer.MCPServerConfig)
         (files : Files) (s : State W),
    let run := MCPServer.uploadGeneratedCode wd config files s in
    exists k,
      uploadedPaths (eventsOf run) = firstn k (map fst files)
      /\ k <= length files
      /\ match valueOf run with
         | Normal _ => k = length files
         | Throw e => k < length files \/ cleanupFailed e (eventsOf run)
         end.
Proof.
  intros W wd config files. induction files as [|[filePath content] files IH]; intro s.
  - exists 0. cbn. repeat split; lia.
  - cbn zeta. cbn [MCPServer.uploadGeneratedCode].
    rewrite valueOf_bindE, eventsOf_bindE, uploadedPaths_app, uploadedPaths_remote.
    cbn [app].
    destruct (valueOf (MCPServer.executeRemoteCommand wd config _ None s)) as [made|e].
    2:{ exists 0. cbn. split; [reflexivity|]. split; [lia|]. left. lia. }
    set (s1 := stateOf _).
    set (tempFile := pathJoin wd "/tmp" (pathBasename wd filePath)).
    rewrite valueOf_bind, eventsOf_bind, eventsOf_call. cbn [app].
    set (w := call (fsWriteTemp wd tempFile content) s1).
    destruct (valueOf w) as [e|].
    { exists 0. cbn. split; [reflexivity|]. split; [lia|]. left. lia. }
    rewrite valueOf_bind, eventsOf_bind, eventsOf_emit, stateOf_emit.
    rewrite valueOf_bind, eventsOf_bind, eventsOf_call. cbn [app uploadedPaths].
    set (p := call (sshPutFile wd tempFile _) (stateOf w)).
    destruct (valueOf p) as [e|].
    { rewrite valueOf_bind, eventsOf_bind, removeTemp_events, valueOf_ret, eventsOf_ret.
      exists 0. cbn. split; [reflexivity|]. split; [lia|]. left. lia. }
    rewrite valueOf_bind, eventsOf_bind, eventsOf_emit, stateOf_emit.
    rewrite valueOf_bind, eventsOf_bind, removeTemp_events.
    cbn [app uploadedPaths].
    set (r := MCPServer.removeTemp wd tempFile (stateOf p)).
    destruct (valueOf r) as [e|].
    + rewrite valueOf_bind, eventsOf_bind, removeTemp_events, valueOf_ret, eventsOf_ret.
      exists 1. cbn [app uploadedPaths firstn map fst length].
      split; [reflexivity|]. split; [lia|].
      right. exists tempFile. apply in_or_app. right. cbn. auto.
    + destruct (IH (stateOf r)) as (k & Hk & Hle & Hv). cbn zeta in Hk, Hle, Hv.
      exists (S k). cbn [firstn map fst length]. rewrite Hk.
      split; [reflexivity|]. split; [lia|].
      destruct (valueOf (MCPServer.uploadGeneratedCode wd config files (stateOf r))) as [u|e].
      * lia.
      * destruct Hv as [Hlt|(path & Hin)]; [left; lia|].
        right. exists path. apply in_or_app. right. cbn [app]. do 3 right. exact Hin.
Qed.

(** The method can throw with every file uploaded: the file is
    transferred and the removal of its temporary copy fails. *)
Example upload_throws_after_the_last_file :
  let run := MCPServer.uploadGeneratedCode busyFiles Script.server [("cdk.json", "{}")]
               (mkState (Script.mkTape [] []) true) in
  valueOf run = Throw (Js.ErrorObject "EBUSY: resource busy or locked")
  /\ uploadedPaths (eventsOf run) = ["cdk.json"].
Proof. cbn zeta. split; reflexivity. Qed.

(** X15: [disconnect] always leaves the session closed, does not touch
    the world, disposes the session only when it was open and is
    idempotent; [connect] opens the session when the connection succeeds
    and leaves the flag as it was when it throws. *)
Theorem session_flag_protocol :
  forall (W : Type) (wd : World W) (s : State W),
    connected (stateOf (MCPServer.disconnect s)) = false
    /\ world (stateOf (MCPServer.disconnect s)) = world s
    /\ eventsOf (MCPServer.disconnect s) = (if connected s then [EvDisconnect] else [])
    /\ MCPServer.disconnect (stateOf (MCPServer.disconnect s))
       = (tt, [], stateOf (MCPServer.disconnect s))
    /\ match valueOf (MCPServer.connect wd s) with
       | Normal _ => connected (stateOf (MCPServer.connect wd s)) = true
       | Throw _ => connected (stateOf (MCPServer.connect wd s)) = connected s
       end.
Proof.
  intros W wd s.
  unfold MCPServer.disconnect, MCPServer.connect, bind, getConnected, setConnected, emit,
    call, ret, valueOf, eventsOf, stateOf.
  destruct s as [w c]. cbn [connected world].
  repeat split; try (destruct c; reflexivity).
  destruct (sshConnect wd w) as [[e|] w']; reflexivity.
Qed.

(** * Further properties of the validation *)

Lemma flat_map_nil {A B} (f : A -> list B) (l : list A) :
  (forall x, In x l -> f x = []) -> flat_map f l = [].
Proof.
  induction l as [|x l IH]; intro H; cbn; [reflexivity|].
  rewrite (H x) by (left; reflexivity). apply IH. intros y Hy. apply H. right. exact Hy.
Qed.

Lemma truthy_nonempty (s : string) : Js.truthy s = true <-> s <> "".
Proof. destruct s; cbn; split; congruence. Qed.

(** X16: [validateGeneratedCode] accepts a file set exactly when each of
    lib/tap_stack.go, bin/tap.go and cdk.json is present with non-empty
    content, every file whose path ends in ".go" contains "package ", and
    the content of cdk.json parses as JSON; it accepts exactly when it
    returns no error message. *)
Theorem validation_accepts_iff :
  forall (W : Type) (wd : World W) (files : Files),
    (fst (IaCGenerator.validateGeneratedCode wd files) = true
     <-> (forall file, In file IaCGenerator.requiredFiles ->
                       exists content, lookupFile files file = Some content /\ content <> "")
         /\ (forall path content, In (path, content) files ->
                                  Js.endsWith path ".go" = true ->
                                  Js.includes content "package " = true)
         /\ (forall content, lookupFile files "cdk.json" = Some content ->
                             jsonParses wd content = true))
    /\ (fst (IaCGenerator.validateGeneratedCode wd files) = true
        <-> snd (IaCGenerator.validateGeneratedCode wd files) = []).
Proof.
  intros W wd files. split.
  - split.
    + intro Hvalid. split; [|split].
      * intros file Hin.
        destruct (IaCGenerator.missing files file) eqn:Hmissing.
        -- pose proof (validation_fails_on_error wd files _
                         (missing_file_is_reported wd files file Hin Hmissing)). congruence.
        -- unfold IaCGenerator.missing in Hmissing.
           destruct (lookupFile files file) as [content|]; [|discriminate].
           exists content. split; [reflexivity|].
           apply truthy_nonempty. apply negb_false_iff. exact Hmissing.
      * intros path content Hin Hgo.
        destruct (Js.includes content "package ") eqn:Hpkg; [reflexivity|].
        pose proof (validation_fails_on_error wd files _
                      (missing_package_is_reported wd files path content Hin Hgo Hpkg)).
        congruence.
      * intros content Hlookup.
        destruct (jsonParses wd content) eqn:Hparse; [reflexivity|].
        assert (Hinvalid : structurallyInvalid wd files)
          by (right; right; exists content; split; assumption).
        pose proof (structurallyInvalid_fails wd files Hinvalid). congruence.
    + intros (Hrequired & Hgo & Hjson).
      assert (Hpresent : forall file, In file IaCGenerator.requiredFiles ->
                                      IaCGenerator.missing files file = false).
      { intros file Hin. destruct (Hrequired file Hin) as (content & Hlookup & Hne).
        unfold IaCGenerator.missing. rewrite Hlookup.
        apply negb_false_iff, truthy_nonempty. exact Hne. }
      unfold IaCGenerator.validateGeneratedCode, IaCGenerator.validationErrors. cbn [fst].
      assert (H1 : IaCGenerator.requiredFileErrors files = []).
      { apply flat_map_nil. intros file Hin. rewrite (Hpresent file Hin). reflexivity. }
      assert (H2 : IaCGenerator.goSyntaxErrors files = []).
      { apply flat_map_nil. intros [path content] Hin. cbn [fst snd].
        destruct (Js.endsWith path ".go") eqn:Hext; [|reflexivity].
        rewrite (Hgo path content Hin Hext). reflexivity. }
      assert (H3 : IaCGenerator.cdkJsonErrors wd files = []).
      { unfold IaCGenerator.cdkJsonErrors.
        destruct (IaCGenerator.missing files "cdk.json"); [reflexivity|].
        destruct (lookupFile files "cdk.json") as [content|] eqn:Hlookup; [|reflexivity].
        rewrite (Hjson content eq_refl). reflexivity. }
      rewrite H1, H2, H3. reflexivity.
  - unfold IaCGenerator.validateGeneratedCode. cbn [fst snd].
    destruct (IaCGenerator.validationErrors wd files); split; congruence.
Qed.

(** * Further properties of the outer loop *)

Lemma prefix_refl (p : string) : String.prefix p p = true.
Proof.
  induction p as [|c p IH]; cbn; [reflexivity|].
  destruct (ascii_dec c c); [exact IH | congruence].
Qed.

Lemma prefix_trans (a : string) :
  forall b c, String.prefix a b = true -> String.prefix b c = true ->
              String.prefix a c = true.
Proof.
  induction a as [|x a IH]; intros b c Hab Hbc; [destruct c; reflexivity|].
  destruct b as [|y b]; [discriminate Hab|].
  destruct c as [|z c]; [discriminate Hbc|].
  cbn in *.
  destruct (ascii_dec x y) as [->|]; [|discriminate].
  destruct (ascii_dec y z) as [->|]; [|discriminate].
  exact (IH b c Hab Hbc).
Qed.

(** Close a path through the iteration for [cycleBody_record]. *)
Ltac record_done :=
  cbv beta iota; cbn [valueOf eventsOf fst snd ret];
  match goal with
  | |- context [(_ ++ [?x])%list] => exists x
  end;
  unfold recordSound;
  cbn [IaCAgent.cycle IaCAgent.withError IaCAgent.withGeneration IaCAgent.withBuild
       IaCAgent.withOutputs IaCAgent.withSuccess IaCAgent.deploymentOutputs
       IaCAgent.buildResult IaCAgent.cr_success IaCAgent.cr_error
       IaCAgent.generationResult exitResults];
  repeat split; intros; try discriminate; try reflexivity; try lia;
  try (apply prefix_refl); try (apply prefix_app); eauto.

Section RecordFacts.
Context {W : Type} (wd : World W) (config : IaCAgent.AgentConfig).

Lemma cycleBody_record (request : IaCGenerator.GenerationRequest) (cycle : nat)
    (currentPrompt : string) (results : list IaCAgent.CycleResult) (s : State W) :
  let run := IaCAgent.cycleBody wd config request cycle currentPrompt results s in
  exists r,
    IaCAgent.cycle r = cycle
    /\ exitResults (valueOf run) = (results ++ [r])%list
    /\ recordSound wd config r
    /\ match valueOf run with
       | IaCAgent.NextCycle _ prompt' => String.prefix currentPrompt prompt' = true
       | IaCAgent.Break _ => True
       end.
Proof.
  cbn zeta. unfold IaCAgent.cycleBody, IaCAgent.tryBlock, IaCGenerator.generateCDKTFGoCode.
  unfold bind, emit, call.
  destruct (generationService wd _ _ (world s)) as [gen w1].
  destruct (gen_success gen) eqn:Hgen; cbn [negb].
  2:{ record_done. }
  destruct (fst (IaCGenerator.validateGeneratedCode wd (gen_files gen))) eqn:Hval; cbn [negb].
  2:{ record_done. }
  destruct (IaCAgent.deliverFiles wd config (gen_files gen) _) as [[[u|e] ev1] s2] eqn:Hdel.
  2:{ destruct (Nat.ltb_spec cycle (IaCAgent.maxCycles config)); record_done. }
  destruct (IaCAgent.runBuildCycle wd config s2) as [[br ev2] s3] eqn:Hbuild.
  assert (Hvalue : valueOf (IaCAgent.runBuildCycle wd config s2) = br)
    by (rewrite Hbuild; reflexivity).
  destruct (match br with
            | Some b => negb (IaCAgent.buildSucceeded b)
            | None => true
            end) eqn:Hbr.
  { destruct (Nat.ltb_spec cycle (IaCAgent.maxCycles config)); record_done.
    match goal with Hb : br = Some _ |- _ => rewrite Hb in Hbr end.
    cbn in Hbr. apply negb_true_iff. exact Hbr. }
  destruct br as [b|]; [|discriminate Hbr].
  apply negb_false_iff in Hbr.
  destruct (match IaCAgent.remoteServer config with
            | Some server => MCPServer.downloadDeploymentOutputs wd server
            | None => ret []
            end s3) as [[outs ev3] s4].
  destruct (IaCAgent.checkDeploymentExpectations (IaCGenerator.prompt request) outs).
  { record_done. }
  destruct (cycle <? IaCAgent.maxCycles config)%nat; record_done.
Qed.

(** The records and the prompts of the loop. *)
Lemma agentLoop_records (request : IaCGenerator.GenerationRequest) (fuel : nat) :
  forall cycle currentPrompt results (s : State W),
    let run := IaCAgent.agentLoop wd config fuel request cycle currentPrompt results s in
    (exists records,
        valueOf run = (results ++ records)%list /\ Forall (recordSound wd config) records)
    /\ Forall (fun p => String.prefix currentPrompt p = true) (promptsOf (eventsOf run)).
Proof.
  induction fuel as [|fuel IH]; intros cycle currentPrompt results s; cbn zeta.
  - split; [exists []; rewrite app_nil_r; split; [reflexivity | constructor] | constructor].
  - cbn [IaCAgent.agentLoop].
    destruct (cycle <=? IaCAgent.maxCycles config)%nat.
    2:{ split; [exists []; rewrite app_nil_r; split; [reflexivity | constructor]
                | constructor]. }
    rewrite valueOf_bind, eventsOf_bind, eventsOf_emit, stateOf_emit.
    rewrite valueOf_bind, eventsOf_bind.
    destruct (cycleBody_record request cycle currentPrompt results s)
      as (r & _ & Hresults & Hsound & Hprompt).
    destruct (cycleBody_spec wd config request cycle currentPrompt results s)
      as (r' & _ & Hprompts & _).
    cbn zeta in Hresults, Hprompt, Hprompts.
    set (body := IaCAgent.cycleBody wd config request cycle currentPrompt results s) in *.
    cbn [app promptsOf]. rewrite promptsOf_app, Hprompts.
    destruct (valueOf body) as [results' prompt'|results']; cbn [exitResults] in Hresults.
    + destruct (IH (S cycle) prompt' results' (stateOf body)) as [(records & Hv & Hall) Hpre].
      cbn zeta in Hv, Hpre. split.
      * exists (r :: records). rewrite Hv, Hresults, <- app_assoc. split; [reflexivity|].
        constructor; assumption.
      * cbn [app]. constructor; [apply prefix_refl|].
        eapply Forall_impl; [|exact Hpre].
        intros p Hp. cbn beta in Hp. exact (prefix_trans _ _ _ Hprompt Hp).
    + rewrite valueOf_ret, eventsOf_ret. split.
      * exists [r]. split; [exact Hresults | constructor; [exact Hsound | constructor]].
      * cbn. constructor; [apply prefix_refl | constructor].
Qed.

End RecordFacts.

Section RunExtras.
Context {W : Type} (wd : World W) (config : IaCAgent.AgentConfig)
        (request : IaCGenerator.GenerationRequest).

(** The run seen through its session setup and its loop. *)
Lemma executeAgentCycle_parts (s : State W) :
  let run := IaCAgent.executeAgentCycle wd config request s in
  let loop := IaCAgent.agentLoop wd config (IaCAgent.maxCycles config) request 1
                (IaCGenerator.prompt request) [] (stateOf (openSession wd config s)) in
  match valueOf (openSession wd config s) with
  | Normal _ =>
      valueOf run = Normal (valueOf loop)
      /\ eventsOf run
         = (eventsOf (openSession wd config s) ++ eventsOf loop
              ++ eventsOf (closeSession config (stateOf loop)))%list
  | Throw e =>
      valueOf run = Throw e /\ eventsOf run = eventsOf (openSession wd config s)
  end.
Proof.
  cbn zeta. unfold IaCAgent.executeAgentCycle.
  fold (openSession wd config). fold (closeSession (W := W) config).
  rewrite valueOf_bindE, eventsOf_bindE.
  destruct (valueOf (openSession wd config s)) as [[]|e].
  - rewrite !valueOf_bind, !eventsOf_bind, valueOf_ret, eventsOf_ret, app_nil_r.
    split; reflexivity.
  - rewrite app_nil_r. split; reflexivity.
Qed.

Lemma agentLoop_emits (P : Event -> Prop) (fuel : nat) :
  (forall cycle, P (EvCycle cycle)) ->
  (forall cycle currentPrompt results,
      emitsOnly P (IaCAgent.cycleBody wd config request cycle currentPrompt results)) ->
  forall cycle currentPrompt results,
    emitsOnly P (IaCAgent.agentLoop wd config fuel request cycle currentPrompt results).
Proof.
  intros Hcycle Hbody.
  induction fuel as [|fuel IH]; intros cycle currentPrompt results;
    cbn [IaCAgent.agentLoop]; [apply emitsOnly_ret|].
  destruct (cycle <=? IaCAgent.maxCycles config)%nat; [|apply emitsOnly_ret].
  apply emitsOnly_bind; [apply emitsOnly_emit, Hcycle|]. intros _.
  apply emitsOnly_bind; [apply Hbody|].
  intros [results' prompt'|results']; [apply IH | apply emitsOnly_ret].
Qed.

Lemma cycleBody_emits (P : Event -> Prop) :
  (forall p c, P (EvGenerate p c)) ->
  (forall files, emitsOnly P (IaCAgent.deliverFiles wd config files)) ->
  emitsOnly P (IaCAgent.runBuildCycle wd config) ->
  (forall server, IaCAgent.remoteServer config = Some server ->
                  emitsOnly P (MCPServer.downloadDeploymentOutputs wd server)) ->
  forall cycle currentPrompt results,
    emitsOnly P (IaCAgent.cycleBody wd config request cycle currentPrompt results).
Proof.
  intros Hgen Hdeliver Hbuild Hdownload cycle currentPrompt results.
  unfold IaCAgent.cycleBody, IaCAgent.tryBlock, IaCGenerator.generateCDKTFGoCode.
  destruct (IaCAgent.remoteServer config) as [server|] eqn:Hserver;
    emits; try apply Hgen; try apply Hdeliver; try apply Hbuild.
Qed.

Lemma executeAgentCycle_emits (P : Event -> Prop) :
  (forall cycle, P (EvCycle cycle)) ->
  emitsOnly P (openSession wd config) ->
  emitsOnly P (closeSession (W := W) config) ->
  (forall cycle currentPrompt results,
      emitsOnly P (IaCAgent.cycleBody wd config request cycle currentPrompt results)) ->
  emitsOnly P (IaCAgent.executeAgentCycle wd config request).
Proof.
  intros Hcycle Hopen Hclose Hbody. unfold IaCAgent.executeAgentCycle.
  fold (openSession wd config). fold (closeSession (W := W) config).
  apply emitsOnly_bindE; [exact Hopen|]. intros _.
  apply emitsOnly_bind; [apply agentLoop_emits; assumption|]. intros records.
  apply emitsOnly_bind; [exact Hclose | intro; apply emitsOnly_ret].
Qed.

End RunExtras.

(** A record marked successful comes from a pipeline run that returned a
    build result. *)
Lemma successful_record_was_built {W : Type} (wd : World W) (config : IaCAgent.AgentConfig)
    (request : IaCGenerator.GenerationRequest) (s : State W) :
  Forall (fun r => IaCAgent.cr_success r = true ->
                   exists b s', valueOf (IaCAgent.runBuildCycle wd config s') = Some b)
    (recordsOf (valueOf (IaCAgent.executeAgentCycle wd config request s))).
Proof.
  pose proof (executeAgentCycle_parts wd config request s) as H. cbn zeta in H.
  destruct (valueOf (openSession wd config s)).
  - destruct H as [-> _]. cbn [recordsOf].
    destruct (agentLoop_records wd config request (IaCAgent.maxCycles config) 1
                (IaCGenerator.prompt request) [] (stateOf (openSession wd config s)))
      as [(records & Hv & Hall) _].
    cbn zeta in Hv. rewrite Hv.
    eapply Forall_impl; [|exact Hall].
    intros r [Hok _] Hsuccess.
    destruct (Hok Hsuccess) as (_ & _ & _ & b & s' & _ & _ & Hvalue).
    exists b, s'. exact Hvalue.
  - destruct H as [-> _]. constructor.
Qed.

(** X17: in every record of a run the fields agree: a record marked
    successful carries a build result that the pipeline returned with
    [success: true], the collected outputs (possibly empty), a generation
    result and no error text; a record marked failed carries no outputs,
    and it carries no error text only when the pipeline failed while
    cycle budget was left. *)
Theorem cycle_records_are_consistent :
  forall (W : Type) (wd : World W) (config : IaCAgent.AgentConfig)
         (request : IaCGenerator.GenerationRequest) (s : State W),
    Forall (recordSound wd config)
      (recordsOf (valueOf (IaCAgent.executeAgentCycle wd config request s))).
Proof.
  intros W wd config request s.
  pose proof (executeAgentCycle_parts wd config request s) as H. cbn zeta in H.
  destruct (valueOf (openSession wd config s)).
  - destruct H as [-> _]. cbn [recordsOf].
    destruct (agentLoop_records wd config request (IaCAgent.maxCycles config) 1
                (IaCGenerator.prompt request) [] (stateOf (openSession wd config s)))
      as [(records & Hv & Hall) _].
    cbn zeta in Hv. rewrite Hv. exact Hall.
  - destruct H as [-> _]. constructor.
Qed.

(** X18: the prompt of the request is an initial part of every prompt a
    run sends to the generation service: the fix, improvement and
    recovery prompts only append to the prompt of the cycle before. *)
Theorem every_prompt_extends_the_original :
  forall (W : Type) (wd : World W) (config : IaCAgent.AgentConfig)
         (request : IaCGenerator.GenerationRequest) (s : State W),
    Forall (fun p => String.prefix (IaCGenerator.prompt request) p = true)
      (promptsOf (eventsOf (IaCAgent.executeAgentCycle wd config request s))).
Proof.
  intros W wd config request s.
  pose proof (executeAgentCycle_parts wd config request s) as H. cbn zeta in H.
  pose proof (promptsOf_backend _ (openSession_backend wd config s)) as Hopen.
  destruct (valueOf (openSession wd config s)).
  - destruct H as [_ ->].
    rewrite !promptsOf_app, Hopen.
    rewrite (promptsOf_backend _ (closeSession_backend config _)).
    rewrite app_nil_r. cbn [app].
    apply (agentLoop_records wd config request).
  - destruct H as [_ ->]. rewrite Hopen. constructor.
Qed.

Section BackendSeparation.
Context {W : Type} (wd : World W) (config : IaCAgent.AgentConfig)
        (request : IaCGenerator.GenerationRequest).

Lemma local_run_is_local :
  IaCAgent.executionMode config = IaCAgent.LocalMode ->
  emitsOnly localOnly (IaCAgent.executeAgentCycle wd config request).
Proof.
  intro Hmode.
  assert (Hserver : IaCAgent.remoteServer config = None)
    by (unfold IaCAgent.remoteServer; rewrite Hmode; reflexivity).
  apply executeAgentCycle_emits.
  - intro; exact I.
  - unfold openSession. rewrite Hserver. apply emitsOnly_ret.
  - unfold closeSession. rewrite Hserver. apply emitsOnly_ret.
  - apply cycleBody_emits.
    + intros; exact I.
    + intro files. unfold IaCAgent.deliverFiles. rewrite Hmode.
      induction files as [|[filePath content] files IH];
        cbn [IaCGenerator.writeGeneratedFiles]; emits; try exact IH.
    + unfold IaCAgent.runBuildCycle. rewrite Hmode. emits.
      eapply emitsOnly_weaken; [|apply buildCycleLoop_pipelineEvent].
      intros [] He; try contradiction; exact I.
    + intros server H. congruence.
Qed.

Lemma executeRemoteCommand_remoteOnly (server : MCPServer.MCPServerConfig)
    (command : string) (cwd : option string) :
  emitsOnly remoteOnly (MCPServer.executeRemoteCommand wd server command cwd).
Proof. apply executeRemoteCommand_emits. intro; exact I. Qed.

Lemma remote_run_is_remote :
  IaCAgent.executionMode config = IaCAgent.RemoteMode ->
  emitsOnly remoteOnly (IaCAgent.executeAgentCycle wd config request).
Proof.
  intro Hmode.
  apply executeAgentCycle_emits.
  - intro; exact I.
  - unfold openSession, MCPServer.connect, MCPServer.setupRemoteEnvironment,
      MCPServer.cloneRepository, MCPServer.installDependencies,
      MCPServer.setupEnvironmentVariables.
    emits; apply executeRemoteCommand_remoteOnly.
  - unfold closeSession, MCPServer.disconnect. emits.
  - apply cycleBody_emits.
    + intros; exact I.
    + intro files. unfold IaCAgent.deliverFiles. rewrite Hmode.
      destruct (IaCAgent.mcpServer config) as [server|]; [|apply emitsOnly_ret].
      induction files as [|[filePath content] files IH];
        cbn [MCPServer.uploadGeneratedCode]; emits;
        try apply executeRemoteCommand_remoteOnly;
        try (apply removeTemp_emits; intro; exact I); try exact IH.
    + unfold IaCAgent.runBuildCycle. rewrite Hmode.
      destruct (IaCAgent.mcpServer config) as [server|]; [|apply emitsOnly_ret].
      unfold MCPServer.executeRemoteBuildCycle. emits.
      eapply emitsOnly_weaken; [|apply remotePhases_emits].
      intros [] He; try contradiction; exact I.
    + intros server _. unfold MCPServer.downloadDeploymentOutputs. emits.
      generalize (@nil (string * OutputValue)).
      induction MCPServer.outputFiles as [|file files IH]; intro outputs;
        cbn [MCPServer.collectOutputs]; emits;
        try apply executeRemoteCommand_remoteOnly; apply IH.
Qed.

End BackendSeparation.

(** X19: the two backends never mix: a run in local mode neither
    connects nor sends a remote command nor uploads a file, and it writes
    and removes no temporary file; a run in remote mode spawns no local
    process, starts no pass of the local pipeline and writes no file under
    the output path (the temporary copies of the upload are its only local
    files). *)
Theorem backends_never_mix :
  forall (W : Type) (wd : World W) (config : IaCAgent.AgentConfig)
         (request : IaCGenerator.GenerationRequest) (s : State W),
    let events := eventsOf (IaCAgent.executeAgentCycle wd config request s) in
    (IaCAgent.executionMode config = IaCAgent.LocalMode -> Forall localOnly events)
    /\ (IaCAgent.executionMode config = IaCAgent.RemoteMode -> Forall remoteOnly events).
Proof.
  intros W wd config request s. cbn zeta. split; intro Hmode.
  - apply local_run_is_local. exact Hmode.
  - apply remote_run_is_remote. exact Hmode.
Qed.

(** The theorem on a remote run and on a local run. *)
Lemma separate_backends_witness :
  spawned (eventsOf (IaCAgent.executeAgentCycle Script.scripted (Script.remoteConfig 1)
                       Script.request
                       (Script.start [] [Script.generated Script.validFiles]))) = []
  /\ remoteCommands (eventsOf (IaCAgent.executeAgentCycle Script.scripted (Script.localConfig 1)
                                 Script.request
                                 (Script.start [] [Script.generated Script.validFiles]))) = [].
Proof.
  destruct (backends_never_mix Script.Tape Script.scripted (Script.remoteConfig 1)
              Script.request (Script.start [] [Script.generated Script.validFiles]))
    as [_ Hremote].
  destruct (backends_never_mix Script.Tape Script.scripted (Script.localConfig 1)
              Script.request (Script.start [] [Script.generated Script.validFiles]))
    as [Hlocal _].
  specialize (Hremote eq_refl). specialize (Hlocal eq_refl).
  split.
  - revert Hremote. generalize (eventsOf (IaCAgent.executeAgentCycle Script.scripted
                                  (Script.remoteConfig 1) Script.request
                                  (Script.start [] [Script.generated Script.validFiles]))).
    induction 1 as [|e evs He _ IH]; [reflexivity|].
    destruct e; try contradiction; exact IH.
  - revert Hlocal. generalize (eventsOf (IaCAgent.executeAgentCycle Script.scripted
                                 (Script.localConfig 1) Script.request
                                 (Script.start [] [Script.generated Script.validFiles]))).
    induction 1 as [|e evs He _ IH]; [reflexivity|].
    destruct e; try contradiction; exact IH.
Defined.

(** X20: in remote mode without a server configuration a run never
    opens a session and reaches no backend: it calls the generation
    service in each of its [maxCycles] cycles, delivers nothing, runs no
    pipeline, and every record is a failure. *)
Theorem remote_mode_without_server_only_generates :
  forall (W : Type) (wd : World W) (config : IaCAgent.AgentConfig)
         (request : IaCGenerator.GenerationRequest) (s : State W),
    let run := IaCAgent.executeAgentCycle wd config request s in
    IaCAgent.executionMode config = IaCAgent.RemoteMode ->
    IaCAgent.mcpServerConfig config = None ->
    Forall generationOnly (eventsOf run)
    /\ exists records,
         valueOf run = Normal records
         /\ length records = IaCAgent.maxCycles config
         /\ Forall (fun r => IaCAgent.cr_success r = false) records.
Proof.
  intros W wd config request s run Hmode Hnone.
  assert (Hmcp : IaCAgent.mcpServer config = None)
    by (unfold IaCAgent.mcpServer; rewrite Hmode; exact Hnone).
  assert (Hserver : IaCAgent.remoteServer config = None)
    by (unfold IaCAgent.remoteServer; rewrite Hmode; exact Hmcp).
  assert (Hbuild : forall s', IaCAgent.runBuildCycle wd config s' = (None, [], s'))
    by (intro s'; unfold IaCAgent.runBuildCycle; rewrite Hmode, Hmcp; reflexivity).
  split.
  - apply executeAgentCycle_emits.
    + intro; exact I.
    + unfold openSession. rewrite Hserver. apply emitsOnly_ret.
    + unfold closeSession. rewrite Hserver. apply emitsOnly_ret.
    + apply cycleBody_emits.
      * intros; exact I.
      * intro files. unfold IaCAgent.deliverFiles. rewrite Hmode, Hmcp. apply emitsOnly_ret.
      * unfold IaCAgent.runBuildCycle. rewrite Hmode, Hmcp. apply emitsOnly_ret.
      * intros server H. congruence.
  - pose proof (executeAgentCycle_run wd config request s) as Hrun. cbn zeta in Hrun.
    pose proof (successful_record_was_built wd config request s) as Hsound.
    fold run in Hrun, Hsound.
    destruct (valueOf run) as [records|e].
    2:{ exfalso. apply (openSession_throws wd config s e Hrun). exact Hserver. }
    destruct Hrun as [_ Hrun]. cbn [recordsOf] in Hsound.
    assert (Hfailed : Forall (fun r => IaCAgent.cr_success r = false) records).
    { eapply Forall_impl; [|exact Hsound]. intros r Hok. cbn beta in Hok.
      destruct (IaCAgent.cr_success r); [|reflexivity].
      destruct (Hok eq_refl) as (b & s' & Hvalue).
      rewrite Hbuild in Hvalue. discriminate Hvalue. }
    exists records. split; [reflexivity|]. split; [|exact Hfailed].
    destruct (LoopRun_lengths _ _ _ _ _ _ Hrun) as [Hle _].
    destruct (Nat.lt_ge_cases (length records) (IaCAgent.maxCycles config)) as [Hlt|Hge];
      [|lia].
    exfalso.
    destruct (LoopRun_early_stop _ _ _ _ _ _ Hrun) as (r & Hnth & Hterm); [lia|].
    apply nth_error_In in Hnth.
    rewrite Forall_forall in Hfailed. specialize (Hfailed r Hnth).
    unfold terminating in Hterm. rewrite Hfailed in Hterm. discriminate Hterm.
Qed.

(** The theorem on a remote run of two cycles without server
    configuration. *)
Lemma remote_mode_without_server_witness :
  let config := IaCAgent.mkAgentConfig "generated" None 2 IaCAgent.RemoteMode in
  let run := IaCAgent.executeAgentCycle Script.scripted config Script.request
               (Script.start [] [Script.generated Script.validFiles;
                                 Script.generated Script.validFiles]) in
  IaCAgent.executionMode config = IaCAgent.RemoteMode
  /\ IaCAgent.mcpServerConfig config = None
  /\ map IaCAgent.cr_error (recordsOf (valueOf run))
     = [None; Some "Build cycle failed: Unknown error"].
Proof.
  cbn zeta. split; [reflexivity|]. split; [reflexivity|].
  destruct (remote_mode_without_server_only_generates Script.Tape Script.scripted
              (IaCAgent.mkAgentConfig "generated" None 2 IaCAgent.RemoteMode) Script.request
              (Script.start [] [Script.generated Script.validFiles;
                                Script.generated Script.validFiles])
              eq_refl eq_refl) as (_ & records & Hv & _).
  rewrite Hv. cbn [recordsOf]. revert Hv. vm_compute. intro Hv.
  injection Hv as <-. reflexivity.
Defined.

(** * The fix prompt after a remote pipeline *)

(** X21: after a run of the remote pipeline the fix prompt carries no
    diagnostic text: the entries of the remote pipeline have neither a
    success flag nor an error or output property, so [fixContext] is one
    line "<Phase> error: undefined" for each recorded entry, in the order
    of the phases, whether its command failed or not. *)
Theorem remote_fix_prompt_has_no_diagnostics :
  forall (W : Type) (wd : World W) (config : MCPServer.MCPServerConfig) (s : State W),
    let r := valueOf (MCPServer.executeRemoteBuildCycle wd config s) in
    exists n,
      n <= 4
      /\ IaCAgent.fixContext (Some (IaCAgent.RemoteBuild r))
         = String.concat "" (firstn n undefinedLines)
      /\ (forall p, resultOf p (MCPServer.remote_results r) <> None <-> phaseIndex p < n).
Proof.
  intros W wd config s. cbn zeta.
  unfold MCPServer.executeRemoteBuildCycle, MCPServer.remotePhases, bindE, bind.
  repeat remote_call; cbn [valueOf fst snd ret];
    unfold IaCAgent.fixContext, IaCAgent.fixLine, IaCAgent.phaseEntry;
    cbn [MCPServer.remote_results noResults setBuild setSynth setLint setDeploy
         build synth lint deploy option_map IaCAgent.entryFailed IaCAgent.entryText];
    first
      [ exists 4; split; [lia|]; split; [reflexivity|];
        intros []; cbn; split; intro; solve [lia | congruence | discriminate]
      | exists 3; split; [lia|]; split; [reflexivity|];
        intros []; cbn; split; intro; solve [lia | congruence | discriminate]
      | exists 2; split; [lia|]; split; [reflexivity|];
        intros []; cbn; split; intro; solve [lia | congruence | discriminate]
      | exists 1; split; [lia|]; split; [reflexivity|];
        intros []; cbn; split; intro; solve [lia | congruence | discriminate]
      | exists 0; split; [lia|]; split; [reflexivity|];
        intros []; cbn; split; intro; solve [lia | congruence | discriminate] ].
Qed.

(** * The calls of the generation service *)

Lemma contextsOf_app (a b : list Event) :
  contextsOf (a ++ b) = (contextsOf a ++ contextsOf b)%list.
Proof.
  induction a as [|e a IH]; cbn [app contextsOf]; [reflexivity|].
  destruct e; cbn [app]; rewrite ?IH; reflexivity.
Qed.

Lemma contextsOf_backend (evs : list Event) :
  Forall isBackend evs -> contextsOf evs = [].
Proof.
  induction 1 as [|e evs He _ IH]; cbn [contextsOf]; [reflexivity|].
  destruct e; cbv in He; try discriminate He; exact IH.
Qed.

Section GenerationCalls.
Context {W : Type} (wd : World W) (config : IaCAgent.AgentConfig)
        (request : IaCGenerator.GenerationRequest).

Lemma backend_contexts {A} (m : M W A) (s : State W) (v : A) (e : list Event)
    (s' : State W) :
  emitsOnly isBackend m -> m s = (v, e, s') -> contextsOf e = [].
Proof.
  intros Hm Hrun. specialize (Hm s). rewrite Hrun in Hm.
  apply contextsOf_backend. exact Hm.
Qed.

Ltac contexts_done :=
  cbv beta iota; cbn [eventsOf fst snd ret app contextsOf];
  rewrite ?contextsOf_app;
  repeat match goal with H : contextsOf _ = [] |- _ => rewrite H; clear H end;
  reflexivity.

Lemma cycleBody_contexts (cycle : nat) (currentPrompt : string)
    (results : list IaCAgent.CycleResult) (s : State W) :
  contextsOf (eventsOf (IaCAgent.cycleBody wd config request cycle currentPrompt results s))
  = [cycleContext request cycle].
Proof.
  unfold IaCAgent.cycleBody, IaCAgent.tryBlock, IaCGenerator.generateCDKTFGoCode,
    cycleContext.
  unfold bind, emit, call.
  destruct (generationService wd _ _ (world s)) as [gen w1].
  destruct (gen_success gen); cbn [negb].
  2:{ contexts_done. }
  destruct (fst (IaCGenerator.validateGeneratedCode wd (gen_files gen))); cbn [negb].
  2:{ contexts_done. }
  destruct (IaCAgent.deliverFiles wd config (gen_files gen) _) as [[[u|e] ev1] s2] eqn:Hdel;
    pose proof (backend_contexts _ _ _ _ _ (deliverFiles_backend wd config _) Hdel) as Hp1.
  2:{ destruct (cycle <? IaCAgent.maxCycles config)%nat; contexts_done. }
  destruct (IaCAgent.runBuildCycle wd config s2) as [[br ev2] s3] eqn:Hbuild;
    pose proof (backend_contexts _ _ _ _ _ (runBuildCycle_backend wd config) Hbuild) as Hp2.
  destruct (match br with
            | Some b => negb (IaCAgent.buildSucceeded b)
            | None => true
            end).
  { destruct (cycle <? IaCAgent.maxCycles config)%nat; contexts_done. }
  assert (Hout : forall s0 a e1 s1,
             match IaCAgent.remoteServer config with
             | Some server => MCPServer.downloadDeploymentOutputs wd server
             | None => ret []
             end s0 = (a, e1, s1) ->
             contextsOf e1 = []).
  { intros s0 a e1 s1.
    destruct (IaCAgent.remoteServer config) as [server|].
    - intro H.
      exact (backend_contexts _ _ _ _ _ (downloadDeploymentOutputs_backend wd server) H).
    - intro H. injection H as _ <- _. reflexivity. }
  destruct (match IaCAgent.remoteServer config with
            | Some server => MCPServer.downloadDeploymentOutputs wd server
            | None => ret []
            end s3) as [[outs ev3] s4] eqn:Hdown.
  pose proof (Hout _ _ _ _ Hdown) as Hp3. clear Hout.
  destruct (IaCAgent.checkDeploymentExpectations (IaCGenerator.prompt request) outs).
  { contexts_done. }
  destruct (cycle <? IaCAgent.maxCycles config)%nat; contexts_done.
Qed.

Lemma agentLoop_contexts (fuel : nat) :
  forall cycle currentPrompt results (s : State W),
    let run := IaCAgent.agentLoop wd config fuel request cycle currentPrompt results s in
    exists records,
      valueOf run = (results ++ records)%list
      /\ contextsOf (eventsOf run)
         = map (cycleContext request) (seq cycle (length records)).
Proof.
  induction fuel as [|fuel IH]; intros cycle currentPrompt results s; cbn zeta.
  - exists []. rewrite app_nil_r. split; reflexivity.
  - cbn [IaCAgent.agentLoop].
    destruct (cycle <=? IaCAgent.maxCycles config)%nat.
    2:{ exists []. rewrite app_nil_r. split; reflexivity. }
    rewrite valueOf_bind, eventsOf_bind, eventsOf_emit, stateOf_emit.
    rewrite valueOf_bind, eventsOf_bind.
    destruct (cycleBody_record wd config request cycle currentPrompt results s)
      as (r & _ & Hresults & _).
    pose proof (cycleBody_contexts cycle currentPrompt results s) as Hcontexts.
    cbn zeta in Hresults.
    set (body := IaCAgent.cycleBody wd config request cycle currentPrompt results s) in *.
    cbn [app contextsOf]. rewrite contextsOf_app, Hcontexts.
    destruct (valueOf body) as [results' prompt'|results']; cbn [exitResults] in Hresults.
    + destruct (IH (S cycle) prompt' results' (stateOf body)) as (records & Hv & Hc).
      cbn zeta in Hv, Hc. subst results'.
      exists (r :: records). rewrite Hv, <- app_assoc. split; [reflexivity|].
      rewrite Hc. reflexivity.
    + exists [r]. rewrite valueOf_ret, eventsOf_ret. split; [exact Hresults | reflexivity].
Qed.

End GenerationCalls.

(** X22: a run calls the generation service exactly once in every cycle
    it records, and not at all when the session setup throws; the call of
    cycle 1 carries the context of the request and the call of a later
    cycle [k] carries the retry context of [k] in its place. *)
Theorem generation_called_once_per_cycle :
  forall (W : Type) (wd : World W) (config : IaCAgent.AgentConfig)
         (request : IaCGenerator.GenerationRequest) (s : State W),
    let run := IaCAgent.executeAgentCycle wd config request s in
    contextsOf (eventsOf run)
    = map (cycleContext request) (seq 1 (length (recordsOf (valueOf run)))).
Proof.
  intros W wd config request s. cbn zeta.
  pose proof (executeAgentCycle_parts wd config request s) as H. cbn zeta in H.
  pose proof (contextsOf_backend _ (openSession_backend wd config s)) as Hopen.
  destruct (valueOf (openSession wd config s)).
  - destruct H as [-> ->]. cbn [recordsOf].
    rewrite !contextsOf_app, Hopen.
    rewrite (contextsOf_backend _ (closeSession_backend config _)).
    rewrite app_nil_r. cbn [app].
    destruct (agentLoop_contexts wd config request (IaCAgent.maxCycles config) 1
                (IaCGenerator.prompt request) [] (stateOf (openSession wd config s)))
      as (records & Hv & Hc).
    cbn zeta in Hv, Hc. rewrite Hc, Hv. reflexivity.
  - destruct H as [-> ->]. rewrite Hopen. reflexivity.
Qed.

(** * The bootstrap of the remote environment *)

Section BootstrapFacts.
Context {W : Type} (wd : World W) (config : MCPServer.MCPServerConfig).

Lemma failsOnlyByThrow_ret {A} (a : A) : failsOnlyByThrow (ret (W := W) (Normal a)).
Proof. intros s Hc. split; [exact Hc | constructor]. Qed.

Lemma failsOnlyByThrow_bindE {A B} (m : M W (Completion A))
    (k : A -> M W (Completion B)) :
  failsOnlyByThrow m -> (forall a, failsOnlyByThrow (k a)) ->
  failsOnlyByThrow (bindE m k).
Proof.
  intros Hm Hk s Hc.
  rewrite stateOf_bindE, valueOf_bindE, eventsOf_bindE.
  destruct (Hm s Hc) as [Hc1 Hv].
  destruct (valueOf (m s)) as [a|e].
  - destruct (Hk a _ Hc1) as [Hc2 Hv2]. split; [exact Hc2|].
    destruct (valueOf (k a (stateOf (m s)))) as [b|e].
    + apply Forall_app. split; assumption.
    + destruct Hv2 as (pre & command & -> & Hpre).
      exists (eventsOf (m s) ++ pre)%list, command. rewrite app_assoc.
      split; [reflexivity|]. apply Forall_app. split; assumption.
  - split; [exact Hc1|]. rewrite app_nil_r. exact Hv.
Qed.

Lemma failsOnlyByThrow_command (command : string) (cwd : option string) :
  failsOnlyByThrow (MCPServer.executeRemoteCommand wd config command cwd).
Proof.
  intros s Hc.
  destruct (executeRemoteCommand_run wd config command cwd s)
    as [(_ & Hclosed & _)|(Hev & _ & Hopen)]; [congruence|].
  split; [exact Hopen|]. rewrite Hev, (executeRemoteCommand_value wd config _ _ _ Hc).
  destruct (serverAnswer wd config command cwd s) as [r|e]; cbn [reported].
  - constructor; [exact I | constructor].
  - exists [], command. split; [reflexivity | constructor].
Qed.

Ltac blind :=
  repeat first
    [ apply failsOnlyByThrow_ret
    | apply failsOnlyByThrow_command
    | apply failsOnlyByThrow_bindE; [|intro; cbv beta]
    | match goal with
      | |- failsOnlyByThrow (if ?b then _ else _) => destruct b
      | |- failsOnlyByThrow (match ?x with _ => _ end) => destruct x
      end ].

Lemma setupRemoteEnvironment_blind :
  failsOnlyByThrow (MCPServer.setupRemoteEnvironment wd config).
Proof.
  unfold MCPServer.setupRemoteEnvironment, MCPServer.cloneRepository,
    MCPServer.installDependencies, MCPServer.setupEnvironmentVariables.
  blind.
Qed.

End BootstrapFacts.

(** X23: on an open session the bootstrap of the remote environment
    looks at no exit code except those of its [test] commands: it fails
    only when a remote command throws, that command being the last one it
    sent, and it completes whenever every command returns, whatever [git
    pull], [git clone], [npm install] or [go mod] exited with; it starts
    with the test for the repository and leaves the session open. *)
Theorem bootstrap_fails_only_by_throw :
  forall (W : Type) (wd : World W) (config : MCPServer.MCPServerConfig) (s : State W),
    let run := MCPServer.setupRemoteEnvironment wd config s in
    connected s = true ->
    connected (stateOf run) = true
    /\ (exists rest,
          remoteCommands (eventsOf run)
          = ("test -d " ++ MCPServer.workingDirectory config ++ "/.git") :: rest)
    /\ match valueOf run with
       | Normal _ => Forall completed (eventsOf run)
       | Throw e => exists pre command,
                      eventsOf run = (pre ++ [EvRemote command (Throw e)])%list
                      /\ Forall completed pre
       end.
Proof.
  intros W wd config s run Hc.
  destruct (setupRemoteEnvironment_blind wd config s Hc) as [Hopen Hshape].
  split; [exact Hopen|]. split; [|exact Hshape].
  unfold run, MCPServer.setupRemoteEnvironment, MCPServer.cloneRepository.
  rewrite !eventsOf_bindE.
  destruct (executeRemoteCommand_run wd config
              ("test -d " ++ MCPServer.workingDirectory config ++ "/.git") None s)
    as [(_ & Hclosed & _)|(Hev & _)]; [congruence|].
  rewrite Hev. cbn [app remoteCommands]. eexists. reflexivity.
Qed.

(** The theorem on a bootstrap whose [git clone] exits with 128. *)
Lemma bootstrap_witness :
  let start := mkState (Script.mkTape [Script.Exit "" "" 1; Script.Exit "" "" 0;
                                       Script.Exit "" "fatal: repository not found" 128]
                          []) true in
  let run := MCPServer.setupRemoteEnvironment Script.scripted Script.server start in
  connected start = true
  /\ connected (stateOf run) = true
  /\ valueOf run = Normal tt.
Proof.
  cbn zeta. split; [reflexivity|].
  destruct (bootstrap_fails_only_by_throw Script.Tape Script.scripted Script.server
              (mkState (Script.mkTape [Script.Exit "" "" 1; Script.Exit "" "" 0;
                                       Script.Exit "" "fatal: repository not found" 128]
                          []) true) eq_refl) as (Hopen & _).
  split; [exact Hopen|]. vm_compute. reflexivity.
Defined.

(** * The session around the cycles *)

Section KeepsSession.
Context {W : Type}.

Lemma keepsSession_ret {A} (a : A) : keepsSession (ret (W := W) a).
Proof. intro s. reflexivity. Qed.

Lemma keepsSession_bind {A B} (m : M W A) (f : A -> M W B) :
  keepsSession m -> (forall a, keepsSession (f a)) -> keepsSession (bind m f).
Proof. intros Hm Hf s. rewrite stateOf_bind, Hf, Hm. reflexivity. Qed.

Lemma keepsSession_bindE {A B} (m : M W (Completion A)) (f : A -> M W (Completion B)) :
  keepsSession m -> (forall a, keepsSession (f a)) -> keepsSession (bindE m f).
Proof.
  intros Hm Hf. unfold bindE. apply keepsSession_bind; [assumption|].
  intros [a|e]; [apply Hf | apply keepsSession_ret].
Qed.

Lemma keepsSession_emit (e : Event) : keepsSession (emit (W := W) e).
Proof. intro s. reflexivity. Qed.

Lemma keepsSession_call {A} (f : W -> A * W) : keepsSession (call f).
Proof. intro s. unfold call, stateOf. destruct (f (world s)). reflexivity. Qed.

Lemma keepsSession_getConnected : keepsSession (getConnected (W := W)).
Proof. intro s. reflexivity. Qed.

End KeepsSession.

Create HintDb session.
#[export] Hint Resolve keepsSession_ret keepsSession_emit keepsSession_call
  keepsSession_getConnected : session.

(** Decompose a goal [keepsSession m] along the structure of [m]. *)
Ltac keeps_step :=
  match goal with
  | |- keepsSession (bindE _ _) => apply keepsSession_bindE; [|intro]
  | |- keepsSession (bind _ _) => apply keepsSession_bind; [|intro]
  | |- keepsSession (if ?c then _ else _) => destruct c
  | |- keepsSession (match ?x with _ => _ end) => destruct x
  | |- keepsSession (let _ := _ in _) => cbv zeta
  | |- keepsSession _ => solve [auto with session]
  end.

Ltac keeps := repeat keeps_step.

Section SessionBracket.
Context {W : Type} (wd : World W) (config : IaCAgent.AgentConfig)
        (request : IaCGenerator.GenerationRequest).

Lemma executeRemoteCommand_keeps (server : MCPServer.MCPServerConfig) (command : string)
    (cwd : option string) :
  keepsSession (MCPServer.executeRemoteCommand wd server command cwd).
Proof. unfold MCPServer.executeRemoteCommand. keeps. Qed.

Lemma executeCommand_keeps (command : string) (args : list string) :
  keepsSession (Executor.executeCommand wd command args).
Proof. unfold Executor.executeCommand. keeps. Qed.

Lemma buildCycleLoop_keeps (fuel : nat) :
  forall attempt maxAttempts results,
    keepsSession (Executor.buildCycleLoop wd fuel attempt maxAttempts results).
Proof.
  induction fuel as [|fuel IH]; intros attempt maxAttempts results;
    cbn [Executor.buildCycleLoop]; keeps; try apply IH.
  unfold Executor.passBody, Executor.deployStep, Executor.phaseWithFix,
    Executor.attemptBuildFix, Executor.attemptSynthFix, Executor.attemptLintFix,
    Executor.attemptDeployFix.
  keeps; apply executeCommand_keeps.
Qed.

Lemma setupRemoteEnvironment_keeps (server : MCPServer.MCPServerConfig) :
  keepsSession (MCPServer.setupRemoteEnvironment wd server).
Proof.
  unfold MCPServer.setupRemoteEnvironment, MCPServer.cloneRepository,
    MCPServer.installDependencies, MCPServer.setupEnvironmentVariables.
  keeps; apply executeRemoteCommand_keeps.
Qed.

Lemma setupRemoteEnvironment_inside (server : MCPServer.MCPServerConfig) :
  emitsOnly insideSession (MCPServer.setupRemoteEnvironment wd server).
Proof.
  unfold MCPServer.setupRemoteEnvironment, MCPServer.cloneRepository,
    MCPServer.installDependencies, MCPServer.setupEnvironmentVariables.
  emits; apply executeRemoteCommand_emits; intro; exact I.
Qed.

Lemma deliverFiles_keeps (files : Files) :
  keepsSession (IaCAgent.deliverFiles wd config files).
Proof.
  unfold IaCAgent.deliverFiles.
  destruct (IaCAgent.executionMode config).
  - induction files as [|[filePath content] files IH];
      cbn [IaCGenerator.writeGeneratedFiles]; keeps; try exact IH.
  - destruct (IaCAgent.mcpServer config) as [server|]; [|apply keepsSession_ret].
    induction files as [|[filePath content] files IH];
      cbn [MCPServer.uploadGeneratedCode]; unfold MCPServer.removeTemp; keeps;
      try apply executeRemoteCommand_keeps; try exact IH.
Qed.

Lemma deliverFiles_inside (files : Files) :
  emitsOnly insideSession (IaCAgent.deliverFiles wd config files).
Proof.
  unfold IaCAgent.deliverFiles.
  destruct (IaCAgent.executionMode config).
  - induction files as [|[filePath content] files IH];
      cbn [IaCGenerator.writeGeneratedFiles]; emits; try exact IH.
  - destruct (IaCAgent.mcpServer config) as [server|]; [|apply emitsOnly_ret].
    induction files as [|[filePath content] files IH];
      cbn [MCPServer.uploadGeneratedCode]; emits;
      try (apply executeRemoteCommand_emits; intro; exact I);
      try (apply removeTemp_emits; intro; exact I); try exact IH.
Qed.

Lemma runBuildCycle_keeps : keepsSession (IaCAgent.runBuildCycle wd config).
Proof.
  unfold IaCAgent.runBuildCycle, Executor.executeBuildCycle,
    MCPServer.executeRemoteBuildCycle, MCPServer.remotePhases.
  keeps; try apply buildCycleLoop_keeps; apply executeRemoteCommand_keeps.
Qed.

Lemma runBuildCycle_inside : emitsOnly insideSession (IaCAgent.runBuildCycle wd config).
Proof.
  unfold IaCAgent.runBuildCycle, Executor.executeBuildCycle,
    MCPServer.executeRemoteBuildCycle.
  emits.
  - eapply emitsOnly_weaken; [|apply buildCycleLoop_pipelineEvent].
    intros [] He; try contradiction; exact I.
  - eapply emitsOnly_weaken; [|apply remotePhases_emits].
    intros [] He; try contradiction; exact I.
Qed.

Lemma collectOutputs_keeps (server : MCPServer.MCPServerConfig) (files : list string) :
  forall outputs, keepsSession (MCPServer.collectOutputs wd server files outputs).
Proof.
  induction files as [|file files IH]; intro outputs; cbn [MCPServer.collectOutputs];
    keeps; try apply executeRemoteCommand_keeps; apply IH.
Qed.

Lemma collectOutputs_inside (server : MCPServer.MCPServerConfig) (files : list string) :
  forall outputs, emitsOnly insideSession (MCPServer.collectOutputs wd server files outputs).
Proof.
  induction files as [|file files IH]; intro outputs; cbn [MCPServer.collectOutputs];
    emits; try (apply executeRemoteCommand_emits; intro; exact I); apply IH.
Qed.

Lemma cycleBody_keeps (cycle : nat) (currentPrompt : string)
    (results : list IaCAgent.CycleResult) :
  keepsSession (IaCAgent.cycleBody wd config request cycle currentPrompt results).
Proof.
  unfold IaCAgent.cycleBody, IaCAgent.tryBlock, IaCGenerator.generateCDKTFGoCode,
    MCPServer.downloadDeploymentOutputs.
  keeps; try apply deliverFiles_keeps; try apply runBuildCycle_keeps;
    apply collectOutputs_keeps.
Qed.

Lemma agentLoop_keeps (fuel : nat) :
  forall cycle currentPrompt results,
    keepsSession (IaCAgent.agentLoop wd config fuel request cycle currentPrompt results).
Proof.
  induction fuel as [|fuel IH]; intros cycle currentPrompt results;
    cbn [IaCAgent.agentLoop]; keeps; try apply IH.
  apply cycleBody_keeps.
Qed.

Lemma agentLoop_inside (fuel : nat) :
  forall cycle currentPrompt results,
    emitsOnly insideSession
      (IaCAgent.agentLoop wd config fuel request cycle currentPrompt results).
Proof.
  apply agentLoop_emits; [intro; exact I|].
  apply cycleBody_emits.
  - intros; exact I.
  - apply deliverFiles_inside.
  - apply runBuildCycle_inside.
  - intros server _. unfold MCPServer.downloadDeploymentOutputs. emits.
    apply collectOutputs_inside.
Qed.

Lemma connect_run (s : State W) :
  match valueOf (MCPServer.connect wd s) with
  | Normal _ =>
      eventsOf (MCPServer.connect wd s) = [EvConnect None]
      /\ connected (stateOf (MCPServer.connect wd s)) = true
  | Throw e =>
      eventsOf (MCPServer.connect wd s) = [EvConnect (Some e)]
      /\ connected (stateOf (MCPServer.connect wd s)) = connected s
  end.
Proof.
  unfold MCPServer.connect, bind, call, emit, setConnected, ret, valueOf, eventsOf, stateOf.
  destruct (sshConnect wd (world s)) as [[e|] w]; cbn; split; reflexivity.
Qed.

End SessionBracket.

(** X24: a run with a remote server that returns has bracketed its work
    by the session: its first event is the successful connection, its
    last event is the disconnection, nothing in between opens or closes a
    session, and the session is closed afterwards. *)
Theorem returned_remote_run_is_bracketed :
  forall (W : Type) (wd : World W) (config : IaCAgent.AgentConfig)
         (request : IaCGenerator.GenerationRequest) (s : State W)
         (server : MCPServer.MCPServerConfig) (records : list IaCAgent.CycleResult),
    let run := IaCAgent.executeAgentCycle wd config request s in
    IaCAgent.remoteServer config = Some server ->
    valueOf run = Normal records ->
    exists middle,
      eventsOf run = (EvConnect None :: middle ++ [EvDisconnect])%list
      /\ Forall insideSession middle
      /\ connected (stateOf run) = false.
Proof.
  intros W wd config request s server records run Hserver Hv.
  assert (Hclosed : connected (stateOf run) = false).
  { apply (session_closed_on_return wd config request s records); [congruence | exact Hv]. }
  pose proof (executeAgentCycle_parts wd config request s) as H. cbn zeta in H.
  fold run in H.
  destruct (valueOf (openSession wd config s)) as [u|e] eqn:Hopen.
  2:{ destruct H as [H _]. congruence. }
  destruct H as [_ Hev].
  set (loop := IaCAgent.agentLoop wd config (IaCAgent.maxCycles config) request 1
                 (IaCGenerator.prompt request) [] (stateOf (openSession wd config s))) in *.
  assert (Hsession : exists setup,
             eventsOf (openSession wd config s) = EvConnect None :: setup
             /\ Forall insideSession setup
             /\ connected (stateOf (openSession wd config s)) = true).
  { revert Hopen. unfold openSession. rewrite Hserver.
    rewrite valueOf_bindE, eventsOf_bindE, stateOf_bindE.
    pose proof (connect_run wd s) as Hc.
    destruct (valueOf (MCPServer.connect wd s)) as [[]|e]; [|discriminate].
    destruct Hc as [Hc1 Hc2]. intros _.
    exists (eventsOf (MCPServer.setupRemoteEnvironment wd server
                        (stateOf (MCPServer.connect wd s)))).
    rewrite Hc1. split; [reflexivity|]. split.
    - apply setupRemoteEnvironment_inside.
    - rewrite setupRemoteEnvironment_keeps. exact Hc2. }
  destruct Hsession as (setup & Hsetup & Hinside & Hconnected).
  assert (Hloop : connected (stateOf loop) = true).
  { unfold loop. rewrite agentLoop_keeps. exact Hconnected. }
  assert (Hclose : eventsOf (closeSession config (stateOf loop)) = [EvDisconnect]).
  { unfold closeSession. rewrite Hserver.
    unfold MCPServer.disconnect, bind, getConnected, emit, setConnected, eventsOf.
    rewrite Hloop. reflexivity. }
  exists (setup ++ eventsOf loop)%list.
  rewrite Hev, Hsetup, Hclose. split; [|split; [|exact Hclosed]].
  - cbn [app]. rewrite <- app_assoc. reflexivity.
  - apply Forall_app. split; [exact Hinside | apply agentLoop_inside].
Qed.

(** The theorem on a remote run of one cycle. *)
Lemma bracketed_run_witness :
  let run := IaCAgent.executeAgentCycle Script.scripted (Script.remoteConfig 1)
               Script.request (Script.start [] [Script.generated Script.validFiles]) in
  IaCAgent.remoteServer (Script.remoteConfig 1) = Some Script.server
  /\ length (recordsOf (valueOf run)) = 1
  /\ connected (stateOf run) = false.
Proof.
  cbn zeta. split; [reflexivity|]. split; [vm_compute; reflexivity|].
  edestruct (returned_remote_run_is_bracketed Script.Tape Script.scripted
               (Script.remoteConfig 1) Script.request
               (Script.start [] [Script.generated Script.validFiles]) Script.server)
    as (middle & _ & _ & Hclosed).
  - reflexivity.
  - vm_compute. reflexivity.
  - exact Hclosed.
Defined.

(** * The local commands of a whole run *)

Section RunCommands.
Context {W : Type} (wd : World W) (config : IaCAgent.AgentConfig)
        (request : IaCGenerator.GenerationRequest).

Lemma spawned_silent (evs : list Event) :
  Forall (fun e => spawned [e] = []) evs -> spawned evs = [].
Proof.
  induction 1 as [|e evs He _ IH]; [reflexivity|].
  change (e :: evs) with ([e] ++ evs)%list. rewrite spawned_app, He. exact IH.
Qed.

Lemma spawnsAtMost_silent {A} (m : M W A) :
  emitsOnly (fun e => spawned [e] = []) m -> spawnsAtMost 0 m.
Proof. intros Hm s. rewrite (spawned_silent _ (Hm s)). cbn. lia. Qed.

Lemma spawnsAtMost_after {A B} (n : nat) (m : M W A) (f : A -> M W B) :
  spawnsAtMost 0 m -> (forall a, spawnsAtMost n (f a)) -> spawnsAtMost n (bind m f).
Proof. intros Hm Hf. apply (spawnsAtMost_bind 0 n); assumption. Qed.

Lemma spawnsAtMost_before {A B} (n : nat) (m : M W A) (f : A -> M W B) :
  spawnsAtMost n m -> (forall a, spawnsAtMost 0 (f a)) -> spawnsAtMost n (bind m f).
Proof.
  intros Hm Hf. apply (spawnsAtMost_weaken (n + 0)); [lia|].
  apply spawnsAtMost_bind; assumption.
Qed.

Lemma executeRemoteCommand_spawns_nothing (server : MCPServer.MCPServerConfig)
    (command : string) (cwd : option string) :
  emitsOnly (fun e => spawned [e] = [])
    (MCPServer.executeRemoteCommand wd server command cwd).
Proof. apply executeRemoteCommand_emits. reflexivity. Qed.

Lemma deliverFiles_spawns_nothing (files : Files) :
  spawnsAtMost 0 (IaCAgent.deliverFiles wd config files).
Proof.
  apply spawnsAtMost_silent. unfold IaCAgent.deliverFiles.
  destruct (IaCAgent.executionMode config).
  - induction files as [|[filePath content] files IH];
      cbn [IaCGenerator.writeGeneratedFiles]; emits; try exact IH.
  - destruct (IaCAgent.mcpServer config) as [server|]; [|apply emitsOnly_ret].
    induction files as [|[filePath content] files IH];
      cbn [MCPServer.uploadGeneratedCode]; emits;
      try apply executeRemoteCommand_spawns_nothing;
      try (apply removeTemp_emits; reflexivity); try exact IH.
Qed.

Lemma collectOutputs_spawns_nothing (server : MCPServer.MCPServerConfig)
    (files : list string) :
  forall outputs,
    emitsOnly (fun e => spawned [e] = [])
      (MCPServer.collectOutputs wd server files outputs).
Proof.
  induction files as [|file files IH]; intro outputs; cbn [MCPServer.collectOutputs];
    emits; try apply executeRemoteCommand_spawns_nothing; apply IH.
Qed.

Lemma runBuildCycle_spawns : spawnsAtMost 39 (IaCAgent.runBuildCycle wd config).
Proof.
  unfold IaCAgent.runBuildCycle.
  destruct (IaCAgent.executionMode config).
  - apply spawnsAtMost_before; [|intro; apply spawnsAtMost_ret].
    unfold Executor.executeBuildCycle.
    apply (spawnsAtMost_buildCycleLoop wd 3 0 3 noResults).
  - apply (spawnsAtMost_weaken 0); [lia|]. apply spawnsAtMost_silent.
    destruct (IaCAgent.mcpServer config) as [server|]; [|apply emitsOnly_ret].
    unfold MCPServer.executeRemoteBuildCycle. emits.
    eapply emitsOnly_weaken; [|apply remotePhases_emits].
    intros [] He; try contradiction; reflexivity.
Qed.

Lemma cycleBody_spawns (cycle : nat) (currentPrompt : string)
    (results : list IaCAgent.CycleResult) :
  spawnsAtMost 39 (IaCAgent.cycleBody wd config request cycle currentPrompt results).
Proof.
  unfold IaCAgent.cycleBody, IaCAgent.tryBlock.
  apply spawnsAtMost_before.
  2:{ intro x. apply spawnsAtMost_silent. emits. }
  apply spawnsAtMost_after.
  { apply spawnsAtMost_silent. unfold IaCGenerator.generateCDKTFGoCode. emits. }
  intro generationResult.
  destruct (negb (gen_success generationResult)); [apply spawnsAtMost_ret|]. cbv zeta.
  destruct (negb (fst (IaCGenerator.validateGeneratedCode wd (gen_files generationResult))));
    [apply spawnsAtMost_ret|].
  apply spawnsAtMost_after; [apply deliverFiles_spawns_nothing|].
  intros [u|e]; [|apply spawnsAtMost_ret].
  apply spawnsAtMost_before; [apply runBuildCycle_spawns|].
  intro buildResult. apply spawnsAtMost_silent.
  unfold MCPServer.downloadDeploymentOutputs.
  emits; apply collectOutputs_spawns_nothing.
Qed.

Lemma session_spawns_nothing :
  emitsOnly (fun e => spawned [e] = []) (openSession wd config)
  /\ emitsOnly (fun e => spawned [e] = []) (closeSession (W := W) config).
Proof.
  split.
  - unfold openSession, MCPServer.connect, MCPServer.setupRemoteEnvironment,
      MCPServer.cloneRepository, MCPServer.installDependencies,
      MCPServer.setupEnvironmentVariables.
    emits; apply executeRemoteCommand_spawns_nothing.
  - unfold closeSession, MCPServer.disconnect. emits.
Qed.

Lemma agentLoop_spawns (fuel : nat) :
  forall cycle currentPrompt results,
    spawnsAtMost (39 * (IaCAgent.maxCycles config + 1 - cycle))
      (IaCAgent.agentLoop wd config fuel request cycle currentPrompt results).
Proof.
  induction fuel as [|fuel IH]; intros cycle currentPrompt results;
    cbn [IaCAgent.agentLoop]; [apply spawnsAtMost_ret|].
  destruct (Nat.leb_spec cycle (IaCAgent.maxCycles config)); [|apply spawnsAtMost_ret].
  apply spawnsAtMost_after; [apply spawnsAtMost_silent; emits|].
  intros _.
  apply (spawnsAtMost_weaken (39 + 39 * (IaCAgent.maxCycles config + 1 - S cycle))); [lia|].
  apply spawnsAtMost_bind; [apply cycleBody_spawns|].
  intros [results' prompt'|results'].
  - apply IH.
  - apply spawnsAtMost_ret.
Qed.

End RunCommands.

(** X25: in either mode a run spawns at most [39 * maxCycles] local
    commands: a cycle runs the local pipeline once, with three passes of
    at most 13 commands. *)
Theorem run_command_bound :
  forall (W : Type) (wd : World W) (config : IaCAgent.AgentConfig)
         (request : IaCGenerator.GenerationRequest) (s : State W),
    length (spawned (eventsOf (IaCAgent.executeAgentCycle wd config request s)))
    <= 39 * IaCAgent.maxCycles config.
Proof.
  intros W wd config request s.
  pose proof (executeAgentCycle_parts wd config request s) as H. cbn zeta in H.
  destruct (session_spawns_nothing wd config) as [Hopening Hclosing].
  pose proof (spawned_silent _ (Hopening s)) as Hopen.
  pose proof (agentLoop_spawns wd config request (IaCAgent.maxCycles config) 1
                (IaCGenerator.prompt request) [] (stateOf (openSession wd config s)))
    as Hloop.
  destruct (valueOf (openSession wd config s)).
  - destruct H as [_ ->].
    rewrite !spawned_app, Hopen, (spawned_silent _ (Hclosing _)), app_nil_r.
    cbn [app]. lia.
  - destruct H as [_ ->]. rewrite Hopen. cbn. lia.
Qed.
